(** * SUBFRACTURE session synchronisation: a shallow embedding

    The development follows two JavaScript sources of the repository:

    - the real-time server, class [SubfractureWebSocketServer]
      (session store [brandSessions], connection registry [clients],
      the HTTP handlers and the broadcast utilities);
    - the serverless endpoint ([module.exports] with its routes
      [ai/cognitive-state] and [refinement/dialogue]).

    JavaScript numbers are IEEE 754 binary64 values and are modelled by
    Rocq's primitive [float]; JavaScript values whose type the code does
    not fix (payload fields that are stored unvalidated) are modelled by
    [Js.value].  Strings are sequences of ASCII characters. *)

From Stdlib Require Import Floats Ascii String ZArith.
From stdpp Require Import gmap strings list pretty.

Set Warnings "-inexact-float,-register-all".

(* ===================================================================== *)
(** ** JavaScript values and the built-ins the code calls *)
(* ===================================================================== *)

Module Js.

(** Values that travel through the handlers.  [Date t] is a [Date]
    object holding [t] milliseconds; [Obj] lists the own properties in
    the order in which JavaScript enumerates them. *)
Inductive value : Type :=
| Undefined
| Null
| Bool (b : bool)
| Num (x : float)
| Str (s : string)
| Date (t : nat)
| Arr (items : list value)
| Obj (props : list (string * value)).

Definition props : Type := list (string * value).

(** [ToBoolean]: the falsy values are [undefined], [null], [false],
    [+0], [-0], [NaN] and the empty string. *)
Definition truthy (v : value) : bool :=
  match v with
  | Undefined | Null => false
  | Bool b => b
  | Num x => negb (PrimFloat.is_zero x || PrimFloat.is_nan x)
  | Str s => negb (String.eqb s "")
  | Date _ | Arr _ | Obj _ => true
  end.

(** [a || b] on values: the left operand when it is truthy. *)
Definition or_else (a b : value) : value := if truthy a then a else b.

(** [Math.min(a, b)]: [NaN] when either argument is [NaN], and [-0] is
    smaller than [+0]. *)
Definition Math_min (a b : float) : float :=
  if PrimFloat.is_nan a || PrimFloat.is_nan b then PrimFloat.nan
  else if PrimFloat.ltb a b then a
  else if PrimFloat.ltb b a then b
  else if PrimFloat.is_zero a && PrimFloat.get_sign b then b
  else a.

(** [String.prototype.toLowerCase] on ASCII text. *)
Definition lower_ascii (c : ascii) : ascii :=
  let n := nat_of_ascii c in
  if (65 <=? n)%nat && (n <=? 90)%nat then ascii_of_nat (n + 32) else c.

Fixpoint toLowerCase (s : string) : string :=
  match s with
  | EmptyString => EmptyString
  | String c t => String (lower_ascii c) (toLowerCase t)
  end.

(** [hay.includes(needle)]: [needle] occurs in [hay] at some position. *)
Fixpoint includes (hay needle : string) : bool :=
  String.prefix needle hay
  || match hay with
     | EmptyString => false
     | String _ t => includes t needle
     end.

(** [o.k = v] on an own property list: an existing key keeps its place,
    a new key goes last. *)
Fixpoint set_prop (k : string) (v : value) (o : props) : props :=
  match o with
  | [] => [(k, v)]
  | (k', v') :: rest =>
      if String.eqb k' k then (k', v) :: rest
      else (k', v') :: set_prop k v rest
  end.

Fixpoint get_prop (k : string) (o : props) : value :=
  match o with
  | [] => Undefined
  | (k', v') :: rest => if String.eqb k' k then v' else get_prop k rest
  end.

(** Own enumerable properties copied by the object spread [{...v}]:
    the properties of an object, the indices of an array or of a
    string, nothing for the other values. *)
Definition indexed (vs : list value) : props :=
  imap (fun i v => (pretty i, v)) vs.

Definition chars (s : string) : list value :=
  (fun c => Str (String c EmptyString)) <$> list_ascii_of_string s.

Definition spread (v : value) : props :=
  match v with
  | Obj o => o
  | Arr vs => indexed vs
  | Str s => indexed (chars s)
  | Undefined | Null | Bool _ | Num _ | Date _ => []
  end.

End Js.

(* ===================================================================== *)
(** ** The world outside the process: the clock and the uuid package *)
(* ===================================================================== *)

(** [new Date()] and [uuidv4()] are the two impure calls of the handlers.
    The world carries both as oracles: the [n]-th reading of the clock is
    [clock n], the [n]-th identifier drawn is [uuid n]. *)
Record World : Type := mkWorld {
  clock : nat -> nat;
  clock_reads : nat;
  uuid : nat -> string;
  uuids_drawn : nat
}.

(** Computations that read the world. *)
Definition W (A : Type) : Type := World -> A * World.

Definition ret {A} (a : A) : W A := fun w => (a, w).

Definition bind {A B} (c : W A) (k : A -> W B) : W B :=
  fun w => let (a, w') := c w in k a w'.

Declare Scope world_scope.
Delimit Scope world_scope with world.
Notation "'let*' x ':=' c 'in' k" :=
  (bind c (fun x => k))
  (at level 10, x pattern, c at level 100, k at level 200) : world_scope.

Definition new_Date : W nat :=
  fun w => (clock w (clock_reads w),
            mkWorld (clock w) (S (clock_reads w)) (uuid w) (uuids_drawn w)).

Definition uuidv4 : W string :=
  fun w => (uuid w (uuids_drawn w),
            mkWorld (clock w) (clock_reads w) (uuid w) (S (uuids_drawn w))).

(** [xs.map(f)] where [f] reads the world: elements are visited in order. *)
Fixpoint mapW {A B} (f : A -> W B) (xs : list A) : W (list B) :=
  match xs with
  | [] => ret []
  | x :: rest =>
      (let* y := f x in
       let* ys := mapW f rest in
       ret (y :: ys))%world
  end.

(** [xs.forEach(x => ...)] updating a value of type [S]. *)
Fixpoint foldW {A S} (f : A -> S -> W S) (xs : list A) (s : S) : W S :=
  match xs with
  | [] => ret s
  | x :: rest => (let* s' := f x s in foldW f rest s')%world
  end.

(* ===================================================================== *)
(** ** The real-time server: [SubfractureWebSocketServer] *)
(* ===================================================================== *)

Module Server.

Import Js.
Local Open Scope world_scope.

(** *** Session data *)

Record Dimension : Type := mkDimension {
  name : string;
  depth : float;
  coherence : float;
  color : Z;
  viscosity : float;
  refraction : float;
  signalStrength : value;
  lastUpdated : nat
}.

Record Connection : Type := mkConnection {
  from : string;
  to : string;
  strength : float;
  type : string;
  active : bool
}.

(** [lastUpdate] and [context] are absent ([Undefined]) in a freshly
    created session and present after the first cognitive update. *)
Record CognitiveState : Type := mkCognitiveState {
  analytical : value;
  intuitive : value;
  efficiency : value;
  lastUpdate : value;
  context : value
}.

Record Metrics : Type := mkMetrics {
  metrics_coherence : float;
  evolution_rate : string;
  signal_strength : float
}.

Record Session : Type := mkSession {
  session_id : string;
  session_name : string;
  createdAt : nat;
  dimensions : list Dimension;
  connections : list Connection;
  contradictions : list props;
  gaps : list props;
  cognitiveState : CognitiveState;
  metrics : Metrics
}.

(** *** Frames pushed to clients

    [ws.send(JSON.stringify(message))] serialises the message when it is
    sent, so a frame holds the session as it is at that moment. *)
Record Dialogue : Type := mkDialogue {
  speaker : value;
  message : value;
  messageType : value;
  timestamp : nat
}.

Inductive Message : Type :=
| welcome (clientId : string)
| brand_state (brandId : string) (state : Session)
| workshop_update (brandId : string)
    (n_signals n_contradictions n_gaps : nat) (newState : Session)
| cognitive_update (brandId : string) (cs : CognitiveState)
| dialogue_message (brandId : string) (dialogue : Dialogue).

(** *** Connections

    The socket belongs to the [ws] package.  Of it the server reads
    [readyState] and calls [send]; [failing] tells whether [send] throws
    on this socket, [outbox] lists the frames it accepted. *)
Definition CONNECTING : nat := 0.
Definition OPEN : nat := 1.
Definition CLOSING : nat := 2.
Definition CLOSED : nat := 3.

Record Socket : Type := mkSocket {
  readyState : nat;
  failing : bool;
  outbox : list Message
}.

Record Client : Type := mkClient {
  client_id : string;
  ws : Socket;
  connectedAt : nat;
  brandId : option string;   (* [null] until the client joins a brand *)
  userAgent : value;
  ip : value
}.

(** *** A JavaScript [Map] with string keys, in insertion order *)
Section JsMap.
Context {V : Type}.

Fixpoint Map_get (k : string) (m : list (string * V)) : option V :=
  match m with
  | [] => None
  | (k', v) :: rest => if String.eqb k' k then Some v else Map_get k rest
  end.

Fixpoint Map_set (k : string) (v : V) (m : list (string * V))
  : list (string * V) :=
  match m with
  | [] => [(k, v)]
  | (k', v') :: rest =>
      if String.eqb k' k then (k', v) :: rest
      else (k', v') :: Map_set k v rest
  end.

Fixpoint Map_delete (k : string) (m : list (string * V))
  : list (string * V) :=
  match m with
  | [] => []
  | (k', v') :: rest =>
      if String.eqb k' k then Map_delete k rest
      else (k', v') :: Map_delete k rest
  end.
End JsMap.

(** *** The server object

    [failures] records the client ids for which [sendToClient] reported
    a failed send on [console.error]. *)
Record Server : Type := mkServer {
  clients : list (string * Client);
  brandSessions : gmap string Session;
  failures : list string
}.

(** [new SubfractureWebSocketServer()]: both maps empty. *)
Definition constructor : Server := mkServer [] ∅ [].

Definition set_clients (cs : list (string * Client)) (srv : Server) : Server :=
  mkServer cs (brandSessions srv) (failures srv).

Definition set_brandSessions (bs : gmap string Session) (srv : Server)
  : Server :=
  mkServer (clients srv) bs (failures srv).

Definition log_failure (clientId : string) (srv : Server) : Server :=
  mkServer (clients srv) (brandSessions srv) (failures srv ++ [clientId]).

(** *** Session store *)

Definition generateInitialDimensions : W (list Dimension) :=
  let* t1 := new_Date in
  let* t2 := new_Date in
  let* t3 := new_Date in
  let* t4 := new_Date in
  let* t5 := new_Date in
  let* t6 := new_Date in
  let* t7 := new_Date in
  ret [ mkDimension "market_position" 0.85 0.92 0x2196F3 0.8 1.52 (Num 0.85) t1;
        mkDimension "value_proposition" 0.78 0.88 0x4CAF50 0.75 1.48 (Num 0.78) t2;
        mkDimension "brand_narrative" 0.82 0.75 0xFF9800 0.9 1.54 (Num 0.82) t3;
        mkDimension "emotional_landscape" 0.90 0.85 0xE91E63 0.95 1.55 (Num 0.90) t4;
        mkDimension "visual_identity" 0.75 0.95 0x9C27B0 0.7 1.49 (Num 0.75) t5;
        mkDimension "digital_presence" 0.88 0.78 0x607D8B 0.8 1.51 (Num 0.88) t6;
        mkDimension "innovation_capacity" 0.92 0.88 0xFF5722 0.85 1.53 (Num 0.92) t7 ].

Definition generateInitialConnections : list Connection :=
  [ mkConnection "market_position" "value_proposition" 0.9 "strategic" true;
    mkConnection "brand_narrative" "emotional_landscape" 0.85 "experiential" true;
    mkConnection "visual_identity" "digital_presence" 0.8 "implementation" true ].

Definition createBrandSession (brandId : string) (srv : Server)
  : W (Session * Server) :=
  let* created := new_Date in
  let* dims := generateInitialDimensions in
  let session :=
    mkSession brandId
      (String.append "Brand " (String.substring 0 8 brandId))
      created dims generateInitialConnections [] []
      (mkCognitiveState (Num 0.7) (Num 0.7) (Num 0.75) Undefined Undefined)
      (mkMetrics 0.84 "moderate" 0.78) in
  ret (session, set_brandSessions (<[brandId := session]> (brandSessions srv)) srv).

(** [this.brandSessions.get(brandId) || this.createBrandSession(brandId)],
    the lookup every handler starts with. *)
Definition getOrCreate (brandId : string) (srv : Server)
  : W (Session * Server) :=
  match brandSessions srv !! brandId with
  | Some session => ret (session, srv)
  | None => createBrandSession brandId srv
  end.

(** The handlers change the session object held by the store. *)
Definition store (brandId : string) (session : Session) (srv : Server)
  : Server :=
  set_brandSessions (<[brandId := session]> (brandSessions srv)) srv.

(** *** Broadcasting utilities *)

Definition is_OPEN (s : Socket) : bool := Nat.eqb (readyState s) OPEN.

(** [client.ws.send(...)] on a socket that accepts the frame. *)
Definition accept (m : Message) (c : Client) : Client :=
  mkClient (client_id c)
    (mkSocket (readyState (ws c)) (failing (ws c)) (outbox (ws c) ++ [m]))
    (connectedAt c) (brandId c) (userAgent c) (ip c).

Definition sendToClient (clientId : string) (m : Message) (srv : Server)
  : Server :=
  match Map_get clientId (clients srv) with
  | Some client =>
      if is_OPEN (ws client) then
        if failing (ws client)
        then log_failure clientId srv                      (* catch (error) *)
        else set_clients (Map_set clientId (accept m client) (clients srv)) srv
      else srv
  | None => srv
  end.

(** [client.brandId === brandId] *)
Definition watches (brand : string) (c : Client) : bool :=
  match brandId c with
  | Some b => String.eqb b brand
  | None => false
  end.

(** [this.clients.forEach(...)] visits the entries in insertion order.
    A send changes neither [brandId] nor [readyState] of an entry, so the
    two tests read the entries as they are when the loop starts. *)
Definition broadcastToBrand (brand : string) (m : Message) (srv : Server)
  : Server :=
  foldl (fun acc '(clientId, client) =>
           if watches brand client && is_OPEN (ws client)
           then sendToClient clientId m acc
           else acc)
        srv (clients srv).

Definition broadcast (m : Message) (srv : Server) : Server :=
  foldl (fun acc '(clientId, client) =>
           if is_OPEN (ws client) then sendToClient clientId m acc else acc)
        srv (clients srv).

(** *** Request bodies

    The bodies have the shapes of the message contract: [brandId] is a
    string, [signals] an array of objects whose [category] is a string when
    present, [contradictions] and [gaps] arrays.  A field that the request
    leaves out is [None] for the array fields and [Undefined] for the
    fields the handlers store as they come.  On such bodies no handler
    throws, so every call answers [{ success: true, brandId }]. *)
Record Signal : Type := mkSignal {
  category : option string;    (* [None]: missing or [null] *)
  confidence : value
}.

Record WorkshopBody : Type := mkWorkshopBody {
  w_brandId : string;
  w_signals : option (list Signal);
  w_contradictions : option (list value);
  w_gaps : option (list value)
}.

Record CognitiveBody : Type := mkCognitiveBody {
  c_brandId : string;
  c_analytical : value;
  c_intuitive : value;
  c_efficiency : value;
  c_context : value
}.

Record DialogueBody : Type := mkDialogueBody {
  d_brandId : string;
  d_speaker : value;
  d_message : value;
  d_messageType : value
}.

Inductive Response : Type :=
| json_success (brandId : string)     (* [{ success: true, brandId }] *)
| json_session (session : Session).   (* [res.json(brandSession)] *)

(** [xs && xs.length > 0] *)
Definition non_empty {A} (xs : option (list A)) : bool :=
  match xs with
  | Some (_ :: _) => true
  | _ => false
  end.

(** [xs?.length || 0] *)
Definition count {A} (xs : option (list A)) : nat :=
  match xs with
  | Some l => length l
  | None => 0
  end.

Definition items {A} (xs : option (list A)) : list A :=
  match xs with
  | Some l => l
  | None => []
  end.

(** *** [handleWorkshopData] *)

(** The argument of [includes]: [signal.category?.toLowerCase()], which
    is [undefined] for a missing category and is then searched as the
    text "undefined". *)
Definition needle (signal : Signal) : string :=
  match category signal with
  | Some c => toLowerCase c
  | None => "undefined"
  end.

(** The predicate given to [find]:
    [d.name === signal.category || d.name.includes(...)]. *)
Definition matchesSignal (signal : Signal) (d : Dimension) : bool :=
  match category signal with
  | Some c => String.eqb (name d) c
  | None => false
  end
  || includes (name d) (needle signal).

(** [brandSession.dimensions.find(...)]: the first dimension, in array
    order, on which the predicate holds, with its position. *)
Fixpoint find_from (i : nat) (signal : Signal) (dims : list Dimension)
  : option (nat * Dimension) :=
  match dims with
  | [] => None
  | d :: rest =>
      if matchesSignal signal d then Some (i, d)
      else find_from (S i) signal rest
  end.

Definition find (signal : Signal) (dims : list Dimension)
  : option (nat * Dimension) :=
  find_from 0 signal dims.

(** The three assignments made to the dimension that was found. *)
Definition touch (signal : Signal) (now : nat) (d : Dimension) : Dimension :=
  mkDimension (name d) (depth d)
    (Math_min (coherence d + 0.05) 1.0)
    (color d) (viscosity d) (refraction d)
    (confidence signal) now.

Definition applySignal (signal : Signal) (dims : list Dimension)
  : W (list Dimension) :=
  match find signal dims with
  | Some (i, d) =>
      let* now := new_Date in
      ret (<[i := touch signal now d]> dims)
  | None => ret dims
  end.

Definition set_dimensions (dims : list Dimension) (s : Session) : Session :=
  mkSession (session_id s) (session_name s) (createdAt s) dims
    (connections s) (contradictions s) (gaps s) (cognitiveState s)
    (metrics s).

Definition set_contradictions (cs : list props) (s : Session) : Session :=
  mkSession (session_id s) (session_name s) (createdAt s) (dimensions s)
    (connections s) cs (gaps s) (cognitiveState s) (metrics s).

Definition set_gaps (gs : list props) (s : Session) : Session :=
  mkSession (session_id s) (session_name s) (createdAt s) (dimensions s)
    (connections s) (contradictions s) gs (cognitiveState s) (metrics s).

Definition set_cognitiveState (cs : CognitiveState) (s : Session) : Session :=
  mkSession (session_id s) (session_name s) (createdAt s) (dimensions s)
    (connections s) (contradictions s) (gaps s) cs (metrics s).

(** [if (signals && signals.length > 0) signals.forEach(...)] *)
Definition processSignals (signals : option (list Signal)) (s : Session)
  : W Session :=
  if non_empty signals then
    let* dims := foldW applySignal (items signals) (dimensions s) in
    ret (set_dimensions dims s)
  else ret s.

(** [{ ...c, id: uuidv4(), detected: new Date() }] and its twin for
    gaps, which names the date [identified]. *)
Definition stamp (dateKey : string) (c : value) : W props :=
  let* i := uuidv4 in
  let* now := new_Date in
  ret (set_prop dateKey (Date now) (set_prop "id" (Str i) (spread c))).

(** [if (contradictions && contradictions.length > 0) ... = contradictions.map(...)] *)
Definition processContradictions (cs : option (list value)) (s : Session)
  : W Session :=
  if non_empty cs then
    let* stamped := mapW (stamp "detected") (items cs) in
    ret (set_contradictions stamped s)
  else ret s.

Definition processGaps (gs : option (list value)) (s : Session)
  : W Session :=
  if non_empty gs then
    let* stamped := mapW (stamp "identified") (items gs) in
    ret (set_gaps stamped s)
  else ret s.

Definition handleWorkshopData (body : WorkshopBody) (srv : Server)
  : W (Response * Server) :=
  let* (session, srv) := getOrCreate (w_brandId body) srv in
  let* session := processSignals (w_signals body) session in
  let* session := processContradictions (w_contradictions body) session in
  let* session := processGaps (w_gaps body) session in
  let srv := store (w_brandId body) session srv in
  let srv :=
    broadcastToBrand (w_brandId body)
      (workshop_update (w_brandId body)
         (count (w_signals body)) (count (w_contradictions body))
         (count (w_gaps body)) session)
      srv in
  ret (json_success (w_brandId body), srv).

(** *** [handleCognitiveState] *)
Definition handleCognitiveState (body : CognitiveBody) (srv : Server)
  : W (Response * Server) :=
  let* (session, srv) := getOrCreate (c_brandId body) srv in
  let* now := new_Date in
  let cs :=
    mkCognitiveState
      (or_else (c_analytical body) (Num 0.7))
      (or_else (c_intuitive body) (Num 0.7))
      (or_else (c_efficiency body) (Num 0.75))
      (Date now)
      (or_else (c_context body) (Obj [])) in
  let srv := store (c_brandId body) (set_cognitiveState cs session) srv in
  let srv := broadcastToBrand (c_brandId body)
               (cognitive_update (c_brandId body) cs) srv in
  ret (json_success (c_brandId body), srv).

(** *** [handleRefinementDialogue] *)
Definition handleRefinementDialogue (body : DialogueBody) (srv : Server)
  : W (Response * Server) :=
  let* now := new_Date in
  let srv :=
    broadcastToBrand (d_brandId body)
      (dialogue_message (d_brandId body)
         (mkDialogue (d_speaker body) (d_message body)
            (or_else (d_messageType body) (Str "question")) now))
      srv in
  ret (json_success (d_brandId body), srv).

(** *** [getBrandState] *)
Definition getBrandState (id : string) (srv : Server)
  : W (Response * Server) :=
  let* (session, srv) := getOrCreate id srv in
  ret (json_session session, srv).

(** *** Connection events *)

Definition set_brandId (b : string) (c : Client) : Client :=
  mkClient (client_id c) (ws c) (connectedAt c) (Some b) (userAgent c) (ip c).

Definition handleJoinBrand (clientId brand : string) (srv : Server)
  : W Server :=
  match Map_get clientId (clients srv) with
  | None => ret srv
  | Some client =>
      let srv := set_clients
                   (Map_set clientId (set_brandId brand client) (clients srv))
                   srv in
      let* (brandState, srv) := getOrCreate brand srv in
      ret (sendToClient clientId (brand_state brand brandState) srv)
  end.

(** [wss.on('connection', ...)]: the new client is registered under a
    fresh id and greeted.  The socket, open on arrival, comes from the
    transport; [fails] is its behaviour on [send]. *)
Definition on_connection (fails : bool) (agent address : value) (srv : Server)
  : W (string * Server) :=
  let* clientId := uuidv4 in
  let* connected := new_Date in
  let info := mkClient clientId (mkSocket OPEN fails []) connected None
                agent address in
  let srv := set_clients (Map_set clientId info (clients srv)) srv in
  ret (clientId, sendToClient clientId (welcome clientId) srv).

(** [ws.on('close', ...)] *)
Definition on_close (clientId : string) (srv : Server) : Server :=
  set_clients (Map_delete clientId (clients srv)) srv.

(** *** The life of the process

    What reaches the server, one event at a time: the transport opens
    and closes connections and changes the state of a socket, clients
    send [join_brand], and the four HTTP endpoints are called. *)
Inductive Event : Type :=
| connection (fails : bool) (agent address : value)
| close (clientId : string)
| socket_state (clientId : string) (state : nat) (fails : bool)
| join_brand (clientId brand : string)
| post_workshop (body : WorkshopBody)
| post_cognitive (body : CognitiveBody)
| post_dialogue (body : DialogueBody)
| get_state (id : string).

Definition set_socket (state : nat) (fails : bool) (c : Client) : Client :=
  mkClient (client_id c) (mkSocket state fails (outbox (ws c)))
    (connectedAt c) (brandId c) (userAgent c) (ip c).

Definition step (e : Event) (srv : Server) : W Server :=
  match e with
  | connection fails agent address =>
      let* (_, srv) := on_connection fails agent address srv in ret srv
  | close clientId => ret (on_close clientId srv)
  | socket_state clientId state fails =>
      match Map_get clientId (clients srv) with
      | Some c =>
          ret (set_clients
                 (Map_set clientId (set_socket state fails c) (clients srv))
                 srv)
      | None => ret srv
      end
  | join_brand clientId brand => handleJoinBrand clientId brand srv
  | post_workshop body =>
      let* (_, srv) := handleWorkshopData body srv in ret srv
  | post_cognitive body =>
      let* (_, srv) := handleCognitiveState body srv in ret srv
  | post_dialogue body =>
      let* (_, srv) := handleRefinementDialogue body srv in ret srv
  | get_state id =>
      let* (_, srv) := getBrandState id srv in ret srv
  end.

Definition run (events : list Event) (srv : Server) : W Server :=
  foldW step events srv.

(** Frames a client has received so far. *)
Definition received (clientId : string) (srv : Server) : list Message :=
  match Map_get clientId (clients srv) with
  | Some c => outbox (ws c)
  | None => []
  end.

End Server.

(* ===================================================================== *)
(** ** The serverless endpoint: [module.exports] and its routes *)
(* ===================================================================== *)

Module Serverless.

Import Js.
Local Open Scope world_scope.

Record Dimension : Type := mkDimension {
  name : string;
  signalStrength : float;
  coherence : float;
  connections : list value
}.

Record CognitiveState : Type := mkCognitiveState {
  analytical : value;
  intuitive : value;
  efficiency : value;
  context : value            (* absent in a fresh session *)
}.

Record DialogueEntry : Type := mkDialogueEntry {
  id : string;
  speaker : value;
  message : value;
  messageType : value;
  timestamp : nat
}.

Record Session : Type := mkSession {
  brandId : value;
  created : nat;
  lastUpdate : nat;
  dimensions : list Dimension;
  contradictions : list value;
  gaps : list value;
  cognitiveState : CognitiveState;
  dialogue : list DialogueEntry
}.

(** "Create fresh demo brand session (serverless functions are
    stateless)".  The [instructions] notes of the session are constant
    texts and are left out. *)
Definition createBrandSession (brand : value) : W Session :=
  let* t1 := new_Date in
  let* t2 := new_Date in
  ret (mkSession brand t1 t2
         [ mkDimension "market_position" 0.5 0.7 [];
           mkDimension "value_proposition" 0.6 0.8 [];
           mkDimension "emotional_landscape" 0.4 0.6 [];
           mkDimension "brand_narrative" 0.7 0.9 [];
           mkDimension "target_audience" 0.3 0.5 [];
           mkDimension "competitive_differentiation" 0.5 0.6 [] ]
         [] []
         (mkCognitiveState (Num 0.5) (Num 0.5) (Num 0.7) Undefined)
         []).

Record CognitiveBody : Type := mkCognitiveBody {
  c_brandId : value;
  c_analytical : value;
  c_intuitive : value;
  c_efficiency : value;
  c_context : value
}.

Record DialogueBody : Type := mkDialogueBody {
  d_brandId : value;
  d_speaker : value;
  d_message : value;
  d_messageType : value
}.

(** What a route answers, together with the session it worked on as it
    is when the route returns. *)
Inductive Outcome (A : Type) : Type :=
| status400                          (* 'Brand ID is required' *)
| status200 (answer : A) (session : Session).
Arguments status400 {A}.
Arguments status200 {A}.

Definition set_cognitiveState (cs : CognitiveState) (s : Session) : Session :=
  mkSession (brandId s) (created s) (lastUpdate s) (dimensions s)
    (contradictions s) (gaps s) cs (dialogue s).

Definition set_lastUpdate (t : nat) (s : Session) : Session :=
  mkSession (brandId s) (created s) t (dimensions s)
    (contradictions s) (gaps s) (cognitiveState s) (dialogue s).

(** [session.cognitiveState = { analytical: analytical ||
    session.cognitiveState.analytical, ... , context: context || {} }] *)
Definition mergeCognitiveState (body : CognitiveBody) (s : Session)
  : Session :=
  set_cognitiveState
    (mkCognitiveState
       (or_else (c_analytical body) (analytical (cognitiveState s)))
       (or_else (c_intuitive body) (intuitive (cognitiveState s)))
       (or_else (c_efficiency body) (efficiency (cognitiveState s)))
       (or_else (c_context body) (Obj [])))
    s.

(** POST /api/ai/cognitive-state *)
Definition cognitive_state_route (body : CognitiveBody)
  : W (Outcome CognitiveState) :=
  if negb (truthy (c_brandId body)) then ret status400
  else
    let* session := createBrandSession (c_brandId body) in
    let session := mergeCognitiveState body session in
    let* now := new_Date in
    let session := set_lastUpdate now session in
    ret (status200 (cognitiveState session) session).

(** [session.dialogue.push(dialogueEntry)] *)
Definition push (entry : DialogueEntry) (s : Session) : Session :=
  mkSession (brandId s) (created s) (lastUpdate s) (dimensions s)
    (contradictions s) (gaps s) (cognitiveState s) (dialogue s ++ [entry]).

(** The entry built by the dialogue route. *)
Definition dialogueEntry (body : DialogueBody) : W DialogueEntry :=
  let* i := uuidv4 in
  let* now := new_Date in
  ret (mkDialogueEntry i (d_speaker body) (d_message body)
         (d_messageType body) now).

(** The body of the dialogue route once the session is at hand. *)
Definition appendDialogue (body : DialogueBody) (s : Session)
  : W (DialogueEntry * Session) :=
  let* entry := dialogueEntry body in
  let s := push entry s in
  let* now := new_Date in
  ret (entry, set_lastUpdate now s).

(** POST /api/refinement/dialogue *)
Definition dialogue_route (body : DialogueBody)
  : W (Outcome DialogueEntry) :=
  if negb (truthy (d_brandId body)) then ret status400
  else
    let* session := createBrandSession (d_brandId body) in
    let* (entry, session) := appendDialogue body session in
    ret (status200 entry session).

End Serverless.

(* ===================================================================== *)
(** ** Vocabulary of the statements *)
(* ===================================================================== *)

Module Stmt.
Import Js Server.

(** What a broadcast to [brand] does to one registered client: the frame
    is added to the outbox of a client that watches the brand over an
    open socket which accepts it. *)
Definition delivered (brand : string) (m : Message) (c : Client) : Client :=
  if watches brand c && is_OPEN (ws c) && negb (failing (ws c))
  then accept m c else c.

(** The clients a broadcast to [brand] tries and fails to reach: they
    watch the brand, their socket is open, and [send] throws on it. *)
Definition undelivered (brand : string) (srv : Server) : list string :=
  (List.filter
     (fun kc : string * Client =>
        watches brand kc.2 && is_OPEN (ws kc.2) && failing (ws kc.2))
     (clients srv)).*1.



(** The names of the attributes every session is created with. *)
Definition default_names : list string :=
  [ "market_position"; "value_proposition"; "brand_narrative";
    "emotional_landscape"; "visual_identity"; "digital_presence";
    "innovation_capacity" ].

(** The world after [n] further readings of the clock and [k] further
    identifiers. *)
Definition later (n k : nat) (w : World) : World :=
  mkWorld (clock w) (clock_reads w + n) (uuid w) (uuids_drawn w + k).

(** An entry [c] as [stamp] leaves it, with identifier [i] and date [t]. *)
Definition stamped (dateKey : string) (i : string) (t : nat) (c : value)
  : props :=
  set_prop dateKey (Date t) (set_prop "id" (Str i) (spread c)).

(** A world for the examples: the clock starts at 1000 and advances by one
    at each reading, the identifiers are numbered. *)
Definition world0 : World :=
  mkWorld (fun n => 1000 + n) 0 (fun n => String.append "uuid-" (pretty n)) 0.

(** A registry for the examples: "c1" and "c2" both watch "brandA" over
    open sockets, and [send] throws on the socket of "c1"; "c3" has not
    joined a brand. *)
Definition two_subscribers : Server :=
  mkServer
    [ ("c1", mkClient "c1" (mkSocket OPEN true []) 1000 (Some "brandA")
               Undefined Undefined);
      ("c2", mkClient "c2" (mkSocket OPEN false []) 1001 (Some "brandA")
               Undefined Undefined);
      ("c3", mkClient "c3" (mkSocket OPEN false []) 1002 None
               Undefined Undefined) ]
    ∅ [].

(** The cognitive state a call of [handleCognitiveState] leaves in the
    store for the brand of the request. *)
Definition stored_cognitive (body : CognitiveBody) (srv : Server) (w : World)
  : option CognitiveState :=
  cognitiveState
    <$> brandSessions (handleCognitiveState body srv w).1.2 !! c_brandId body.

(** The cognitive state the serverless route answers with. *)
Definition answered_cognitive (body : Serverless.CognitiveBody) (w : World)
  : option Serverless.CognitiveState :=
  match (Serverless.cognitive_state_route body w).1 with
  | Serverless.status200 cs _ => Some cs
  | Serverless.status400 => None
  end.

End Stmt.

(* ===================================================================== *)
(** ** The server's gateway: messages of a connected client *)
(* ===================================================================== *)

Module Gateway.

Import Js Server.
Local Open Scope world_scope.



Inductive Completion (A : Type) : Type :=
| returned (a : A)
| thrown.
Arguments returned {A}.
Arguments thrown {A}.




End Gateway.

(* ===================================================================== *)
(** ** Vocabulary of the further statements *)
(* ===================================================================== *)

Module Obs.
Import Js Server.

(** A socket that takes a frame: open, and [send] does not throw. *)
Definition accepts (c : Client) : bool :=
  is_OPEN (ws c) && negb (failing (ws c)).

(** The part of an attribute that no handler writes. *)
Definition static (d : Dimension) : string * float * Z * float * float :=
  (name d, depth d, color d, viscosity d, refraction d).

(** The coherence after one more matched signal. *)
Definition clamp (c : float) : float := Math_min (c + 0.05) 1.0.

(** The position of the attribute a signal updates, if any. *)
Definition target (dims : list Dimension) (signal : Signal) : option nat :=
  fst <$> find signal dims.

(** The signals of a batch that update the attribute at position [i]. *)
Definition hits (dims : list Dimension) (i : nat) (signals : list Signal)
  : list Signal :=
  List.filter (fun signal => bool_decide (target dims signal = Some i)) signals.

(** The signals of a batch that update some attribute. *)
Definition matched (dims : list Dimension) (signals : list Signal)
  : list Signal :=
  List.filter (fun signal => bool_decide (is_Some (target dims signal))) signals.

(** What no handler changes in a session. *)
Definition same_identity (s s' : Session) : Prop :=
  session_id s' = session_id s
  ∧ session_name s' = session_name s
  ∧ createdAt s' = createdAt s
  ∧ connections s' = connections s
  ∧ metrics s' = metrics s
  ∧ static <$> dimensions s' = static <$> dimensions s.

(** The brand an event names, if it names one. *)
Definition brand_of (e : Event) : option string :=
  match e with
  | connection _ _ _ | close _ | socket_state _ _ _ => None
  | join_brand _ brand => Some brand
  | post_workshop body => Some (w_brandId body)
  | post_cognitive body => Some (c_brandId body)
  | post_dialogue body => Some (d_brandId body)
  | get_state id => Some id
  end.

End Obs.

(* ===================================================================== *)
(** ** The serverless endpoint: the request handler *)
(* ===================================================================== *)

Module Router.

Import Js Gateway.
Local Open Scope world_scope.

(** *** The path of the request *)

Fixpoint skip (n : nat) (s : string) : string :=
  match n, s with
  | S n, String _ t => skip n t
  | _, _ => s
  end.

(** [s.replace(pattern, '')] with a text pattern: the first occurrence of
    the pattern, wherever it is, is cut out. *)
Fixpoint replace (pattern s : string) : string :=
  if String.prefix pattern s then skip (String.length pattern) s
  else
    match s with
    | EmptyString => EmptyString
    | String c t => String c (replace pattern t)
    end.

(** [s.split('/')] *)
Fixpoint split (s : string) : list string :=
  match s with
  | EmptyString => [EmptyString]
  | String c t =>
      if Ascii.eqb c "/"%char then EmptyString :: split t
      else
        match split t with
        | piece :: pieces => String c piece :: pieces
        | [] => [String c EmptyString]
        end
  end.

(** [url.replace('/api/websocket-server', '').replace('/api/', '')] *)
Definition urlPath (url : string) : string :=
  replace "/api/" (replace "/api/websocket-server" url).

(** [urlPath.split('/').filter(Boolean)] *)
Definition pathParts (url : string) : list string :=
  List.filter (fun part => truthy (Str part)) (split (urlPath url)).

(** [pathParts[i] === text] *)
Definition part_is (part : option string) (text : string) : bool :=
  match part with
  | Some p => String.eqb p text
  | None => false
  end.

(** *** The body of the request *)

(** [body.k] for the property names the handler reads: a property of an
    object, [undefined] on every other value that has properties. *)
Definition field (k : string) (v : value) : value :=
  match v with
  | Obj o => get_prop k o
  | _ => Undefined
  end.

(** [const { ... } = req.body] throws on [undefined] and [null]. *)
Definition nullish (v : value) : bool :=
  match v with
  | Undefined | Null => true
  | _ => false
  end.

(** The default of a destructuring, [signals = []]: it replaces
    [undefined] only. *)
Definition or_empty (v : value) : value :=
  match v with
  | Undefined => Arr []
  | _ => v
  end.

(** [[...v]]: the elements of an array, the characters of a text; the
    other values are not iterable. *)
Definition iterate (v : value) : Completion (list value) :=
  match v with
  | Arr l => returned l
  | Str s => returned (chars s)
  | _ => thrown
  end.

(** *** The session of the workshop route

    The route writes [signal.confidence || 0.5], any value, into the
    [signalStrength] of a dimension of the session it has created. *)
Record Dimension : Type := mkDimension {
  name : string;
  signalStrength : value;
  coherence : float;
  connections : list value
}.

Record Session : Type := mkSession {
  brandId : value;
  created : nat;
  lastUpdate : nat;
  dimensions : list Dimension;
  contradictions : list value;
  gaps : list value;
  cognitiveState : Serverless.CognitiveState;
  dialogue : list Serverless.DialogueEntry
}.

Definition of_dimension (d : Serverless.Dimension) : Dimension :=
  mkDimension (Serverless.name d) (Num (Serverless.signalStrength d))
    (Serverless.coherence d) (Serverless.connections d).

(** The session of [createBrandSession] at the moment the workshop route
    starts to write into it. *)
Definition of_session (s : Serverless.Session) : Session :=
  mkSession (Serverless.brandId s) (Serverless.created s)
    (Serverless.lastUpdate s) (of_dimension <$> Serverless.dimensions s)
    (Serverless.contradictions s) (Serverless.gaps s)
    (Serverless.cognitiveState s) (Serverless.dialogue s).

(** [d.name === signal.category ||
     d.name.includes(signal.category?.toLowerCase())]: reading a property
    of [undefined] or [null] throws, and so does the call of
    [toLowerCase] on a category that is neither a text nor [undefined]
    nor [null]. *)
Definition matches (signal : value) (d : Dimension) : Completion bool :=
  if nullish signal then thrown
  else
    match field "category" signal with
    | Str c =>
        returned (String.eqb (name d) c || includes (name d) (toLowerCase c))
    | Undefined | Null => returned (includes (name d) "undefined")
    | _ => thrown
    end.

(** [session.dimensions.find(...)], as the position of the dimension. *)
Fixpoint find_from (i : nat) (signal : value) (dims : list Dimension)
  : Completion (option nat) :=
  match dims with
  | [] => returned None
  | d :: rest =>
      match matches signal d with
      | thrown => thrown
      | returned true => returned (Some i)
      | returned false => find_from (S i) signal rest
      end
  end.

Definition find (signal : value) (dims : list Dimension)
  : Completion (option nat) :=
  find_from 0 signal dims.

(** [dimension.signalStrength = signal.confidence || 0.5;
     dimension.coherence = Math.min(dimension.coherence + 0.05, 1.0)] *)
Definition touch (signal : value) (d : Dimension) : Dimension :=
  mkDimension (name d)
    (or_else (field "confidence" signal) (Num 0.5))
    (Math_min (coherence d + 0.05) 1.0)
    (connections d).

(** The callback of [signals.forEach]. *)
Definition applySignal (signal : value) (dims : list Dimension)
  : Completion (list Dimension) :=
  match find signal dims with
  | thrown => thrown
  | returned None => returned dims
  | returned (Some i) => returned (alter (touch signal) i dims)
  end.

Fixpoint forEach (signals : list value) (dims : list Dimension)
  : Completion (list Dimension) :=
  match signals with
  | [] => returned dims
  | signal :: rest =>
      match applySignal signal dims with
      | thrown => thrown
      | returned dims => forEach rest dims
      end
  end.

(** [signals.forEach(...)]: only an array has the method. *)
Definition processSignals (signals : value) (dims : list Dimension)
  : Completion (list Dimension) :=
  match signals with
  | Arr l => forEach l dims
  | _ => thrown
  end.

(** *** Responses *)

Inductive Response : Type :=
| preflight                                      (* [res.status(200).end()] *)
| brand_state (brand : value) (state : Serverless.Session)
| workshop_processed (brand : value) (updatedState : Session)
| cognitive_updated (brand : value) (cs : Serverless.CognitiveState)
| dialogue_added (brand : value) (entry : Serverless.DialogueEntry)
| brand_required                                 (* 'Brand ID is required' *)
| not_found                                      (* 'Endpoint not found' *)
| internal_error.                                (* 'Internal server error' *)

Definition status (r : Response) : nat :=
  match r with
  | preflight | brand_state _ _ | workshop_processed _ _
  | cognitive_updated _ _ | dialogue_added _ _ => 200
  | brand_required => 400
  | not_found => 404
  | internal_error => 500
  end.

Record Request : Type := mkRequest {
  method : string;
  url : string;
  body : value
}.

(** *** The routes *)

(** GET /api/brand/:brandId/state *)
Definition brand_route (parts : list string) : W Response :=
  let brand :=
    or_else (from_option Str Undefined (parts !! 1)) (Str "demo-brand") in
  let* session := Serverless.createBrandSession brand in
  ret (brand_state brand session).

(** POST /api/workshop/process *)
Definition workshop_route (body : value) : W Response :=
  if nullish body then ret internal_error
  else
    let brand := field "brandId" body in
    let signals := or_empty (field "signals" body) in
    let contradictions := or_empty (field "contradictions" body) in
    let gaps := or_empty (field "gaps" body) in
    if negb (truthy brand) then ret brand_required
    else
      let* session := Serverless.createBrandSession brand in
      let session := of_session session in
      match processSignals signals (dimensions session) with
      | thrown => ret internal_error
      | returned dims =>
          match iterate contradictions with
          | thrown => ret internal_error
          | returned cs =>
              match iterate gaps with
              | thrown => ret internal_error
              | returned gs =>
                  let* now := new_Date in
                  ret (workshop_processed brand
                         (mkSession (Router.brandId session) (created session)
                            now dims
                            (Router.contradictions session ++ cs)
                            (Router.gaps session ++ gs)
                            (cognitiveState session) (dialogue session)))
              end
          end
      end.

(** POST /api/ai/cognitive-state *)
Definition cognitive_route (body : value) : W Response :=
  if nullish body then ret internal_error
  else
    let brand := field "brandId" body in
    let* outcome :=
      Serverless.cognitive_state_route
        (Serverless.mkCognitiveBody brand (field "analytical" body)
           (field "intuitive" body) (field "efficiency" body)
           (field "context" body)) in
    ret match outcome with
        | Serverless.status400 => brand_required
        | Serverless.status200 cs _ => cognitive_updated brand cs
        end.

(** POST /api/refinement/dialogue *)
Definition dialogue_route (body : value) : W Response :=
  if nullish body then ret internal_error
  else
    let brand := field "brandId" body in
    let* outcome :=
      Serverless.dialogue_route
        (Serverless.mkDialogueBody brand (field "speaker" body)
           (field "message" body) (field "messageType" body)) in
    ret match outcome with
        | Serverless.status400 => brand_required
        | Serverless.status200 entry _ => dialogue_added brand entry
        end.

(** The four [if (pathParts[0] === ...)] blocks, in their order: each
    answers when its inner condition holds and falls through to the next
    block otherwise. *)
Definition routes (req : Request) (parts : list string)
  : list (option (W Response)) :=
  [ if part_is (parts !! 0) "brand" then
      if String.eqb (method req) "GET" && part_is (parts !! 2) "state"
      then Some (brand_route parts) else None
    else None;
    if part_is (parts !! 0) "workshop" then
      if String.eqb (method req) "POST" && part_is (parts !! 1) "process"
      then Some (workshop_route (body req)) else None
    else None;
    if part_is (parts !! 0) "ai" then
      if String.eqb (method req) "POST" && part_is (parts !! 1) "cognitive-state"
      then Some (cognitive_route (body req)) else None
    else None;
    if part_is (parts !! 0) "refinement" then
      if String.eqb (method req) "POST" && part_is (parts !! 1) "dialogue"
      then Some (dialogue_route (body req)) else None
    else None ].

(** [module.exports = async (req, res) => ...]; the CORS headers, the
    same on every response, are left out. *)
Definition handler (req : Request) : W Response :=
  if String.eqb (method req) "OPTIONS" then ret preflight
  else
    match omap id (routes req (pathParts (url req))) with
    | route :: _ => route
    | [] => ret not_found
    end.

End Router.

(* ===================================================================== *)
(** ** Vocabulary of the statements about the request handler *)
(* ===================================================================== *)

Module Shape.

Import Js Gateway Router.

(** The request is a POST whose path starts with the two given parts. *)
Definition posts_to (req : Request) (first second : string) : Prop :=
  method req = "POST"
  ∧ pathParts (url req) !! 0 = Some first
  ∧ pathParts (url req) !! 1 = Some second.

(** The request is a GET whose path has "brand" as first and "state" as
    third part. *)
Definition gets_brand_state (req : Request) : Prop :=
  method req = "GET"
  ∧ pathParts (url req) !! 0 = Some "brand"
  ∧ pathParts (url req) !! 2 = Some "state".

(** A signal the workshop route cannot read: [undefined], [null], or a
    value whose [category] is neither a text nor [undefined] nor [null]. *)
Definition malformed (signal : value) : bool :=
  nullish signal
  || match field "category" signal with
     | Str _ | Undefined | Null => false
     | _ => true
     end.

Definition iterable (v : value) : bool :=
  match iterate v with
  | returned _ => true
  | thrown => false
  end.

(** The lists of a workshop body are readable: [signals] is left out or
    is an array without malformed signals, and [contradictions] and
    [gaps] are left out or are arrays or texts. *)
Definition well_formed (body : value) : bool :=
  match or_empty (field "signals" body) with
  | Arr l => forallb (fun signal => negb (malformed signal)) l
  | _ => false
  end
  && iterable (or_empty (field "contradictions" body))
  && iterable (or_empty (field "gaps" body)).

(** The names of the dimensions of a session of the endpoint. *)
Definition fresh_names : list string :=
  [ "market_position"; "value_proposition"; "emotional_landscape";
    "brand_narrative"; "target_audience"; "competitive_differentiation" ].

(** A dimension with a coherence of at most one and a truthy signal
    strength. *)
Definition sound (d : Dimension) : Prop :=
  PrimFloat.leb (coherence d) 1 = true ∧ truthy (signalStrength d) = true.

End Shape.

(* ===================================================================== *)
(** ** Facts about binary64 numbers *)
(* ===================================================================== *)

Section FloatFacts.

Lemma SFcompare_refl (x : spec_float) :
  x ≠ S754_nan → SFcompare x x = Some Eq.
Proof.
  destruct x as [s| s | |s m e]; simpl; try done; try (by destruct s).
  intros _. destruct s; rewrite Z.compare_refl, ?Pos.compare_cont_refl; done.
Qed.

Lemma SFcompare_total (x y : spec_float) :
  x ≠ S754_nan → y ≠ S754_nan → SFcompare x y ≠ None.
Proof.
  destruct x as [s| s | |s m e], y as [s'|s'| |s' m' e']; simpl; try done;
    repeat case_match; done.
Qed.

Lemma SFcompare_Some (x y : spec_float) c :
  SFcompare x y = Some c → x ≠ S754_nan ∧ y ≠ S754_nan.
Proof. destruct x, y; simpl; done. Qed.

Lemma SFcompare_swap (x y : spec_float) :
  SFcompare y x = CompOpp <$> SFcompare x y.
Proof.
  destruct x as [sx|sx| |sx mx ex], y as [sy|sy| |sy my ey]; simpl; try done;
    try (by destruct sx); try (by destruct sy); try (by destruct sx, sy).
  destruct sx, sy; simpl; try done;
    rewrite (Z.compare_antisym ex ey); destruct (ex ?= ey)%Z; simpl; try done;
    change Eq with (CompOpp Eq) at 1;
    rewrite <- (Pos.compare_cont_antisym mx my Eq);
    by rewrite ?CompOpp_involutive.
Qed.

Lemma is_nan_false (x : float) :
  PrimFloat.is_nan x = false ↔ Prim2SF x ≠ S754_nan.
Proof.
  unfold PrimFloat.is_nan. rewrite FloatAxioms.eqb_spec. unfold SFeqb. split.
  - intros H Hn. rewrite Hn in H. done.
  - intros H. rewrite (SFcompare_refl _ H). done.
Qed.

(** Rounding a non-negative mantissa never yields [NaN]. *)
Lemma shr_1_nonneg mrs : (0 ≤ shr_m mrs)%Z → (0 ≤ shr_m (shr_1 mrs))%Z.
Proof. destruct mrs as [[|[p|p|]|p] r s]; simpl; lia. Qed.

Lemma iter_shr_1_nonneg p mrs :
  (0 ≤ shr_m mrs)%Z → (0 ≤ shr_m (SpecFloat.iter_pos shr_1 p mrs))%Z.
Proof.
  revert mrs. induction p as [p IH|p IH|]; intros mrs H; simpl.
  - apply IH, IH, shr_1_nonneg, H.
  - apply IH, IH, H.
  - apply shr_1_nonneg, H.
Qed.

Lemma shr_fexp_nonneg m e l :
  (0 ≤ m)%Z → (0 ≤ shr_m (shr_fexp prec emax m e l).1)%Z.
Proof.
  intros H. unfold shr_fexp, shr.
  assert (shr_m (shr_record_of_loc m l) = m) as Hm by (by destruct l as [|[]]).
  rewrite <- Hm in H.
  destruct (fexp prec emax (Zdigits2 m + e) - e)%Z; cbn [fst]; try done.
  by apply iter_shr_1_nonneg.
Qed.

Lemma round_nearest_even_nonneg m l :
  (0 ≤ m)%Z → (0 ≤ round_nearest_even m l)%Z.
Proof. destruct l as [|[]]; simpl; try case_match; lia. Qed.

Lemma binary_round_aux_not_nan s m e l :
  (0 ≤ m)%Z → binary_round_aux prec emax s m e l ≠ S754_nan.
Proof.
  intros H. unfold binary_round_aux.
  pose proof (shr_fexp_nonneg m e l H) as H1.
  destruct (shr_fexp prec emax m e l) as [mrs' e'] eqn:E1. cbn [fst] in H1.
  pose proof (shr_fexp_nonneg _ e' loc_Exact
                (round_nearest_even_nonneg _ (loc_of_shr_record mrs') H1))
    as H2.
  destruct (shr_fexp prec emax (round_nearest_even _ _) e' loc_Exact)
    as [mrs'' e''] eqn:E2. cbn [fst] in H2.
  destruct (shr_m mrs''); try done; try lia. by case_match.
Qed.

Lemma binary_normalize_not_nan m e s :
  binary_normalize prec emax m e s ≠ S754_nan.
Proof.
  unfold binary_normalize, binary_round. destruct m; try done;
    destruct (shl_align _ _ _); by apply binary_round_aux_not_nan.
Qed.

Lemma SFadd_finite_not_nan x s m e :
  x ≠ S754_nan → SFadd prec emax x (S754_finite s m e) ≠ S754_nan.
Proof.
  intros H. destruct x as [sx|sx| |sx mx ex]; simpl; try done.
  apply binary_normalize_not_nan.
Qed.

(** [c + 0.05] is a number whenever [c] is. *)
Lemma add_0_05_not_nan (x : float) :
  PrimFloat.is_nan x = false → PrimFloat.is_nan (x + 0.05) = false.
Proof.
  rewrite !is_nan_false, add_spec. intros H.
  let v := eval vm_compute in (Prim2SF 0.05) in change (Prim2SF 0.05) with v.
  by apply SFadd_finite_not_nan.
Qed.

Lemma leb_not_nan (x y : float) :
  PrimFloat.leb x y = true → PrimFloat.is_nan x = false.
Proof.
  rewrite leb_spec, is_nan_false. unfold SFleb.
  destruct (SFcompare _ _) eqn:E; [|done]. intros _.
  by destruct (SFcompare_Some _ _ _ E).
Qed.

(** [Math.min(x, 1.0)] is at most [1.0] for every number [x]. *)
Lemma Math_min_le_1 (x : float) :
  PrimFloat.is_nan x = false → PrimFloat.leb (Js.Math_min x 1) 1 = true.
Proof.
  intros Hx. unfold Js.Math_min. rewrite Hx. simpl.
  destruct (PrimFloat.ltb x 1) eqn:E1.
  { rewrite leb_spec. rewrite ltb_spec in E1. unfold SFleb, SFltb in *.
    by destruct (SFcompare _ _) as [[]|]. }
  destruct (PrimFloat.ltb 1 x) eqn:E2; [done|].
  assert (PrimFloat.leb x 1 = true) as Hle.
  { rewrite leb_spec. rewrite ltb_spec in E1, E2. unfold SFleb, SFltb in *.
    apply is_nan_false in Hx.
    rewrite (SFcompare_swap (Prim2SF x) (Prim2SF 1)) in E2.
    pose proof (SFcompare_total (Prim2SF x) (Prim2SF 1) Hx) as Ht.
    destruct (SFcompare (Prim2SF x) (Prim2SF 1)) as [[]|]; simpl in *;
      try done.
    exfalso. by apply Ht. }
  by rewrite andb_false_r.
Qed.

(** A number equal to zero is not [0.7], [0.75] or [0.5]. *)
Lemma zero_not (z c : float) :
  PrimFloat.is_zero z = true → PrimFloat.is_zero c = false → Js.Num c ≠ Js.Num z.
Proof. intros Hz Hc [= ->]. congruence. Qed.

End FloatFacts.

(* ===================================================================== *)
(** ** The connection registry and the broadcast *)
(* ===================================================================== *)

Section Registry.
Import Js Server.

Context {V : Type}.
Implicit Types (m : list (string * V)) (k : string) (v : V).

Lemma Map_get_set_eq k v m : Map_get k (Map_set k v m) = Some v.
Proof.
  induction m as [|[k' v'] m IH]; simpl.
  - by rewrite String.eqb_refl.
  - destruct (String.eqb k' k) eqn:E; simpl; by rewrite E.
Qed.


Lemma Map_set_keys k v m :
  is_Some (Map_get k m) → (Map_set k v m).*1 = m.*1.
Proof.
  induction m as [|[k0 v0] m IH]; simpl; [by intros [? [=]]|].
  destruct (String.eqb k0 k) eqn:E; simpl; [done|].
  intros H. f_equal. by apply IH.
Qed.

Lemma Map_get_middle k v (before after : list (string * V)) :
  k ∉ before.*1 → Map_get k (before ++ (k, v) :: after) = Some v.
Proof.
  induction before as [|[k0 v0] before IH]; simpl; intros Hk.
  - by rewrite String.eqb_refl.
  - apply not_elem_of_cons in Hk as [Hne Hk].
    assert (String.eqb k0 k = false) as -> by (by apply String.eqb_neq).
    by apply IH.
Qed.

Lemma Map_set_middle k v v' (before after : list (string * V)) :
  k ∉ before.*1 →
  Map_set k v' (before ++ (k, v) :: after) = before ++ (k, v') :: after.
Proof.
  induction before as [|[k0 v0] before IH]; simpl; intros Hk.
  - by rewrite String.eqb_refl.
  - apply not_elem_of_cons in Hk as [Hne Hk].
    assert (String.eqb k0 k = false) as -> by (by apply String.eqb_neq).
    by rewrite IH.
Qed.

Lemma Map_get_elem_of k v m :
  NoDup m.*1 → (k, v) ∈ m → Map_get k m = Some v.
Proof.
  intros Hnd Hin. apply list_elem_of_split in Hin as (before & after & ->).
  apply Map_get_middle.
  rewrite fmap_app, fmap_cons in Hnd. apply NoDup_app in Hnd as (_ & Hd & _).
  intros Hk. apply (Hd _ Hk). simpl. left.
Qed.

Lemma Map_get_Some_elem_of k v m : Map_get k m = Some v → (k, v) ∈ m.
Proof.
  induction m as [|[k0 v0] m IH]; simpl; [done|].
  destruct (String.eqb k0 k) eqn:E.
  - apply String.eqb_eq in E as ->. intros [= ->]. left.
  - intros H. right. by apply IH.
Qed.

Lemma Map_get_fmap (f : V → V) k m :
  Map_get k (prod_map id f <$> m) = f <$> Map_get k m.
Proof.
  induction m as [|[k0 v0] m IH]; simpl; [done|].
  by destruct (String.eqb k0 k).
Qed.

End Registry.

Section Broadcast.
Import Js Server Stmt.

Lemma sendToClient_brandSessions k m srv :
  brandSessions (sendToClient k m srv) = brandSessions srv.
Proof. unfold sendToClient. by repeat case_match. Qed.

Lemma broadcastToBrand_brandSessions brand m srv :
  brandSessions (broadcastToBrand brand m srv) = brandSessions srv.
Proof.
  unfold broadcastToBrand. generalize (clients srv) as todo.
  intros todo. revert srv. induction todo as [|[k c] todo IH]; intros srv.
  - done.
  - simpl. destruct (watches brand c && is_OPEN (ws c)); rewrite IH;
      [apply sendToClient_brandSessions|done].
Qed.

Lemma broadcastToBrand_clients_from brand m todo :
  ∀ before acc,
    clients acc = before ++ todo →
    NoDup (before ++ todo).*1 →
    clients (foldl (fun acc '(clientId, client) =>
                      if watches brand client && is_OPEN (ws client)
                      then sendToClient clientId m acc else acc) acc todo)
    = before ++ (prod_map id (delivered brand m) <$> todo).
Proof.
  induction todo as [|[k c] todo IH]; intros before acc Hacc Hnd.
  - simpl. by rewrite Hacc.
  - cbn [foldl fmap list_fmap].
    assert (k ∉ before.*1) as Hk.
    { rewrite fmap_app, fmap_cons in Hnd.
      apply NoDup_app in Hnd as (_ & Hd & _).
      intros Hk. apply (Hd _ Hk). left. }
    replace (before ++ prod_map id (delivered brand m) (k, c)
               :: (prod_map id (delivered brand m) <$> todo))
      with ((before ++ [(k, delivered brand m c)])
              ++ (prod_map id (delivered brand m) <$> todo))
      by (by rewrite <- app_assoc).
    apply IH.
    + unfold delivered.
      destruct (watches brand c && is_OPEN (ws c)) eqn:E; simpl.
      * apply andb_true_iff in E as [_ Ho].
        unfold sendToClient. rewrite Hacc, (Map_get_middle _ _ _ _ Hk), Ho.
        destruct (failing (ws c)); simpl.
        -- by rewrite Hacc, <- app_assoc.
        -- by rewrite (Map_set_middle _ _ _ _ _ Hk), <- app_assoc.
      * by rewrite Hacc, <- app_assoc.
    + rewrite <- app_assoc. simpl.
      replace (((before ++ (k, delivered brand m c) :: todo)).*1)
        with ((before ++ (k, c) :: todo).*1); [done|].
      by rewrite !fmap_app, !fmap_cons.
Qed.

(** The registry after a broadcast. *)
Lemma broadcastToBrand_clients brand m srv :
  NoDup (clients srv).*1 →
  clients (broadcastToBrand brand m srv)
  = prod_map id (delivered brand m) <$> clients srv.
Proof.
  intros Hnd.
  apply (broadcastToBrand_clients_from brand m (clients srv) [] srv); done.
Qed.

Lemma broadcastToBrand_received brand m srv k c :
  NoDup (clients srv).*1 →
  Map_get k (clients srv) = Some c →
  received k (broadcastToBrand brand m srv)
  = if watches brand c && is_OPEN (ws c) && negb (failing (ws c))
    then outbox (ws c) ++ [m] else outbox (ws c).
Proof.
  intros Hnd Hk. unfold received.
  rewrite (broadcastToBrand_clients _ _ _ Hnd), Map_get_fmap, Hk. simpl.
  unfold delivered. by case_match.
Qed.

End Broadcast.

(* ===================================================================== *)
(** ** The session store *)
(* ===================================================================== *)

Section Store.
Import Js Server Stmt.

Lemma later_0 w : later 0 0 w = w.
Proof. destruct w. unfold later. simpl. by rewrite !Nat.add_0_r. Qed.

Lemma new_Date_eq w : new_Date w = (clock w (clock_reads w), later 1 0 w).
Proof.
  unfold new_Date, later. by rewrite Nat.add_0_r, Nat.add_1_r.
Qed.

Lemma uuidv4_eq w : uuidv4 w = (uuid w (uuids_drawn w), later 0 1 w).
Proof.
  unfold uuidv4, later. by rewrite Nat.add_0_r, Nat.add_1_r.
Qed.

Lemma later_later n k n' k' w :
  later n' k' (later n k w) = later (n + n') (k + k') w.
Proof. unfold later. simpl. by rewrite !Nat.add_assoc. Qed.

Lemma generateInitialDimensions_names w :
  name <$> (generateInitialDimensions w).1 = default_names.
Proof. reflexivity. Qed.


Lemma createBrandSession_spec brand srv w :
  ∃ session w',
    createBrandSession brand srv w
    = (session, set_brandSessions (<[brand := session]> (brandSessions srv)) srv, w')
    ∧ session_id session = brand
    ∧ name <$> dimensions session = default_names
    ∧ (∃ w1, dimensions session = (generateInitialDimensions w1).1)
    ∧ connections session = generateInitialConnections
    ∧ contradictions session = [] ∧ gaps session = [].
Proof.
  unfold createBrandSession, bind, ret.
  destruct (new_Date w) as [t w1].
  pose proof (generateInitialDimensions_names w1) as Hn.
  assert (∃ w0, (generateInitialDimensions w1).1
                = (generateInitialDimensions w0).1) as Hd by (by exists w1).
  destruct (generateInitialDimensions w1) as [dims w2]. simpl in *.
  eexists _, _. split; [reflexivity|]. simpl. done.
Qed.

Lemma getOrCreate_stored brand srv w :
  ∃ session srv1 w1,
    getOrCreate brand srv w = (session, srv1, w1)
    ∧ brandSessions srv1 !! brand = Some session
    ∧ clients srv1 = clients srv
    ∧ (∀ other, other ≠ brand →
         brandSessions srv1 !! other = brandSessions srv !! other)
    ∧ (∀ old, brandSessions srv !! brand = Some old →
         session = old ∧ srv1 = srv ∧ w1 = w).
Proof.
  unfold getOrCreate. destruct (brandSessions srv !! brand) as [s|] eqn:E.
  - exists s, srv, w. unfold ret. repeat split; try done; congruence.
  - destruct (createBrandSession_spec brand srv w) as (s & w' & -> & _).
    exists s, (set_brandSessions (<[brand := s]> (brandSessions srv)) srv), w'.
    simpl. repeat split; try done.
    + apply lookup_insert_eq.
    + intros other Hne. by apply lookup_insert_ne.
Qed.

End Store.

(** C7.  For every session id, [getOrCreate] (the lookup
    [brandSessions.get(id) || createBrandSession(id)] of [getBrandState]
    and of the handlers) always returns a session; after it the session is
    in the store under that id; a second lookup, and a second
    [getBrandState], return that same stored session and create nothing
    (store and world are left as they are); and a session created by the
    first lookup carries the seven default attributes. *)
Theorem getOrCreate_idempotent (id : string) (srv : Server.Server) (w : World) :
  ∃ session srv1 w1,
    Server.getOrCreate id srv w = (session, srv1, w1)
    ∧ Server.brandSessions srv1 !! id = Some session
    ∧ Server.getOrCreate id srv1 w1 = (session, srv1, w1)
    ∧ Server.getBrandState id srv1 w1 = (Server.json_session session, srv1, w1)
    ∧ (Server.brandSessions srv !! id = None →
         Server.session_id session = id
         ∧ Server.dimensions session ≠ []
         ∧ Server.name <$> Server.dimensions session = Stmt.default_names).
Proof.
  destruct (getOrCreate_stored id srv w) as (s & srv1 & w1 & E & Hin & _ & _ & _).
  exists s, srv1, w1.
  assert (Server.getOrCreate id srv1 w1 = (s, srv1, w1)) as E2.
  { unfold Server.getOrCreate. by rewrite Hin. }
  split; [done|]. split; [done|]. split; [done|]. split.
  { unfold Server.getBrandState, bind. by rewrite E2. }
  intros Hnone. unfold Server.getOrCreate in E. rewrite Hnone in E.
  destruct (createBrandSession_spec id srv w) as (s' & w' & E' & Hid & Hnames & _).
  rewrite E' in E. injection E as <- _ _.
  split; [done|]. split; [|done].
  intros Hnil. by rewrite Hnil in Hnames.
Qed.

Lemma getOrCreate_idempotent_witness :
  ∃ session,
    Server.brandSessions
      (Server.getOrCreate "demo" Server.constructor Stmt.world0).1.2 !! "demo"
    = Some session
    ∧ Server.dimensions session ≠ [].
Proof.
  destruct (getOrCreate_idempotent "demo" Server.constructor Stmt.world0)
    as (s & srv1 & w1 & E & Hin & _ & _ & Hnew).
  exists s. rewrite E. split; [exact Hin|].
  apply Hnew. reflexivity.
Defined.

(* ===================================================================== *)
(** ** Signals *)
(* ===================================================================== *)

Section Signals.
Import Js Server Stmt.

Lemma find_from_Some k signal dims i d :
  find_from k signal dims = Some (i, d) ↔
  ∃ j, i = k + j ∧ dims !! j = Some d ∧ matchesSignal signal d = true
       ∧ ∀ j' e, j' < j → dims !! j' = Some e → matchesSignal signal e = false.
Proof.
  revert k. induction dims as [|d0 dims IH]; intros k; simpl.
  - split; [done|]. by intros (j & _ & ? & _).
  - destruct (matchesSignal signal d0) eqn:E.
    + split.
      * intros [= <- <-]. exists 0. rewrite Nat.add_0_r.
        repeat split; try done. intros j' e Hj. lia.
      * intros (j & -> & Hj & Hm & Hfirst). destruct j as [|j].
        -- simpl in Hj. injection Hj as <-. by rewrite Nat.add_0_r.
        -- specialize (Hfirst 0 d0 ltac:(lia) eq_refl). congruence.
    + rewrite IH. split.
      * intros (j & -> & Hj & Hm & Hfirst). exists (S j).
        split; [lia|]. repeat split; try done.
        intros [|j'] e Hlt He; simpl in He.
        -- by injection He as <-.
        -- apply (Hfirst j' e); [lia|done].
      * intros (j & -> & Hj & Hm & Hfirst). destruct j as [|j].
        -- simpl in Hj. injection Hj as <-. congruence.
        -- exists j. split; [lia|]. repeat split; try done.
           intros j' e Hlt He. apply (Hfirst (S j') e); [lia|done].
Qed.

Lemma find_Some signal dims i d :
  find signal dims = Some (i, d) ↔
  dims !! i = Some d ∧ matchesSignal signal d = true
  ∧ ∀ j e, j < i → dims !! j = Some e → matchesSignal signal e = false.
Proof.
  unfold find. rewrite find_from_Some. split.
  - intros (j & -> & H). exact H.
  - intros H. exists i. split; [done|exact H].
Qed.



Lemma applySignal_names signal dims w :
  name <$> (applySignal signal dims w).1 = name <$> dims.
Proof.
  unfold applySignal.
  destruct (find signal dims) as [[i d]|] eqn:E; [|done].
  apply find_Some in E as (Hi & _ & _).
  unfold bind, ret. destruct (new_Date w) as [now w']. simpl.
  rewrite list_fmap_insert. simpl.
  apply list_insert_id. by rewrite list_lookup_fmap, Hi.
Qed.



End Signals.

(* ===================================================================== *)
(** ** Invariants of the attribute lists *)
(* ===================================================================== *)

(** A property of attribute lists that holds for the initial attributes
    and survives [applySignal] holds in every session the server stores,
    whatever reaches the server. *)
Section Invariant.
Import Js Server Stmt.

Variable P : list Dimension → Prop.
Hypothesis P_initial : ∀ w, P (generateInitialDimensions w).1.
Hypothesis P_applySignal :
  ∀ signal dims w, P dims → P (applySignal signal dims w).1.

Lemma foldW_applySignal_invariant signals dims w :
  P dims → P (foldW applySignal signals dims w).1.
Proof using P_applySignal.
  revert dims w. induction signals as [|signal signals IH]; intros dims w H.
  - done.
  - simpl. unfold bind.
    pose proof (P_applySignal signal dims w H) as H1.
    destruct (applySignal signal dims w) as [dims1 w1]. by apply IH.
Qed.










End Invariant.

Section Reachable.
Import Js Server Stmt.


End Reachable.


Section FirstMatch.
Import Js Server Stmt.





End FirstMatch.



(** The scenario of the "demo" session: a signal for "market_position"
    of confidence [0.92] sets the signal strength to [0.92] and raises the
    coherence from [0.92] by [0.05]; two more signals bring it to [1.0],
    where it stays. *)
Example demo_market_position :
  let signal := Server.mkSignal (Some "market_position") (Js.Num 0.92) in
  let body n :=
    Server.mkWorkshopBody "demo" (Some (replicate n signal)) (Some []) (Some []) in
  let market n :=
    head (Server.dimensions
            (Server.getOrCreate "demo"
               (Server.handleWorkshopData (body n) Server.constructor
                  Stmt.world0).1.2 Stmt.world0).1.1) in
  Server.signalStrength <$> market 1 = Some (Js.Num 0.92)
  ∧ Server.coherence <$> market 1 = Some (0.92 + 0.05)%float
  ∧ Server.coherence <$> market 3 = Some 1%float
  ∧ Server.coherence <$> market 7 = Some 1%float.
Proof. repeat split; vm_compute; reflexivity. Qed.

(** The category is lower-cased before the containment test, the names
    are not; a missing category is searched as the text "undefined". *)
Example matching_examples :
  let dims := (Server.generateInitialDimensions Stmt.world0).1 in
  let found category :=
    (fun '(i, d) => (i, Server.name d))
      <$> Server.find (Server.mkSignal category Js.Undefined) dims in
  found (Some "NARRATIVE") = Some (2, "brand_narrative")
  ∧ found (Some "position") = Some (0, "market_position")
  ∧ found (Some "") = Some (0, "market_position")
  ∧ found (Some "pricing") = None
  ∧ found None = None.
Proof. repeat split. Qed.


(* ===================================================================== *)
(** ** Contradictions and gaps *)
(* ===================================================================== *)

Section Batches.
Import Js Server Stmt.

Lemma get_set_prop_eq k v o : get_prop k (set_prop k v o) = v.
Proof.
  induction o as [|[k' v'] o IH]; simpl.
  - by rewrite String.eqb_refl.
  - destruct (String.eqb k' k) eqn:E; simpl; by rewrite E.
Qed.

Lemma get_set_prop_ne k k' v o :
  k ≠ k' → get_prop k' (set_prop k v o) = get_prop k' o.
Proof.
  intros Hne. induction o as [|[k0 v0] o IH]; simpl.
  - by apply String.eqb_neq in Hne as ->.
  - destruct (String.eqb k0 k) eqn:E; simpl; [|by rewrite IH].
    apply String.eqb_eq in E as ->.
    by apply String.eqb_neq in Hne as ->.
Qed.

Lemma stamped_id dateKey i t c :
  dateKey ≠ "id" → get_prop "id" (stamped dateKey i t c) = Str i.
Proof.
  intros Hne. unfold stamped.
  by rewrite get_set_prop_ne, get_set_prop_eq.
Qed.

Lemma stamped_date dateKey i t c :
  get_prop dateKey (stamped dateKey i t c) = Date t.
Proof. unfold stamped. by rewrite get_set_prop_eq. Qed.

Lemma stamp_eq dateKey c w :
  stamp dateKey c w
  = (stamped dateKey (uuid w (uuids_drawn w)) (clock w (clock_reads w)) c,
     later 1 1 w).
Proof.
  unfold stamp, bind, ret. rewrite uuidv4_eq, new_Date_eq. simpl.
  unfold later. simpl. by rewrite !Nat.add_0_r.
Qed.

(** A batch is stamped entry by entry: the [i]-th entry gets the [i]-th
    next identifier and the [i]-th next reading of the clock. *)
Lemma mapW_stamp dateKey l w :
  mapW (stamp dateKey) l w
  = (imap (fun i c =>
             stamped dateKey (uuid w (uuids_drawn w + i))
               (clock w (clock_reads w + i)) c) l,
     later (length l) (length l) w).
Proof.
  revert w. induction l as [|c l IH]; intros w.
  - simpl. unfold ret. by rewrite later_0.
  - cbn [mapW]. unfold bind, ret. rewrite stamp_eq, IH, later_later.
    cbn [imap length]. rewrite !Nat.add_0_r. f_equal. f_equal.
    apply imap_ext. intros i x _. simpl.
    by rewrite <- !Nat.add_assoc.
Qed.

Lemma applySignal_world signal dims w :
  ∃ n, (applySignal signal dims w).2 = later n 0 w.
Proof.
  unfold applySignal. destruct (find signal dims) as [[i d]|].
  - exists 1. unfold bind, ret. by rewrite new_Date_eq.
  - exists 0. unfold ret. by rewrite later_0.
Qed.

Lemma foldW_applySignal_world signals dims w :
  ∃ n, (foldW applySignal signals dims w).2 = later n 0 w.
Proof.
  revert dims w. induction signals as [|signal signals IH]; intros dims w.
  - exists 0. simpl. unfold ret. by rewrite later_0.
  - simpl. unfold bind.
    destruct (applySignal_world signal dims w) as [n Hn].
    destruct (applySignal signal dims w) as [dims1 w1]. simpl in Hn. subst w1.
    destruct (IH dims1 (later n 0 w)) as [n' Hn'].
    exists (n + n'). by rewrite Hn', later_later.
Qed.

(** Signals change the attributes only, and read only the clock. *)
Lemma processSignals_frame signals s w :
  ∃ dims n,
    processSignals signals s w = (set_dimensions dims s, later n 0 w).
Proof.
  unfold processSignals. destruct (non_empty signals).
  - unfold bind, ret.
    destruct (foldW_applySignal_world (items signals) (dimensions s) w)
      as [n Hn].
    destruct (foldW applySignal (items signals) (dimensions s) w) as [dims w1].
    simpl in Hn. subst w1. by exists dims, n.
  - exists (dimensions s), 0. unfold ret. rewrite later_0. by destruct s.
Qed.

Lemma processContradictions_batch l s w :
  l ≠ [] →
  processContradictions (Some l) s w
  = (set_contradictions
       (imap (fun i c =>
                stamped "detected" (uuid w (uuids_drawn w + i))
                  (clock w (clock_reads w + i)) c) l) s,
     later (length l) (length l) w).
Proof.
  intros Hl. unfold processContradictions.
  destruct l as [|c l]; [done|]. cbn [non_empty items].
  unfold bind, ret. by rewrite mapW_stamp.
Qed.

Lemma processGaps_batch l s w :
  l ≠ [] →
  processGaps (Some l) s w
  = (set_gaps
       (imap (fun i c =>
                stamped "identified" (uuid w (uuids_drawn w + i))
                  (clock w (clock_reads w + i)) c) l) s,
     later (length l) (length l) w).
Proof.
  intros Hl. unfold processGaps.
  destruct l as [|c l]; [done|]. cbn [non_empty items].
  unfold bind, ret. by rewrite mapW_stamp.
Qed.

(** A missing or empty batch: the branch is not taken. *)
Lemma processContradictions_skip cs s w :
  non_empty cs = false → processContradictions cs s w = (s, w).
Proof. intros H. unfold processContradictions. by rewrite H. Qed.

Lemma processGaps_skip gs s w :
  non_empty gs = false → processGaps gs s w = (s, w).
Proof. intros H. unfold processGaps. by rewrite H. Qed.

(** One batch stamps [count] entries when it is taken. *)
Lemma processContradictions_world cs s w :
  (processContradictions cs s w).2 = later (count cs) (count cs) w
  ∧ gaps (processContradictions cs s w).1 = gaps s.
Proof.
  destruct cs as [[|c l]|].
  - rewrite processContradictions_skip by done. simpl. by rewrite later_0.
  - by rewrite processContradictions_batch.
  - rewrite processContradictions_skip by done. simpl. by rewrite later_0.
Qed.

(** The session a workshop call leaves in the store. *)
Lemma handleWorkshopData_stored body srv w :
  ∃ s0 srv0 w0 s1 w1 s2 w2 s3 w3,
    getOrCreate (w_brandId body) srv w = (s0, srv0, w0)
    ∧ processSignals (w_signals body) s0 w0 = (s1, w1)
    ∧ processContradictions (w_contradictions body) s1 w1 = (s2, w2)
    ∧ processGaps (w_gaps body) s2 w2 = (s3, w3)
    ∧ handleWorkshopData body srv w
      = (json_success (w_brandId body),
         broadcastToBrand (w_brandId body)
           (workshop_update (w_brandId body) (count (w_signals body))
              (count (w_contradictions body)) (count (w_gaps body)) s3)
           (store (w_brandId body) s3 srv0),
         w3)
    ∧ brandSessions (handleWorkshopData body srv w).1.2 !! w_brandId body
      = Some s3.
Proof.
  unfold handleWorkshopData, bind, ret.
  destruct (getOrCreate (w_brandId body) srv w) as [[s0 srv0] w0].
  destruct (processSignals (w_signals body) s0 w0) as [s1 w1] eqn:E1.
  destruct (processContradictions (w_contradictions body) s1 w1)
    as [s2 w2] eqn:E2.
  destruct (processGaps (w_gaps body) s2 w2) as [s3 w3] eqn:E3.
  exists s0, srv0, w0, s1, w1, s2, w2, s3, w3.
  repeat split; try done. cbn [fst snd].
  rewrite broadcastToBrand_brandSessions. apply lookup_insert_eq.
Qed.

Lemma NoDup_stamped_ids dateKey (f : nat → string) (g : nat → nat) n l :
  dateKey ≠ "id" → Inj (=) (=) f →
  NoDup (get_prop "id"
           <$> imap (fun i c => stamped dateKey (f (n + i)) (g i) c) l).
Proof.
  intros Hk Hf. revert n g. induction l as [|c l IH]; intros n g.
  - constructor.
  - cbn [imap fmap list_fmap]. constructor.
    + rewrite stamped_id by done. rewrite list_elem_of_fmap.
      intros (o & Ho & Hin). apply elem_of_lookup_imap in Hin
        as (i & c' & -> & _).
      simpl in Ho. rewrite stamped_id in Ho by done.
      injection Ho as Ho. apply Hf in Ho. lia.
    + specialize (IH (S n) (g ∘ S)).
      erewrite imap_ext; [exact IH|].
      intros i x _. simpl. by rewrite Nat.add_succ_r.
Qed.

Lemma getOrCreate_world brand srv w :
  ∃ n, (getOrCreate brand srv w).2 = later n 0 w.
Proof.
  unfold getOrCreate. destruct (brandSessions srv !! brand).
  - exists 0. unfold ret. by rewrite later_0.
  - exists 8. unfold later. simpl. by rewrite Nat.add_0_r, Nat.add_comm.
Qed.

Lemma processGaps_frame gs s w :
  (processGaps gs s w).2 = later (count gs) (count gs) w
  ∧ contradictions (processGaps gs s w).1 = contradictions s.
Proof.
  destruct gs as [[|c l]|].
  - rewrite processGaps_skip by done. simpl. by rewrite later_0.
  - by rewrite processGaps_batch.
  - rewrite processGaps_skip by done. simpl. by rewrite later_0.
Qed.

(** A workshop call draws identifiers and reads the clock, nothing else. *)
Lemma handleWorkshopData_world body srv w :
  ∃ n k, (handleWorkshopData body srv w).2 = later n k w.
Proof.
  destruct (handleWorkshopData_stored body srv w)
    as (s0 & srv0 & w0 & s1 & w1 & s2 & w2 & s3 & w3
        & E0 & E1 & E2 & E3 & -> & _).
  destruct (getOrCreate_world (w_brandId body) srv w) as [n0 H0].
  rewrite E0 in H0. simpl in H0. subst w0.
  destruct (processSignals_frame (w_signals body) s0 (later n0 0 w))
    as (dims & n1 & H1).
  rewrite E1 in H1. injection H1 as _ ->.
  destruct (processContradictions_world (w_contradictions body) s1
              (later n1 0 (later n0 0 w))) as [H2 _].
  rewrite E2 in H2. simpl in H2. subst w2.
  destruct (processGaps_frame (w_gaps body) s2
              (later (count (w_contradictions body))
                 (count (w_contradictions body))
                 (later n1 0 (later n0 0 w)))) as [H3 _].
  rewrite E3 in H3. simpl in H3. subst w3.
  eexists _, _. simpl. by rewrite !later_later.
Qed.

End Batches.

(** C5 (as the code has it).  After two workshop calls for one session,
    a non-empty contradictions list of the second call is what the session
    holds: the entries of that list, in order, each with a newly drawn
    identifier under [id] and the date of the moment under [detected], and
    nothing of what was there before.  The identifiers are pairwise
    distinct as long as the uuid package does not repeat itself.  The same
    holds for a non-empty gaps list, dated under [identified]. *)
Theorem latest_batch_supersedes
  (body1 body2 : Server.WorkshopBody) (srv : Server.Server) (w : World) :
  Server.w_brandId body1 = Server.w_brandId body2 →
  ∃ r1 srv1 w1 r2 srv2 w2 session r,
    Server.handleWorkshopData body1 srv w = (r1, srv1, w1)
    ∧ Server.handleWorkshopData body2 srv1 w1 = (r2, srv2, w2)
    ∧ Server.brandSessions srv2 !! Server.w_brandId body2 = Some session
    ∧ (∀ l2, Server.w_contradictions body2 = Some l2 → l2 ≠ [] →
         Server.contradictions session
         = imap (fun i c =>
                   Stmt.stamped "detected" (uuid w (uuids_drawn w1 + i))
                     (clock w (r + i)) c) l2
         ∧ (Inj (=) (=) (uuid w) →
            NoDup (Js.get_prop "id" <$> Server.contradictions session)))
    ∧ (∀ g2, Server.w_gaps body2 = Some g2 → g2 ≠ [] →
         Server.gaps session
         = imap (fun i g =>
                   Stmt.stamped "identified"
                     (uuid w (uuids_drawn w1
                              + Server.count (Server.w_contradictions body2) + i))
                     (clock w (r + Server.count (Server.w_contradictions body2)
                               + i)) g) g2
         ∧ (Inj (=) (=) (uuid w) →
            NoDup (Js.get_prop "id" <$> Server.gaps session))).
Proof.
  intros Hbrand.
  destruct (handleWorkshopData_world body1 srv w) as (n & k & Hw1).
  destruct (handleWorkshopData_stored body1 srv w)
    as (_ & _ & _ & _ & _ & _ & _ & stored & _ & _ & _ & _ & _ & _ & Hstored).
  destruct (Server.handleWorkshopData body1 srv w) as [[r1 srv1] w1].
  cbn [fst snd] in Hw1, Hstored. rewrite Hbrand in Hstored.
  destruct (handleWorkshopData_stored body2 srv1 w1)
    as (s0 & srv0 & w0 & s1 & w1' & s2 & w2 & s3 & w3
        & E0 & E1 & E2 & E3 & E & Hs3).
  destruct (getOrCreate_stored (Server.w_brandId body2) srv1 w1)
    as (s0' & srv0' & w0' & E0' & _ & _ & _ & Hold).
  rewrite E0 in E0'. injection E0' as <- <- <-.
  destruct (Hold stored Hstored) as (-> & -> & ->).
  destruct (processSignals_frame (Server.w_signals body2) stored w1)
    as (dims & n1 & H1).
  rewrite E1 in H1. injection H1 as -> ->.
  rewrite E in Hs3. cbn [fst snd] in Hs3.
  eexists r1, srv1, w1, _, _, w3, s3, (clock_reads w1 + n1).
  split; [done|]. split; [exact E|]. split; [done|].
  assert (uuid w1 = uuid w ∧ clock w1 = clock w) as [Hu Hc] by (by subst w1).
  destruct (processGaps_frame (Server.w_gaps body2) s2 w2) as [_ Hsame].
  rewrite E3 in Hsame. cbn [fst] in Hsame.
  destruct (processContradictions_world (Server.w_contradictions body2)
              (Server.set_dimensions dims stored) (Stmt.later n1 0 w1))
    as [Hw2 _].
  rewrite E2 in Hw2. cbn [snd] in Hw2.
  split.
  - intros l2 Hl2 Hne. rewrite Hl2 in E2.
    rewrite processContradictions_batch in E2 by done.
    injection E2 as Hs2 _. rewrite Hsame, <- Hs2.
    cbn [Server.contradictions Server.set_contradictions Stmt.later uuid
         clock uuids_drawn clock_reads].
    rewrite Hu, Hc, Nat.add_0_r. split; [done|].
    intros Hinj. by apply NoDup_stamped_ids.
  - intros g2 Hg2 Hne. rewrite Hg2 in E3. subst w2.
    rewrite processGaps_batch in E3 by done.
    injection E3 as Hs3' _. rewrite <- Hs3'.
    cbn [Server.gaps Server.set_gaps Stmt.later uuid clock uuids_drawn
         clock_reads].
    rewrite Hu, Hc, Nat.add_0_r. split; [done|].
    intros Hinj. apply (NoDup_stamped_ids "identified" (uuid w)); done.
Qed.

Lemma world0_uuid_inj : Inj (=) (=) (uuid Stmt.world0).
Proof.
  intros n m H. simpl in H. apply (inj pretty).
  by injection H.
Qed.

Lemma latest_batch_supersedes_witness :
  let body1 :=
    Server.mkWorkshopBody "demo" None
      (Some [Js.Obj [("conflictType", Js.Str "positioning_accessibility")]])
      (Some [Js.Obj [("area", Js.Str "pricing")]; Js.Null]) in
  let body2 :=
    Server.mkWorkshopBody "demo" None
      (Some [Js.Obj [("conflictType", Js.Str "innovation_reliability")];
             Js.Obj [("id", Js.Num 7)]])
      (Some [Js.Obj [("area", Js.Str "audience")]]) in
  let first := Server.handleWorkshopData body1 Server.constructor Stmt.world0 in
  let second := Server.handleWorkshopData body2 first.1.2 first.2 in
  ∃ session,
    Server.brandSessions second.1.2 !! "demo" = Some session
    ∧ Server.contradictions session
      = [ [("conflictType", Js.Str "innovation_reliability");
           ("id", Js.Str "uuid-3"); ("detected", Js.Date 1011)];
          [("id", Js.Str "uuid-4"); ("detected", Js.Date 1012)] ]
    ∧ NoDup (Js.get_prop "id" <$> Server.contradictions session)
    ∧ Server.gaps session
      = [ [("area", Js.Str "audience"); ("id", Js.Str "uuid-5");
           ("identified", Js.Date 1013)] ].
Proof.
  intros body1 body2 first second.
  destruct (latest_batch_supersedes body1 body2 Server.constructor Stmt.world0
              eq_refl)
    as (r1 & srv1 & w1 & r2 & srv2 & w2 & session & r
        & E1 & E2 & Hs & Hc & Hg).
  exists session.
  assert (first = (r1, srv1, w1)) as Hfirst by exact E1.
  assert (second = (r2, srv2, w2)) as Hsecond.
  { unfold second. rewrite Hfirst. exact E2. }
  rewrite Hsecond. split; [exact Hs|].
  destruct (Hc _ eq_refl ltac:(discriminate)) as [_ Hnd].
  split; [|split; [exact (Hnd world0_uuid_inj)|]].
  - assert (Some session = Server.brandSessions second.1.2 !! "demo") as H
        by (by rewrite Hsecond).
    vm_compute in H. by injection H as ->.
  - assert (Some session = Server.brandSessions second.1.2 !! "demo") as H
        by (by rewrite Hsecond).
    vm_compute in H. by injection H as ->.
Defined.

(** C5, as stated, fails when the second list is empty: the entries of the
    first call stay in the session. *)
Lemma empty_batch_does_not_supersede :
  let body1 :=
    Server.mkWorkshopBody "demo" None
      (Some [Js.Obj [("conflictType", Js.Str "positioning")]]) None in
  let body2 := Server.mkWorkshopBody "demo" None (Some []) (Some []) in
  let first := Server.handleWorkshopData body1 Server.constructor Stmt.world0 in
  let second := Server.handleWorkshopData body2 first.1.2 first.2 in
  Server.contradictions <$> Server.brandSessions second.1.2 !! "demo"
  = Some [ [("conflictType", Js.Str "positioning"); ("id", Js.Str "uuid-0");
            ("detected", Js.Date 1008)] ].
Proof. vm_compute. reflexivity. Qed.

(** C10.  The branch that processes the contradictions (and the one that
    processes the gaps) is not taken for an empty list: it returns the
    session as it is, every field included, draws no identifier and does
    not read the clock.  So a workshop call with an empty contradictions
    list leaves the contradictions stored for the session unchanged, one
    with an empty gaps list leaves the gaps unchanged, and one whose three
    lists are all empty leaves the whole session unchanged. *)
Theorem empty_batch_changes_nothing
  (s : Server.Session) (body : Server.WorkshopBody) (srv : Server.Server)
  (w : World) :
  Server.processContradictions (Some []) s w = (s, w)
  ∧ Server.processGaps (Some []) s w = (s, w)
  ∧ (Server.brandSessions srv !! Server.w_brandId body = Some s →
     ∃ session,
       Server.brandSessions (Server.handleWorkshopData body srv w).1.2
         !! Server.w_brandId body = Some session
       ∧ (Server.w_contradictions body = Some [] →
          Server.contradictions session = Server.contradictions s)
       ∧ (Server.w_gaps body = Some [] →
          Server.gaps session = Server.gaps s)
       ∧ (Server.w_signals body = Some [] →
          Server.w_contradictions body = Some [] →
          Server.w_gaps body = Some [] →
          session = s ∧ (Server.handleWorkshopData body srv w).2 = w)).
Proof.
  split; [done|]. split; [done|]. intros Hs.
  destruct (handleWorkshopData_stored body srv w)
    as (s0 & srv0 & w0 & s1 & w1 & s2 & w2 & s3 & w3
        & E0 & E1 & E2 & E3 & E & Hs3).
  destruct (getOrCreate_stored (Server.w_brandId body) srv w)
    as (s0' & srv0' & w0' & E0' & _ & _ & _ & Hold).
  rewrite E0 in E0'. injection E0' as <- <- <-.
  destruct (Hold s Hs) as (-> & -> & ->).
  exists s3. split; [exact Hs3|].
  destruct (processSignals_frame (Server.w_signals body) s w) as (dims & n & H1).
  rewrite E1 in H1. injection H1 as -> ->.
  destruct (processGaps_frame (Server.w_gaps body) s2 w2) as [_ Hc3].
  rewrite E3 in Hc3. cbn [fst] in Hc3.
  destruct (processContradictions_world (Server.w_contradictions body)
              (Server.set_dimensions dims s) (Stmt.later n 0 w)) as [_ Hg2].
  rewrite E2 in Hg2. cbn [fst] in Hg2.
  split; [|split].
  - intros Hc. rewrite Hc in E2. injection E2 as <- _. by rewrite Hc3.
  - intros Hg. rewrite Hg in E3. injection E3 as <- _. by rewrite Hg2.
  - intros Hsig Hc Hg. rewrite E. cbn [snd].
    rewrite Hsig in E1. rewrite Hc in E2. rewrite Hg in E3.
    cbv [Server.processSignals Server.non_empty ret] in E1.
    injection E1 as E1 E1'. rewrite <- E1, <- E1' in E2.
    injection E2 as <- <-. by injection E3 as <- <-.
Qed.

Lemma empty_batch_changes_nothing_witness :
  let s :=
    Server.mkSession "demo" "Brand demo" 1000 [] []
      [ [("conflictType", Js.Str "positioning"); ("id", Js.Str "uuid-0");
         ("detected", Js.Date 1008)] ]
      [ [("area", Js.Str "pricing"); ("id", Js.Str "uuid-1");
         ("identified", Js.Date 1009)] ]
      (Server.mkCognitiveState (Js.Num 0.7) (Js.Num 0.7) (Js.Num 0.75)
         Js.Undefined Js.Undefined)
      (Server.mkMetrics 0.84 "moderate" 0.78) in
  let body := Server.mkWorkshopBody "demo" (Some []) (Some []) (Some []) in
  let srv := Server.store "demo" s Server.constructor in
  Server.brandSessions (Server.handleWorkshopData body srv Stmt.world0).1.2
    !! "demo"
  = Some s.
Proof.
  intros s body srv.
  assert (Server.brandSessions srv !! Server.w_brandId body = Some s) as Hs
      by apply lookup_insert_eq.
  destruct (proj2 (proj2 (empty_batch_changes_nothing s body srv Stmt.world0))
              Hs)
    as (session & Hsession & _ & _ & Hall).
  destruct (Hall eq_refl eq_refl eq_refl) as [Heq _].
  rewrite <- Heq. exact Hsession.
Defined.

(* ===================================================================== *)
(** ** Cognitive state *)
(* ===================================================================== *)

Section Cognitive.
Import Js Stmt.

Lemma or_else_Undefined v : or_else Undefined v = v.
Proof. done. Qed.

Lemma or_else_zero z v : PrimFloat.is_zero z = true → or_else (Num z) v = v.
Proof. intros Hz. unfold or_else. simpl. by rewrite Hz. Qed.

Lemma handleCognitiveState_stored body srv w :
  ∃ s0 srv0 w0 cs,
    Server.getOrCreate (Server.c_brandId body) srv w = (s0, srv0, w0)
    ∧ cs = Server.mkCognitiveState
             (or_else (Server.c_analytical body) (Num 0.7))
             (or_else (Server.c_intuitive body) (Num 0.7))
             (or_else (Server.c_efficiency body) (Num 0.75))
             (Date (clock w0 (clock_reads w0)))
             (or_else (Server.c_context body) (Obj []))
    ∧ Server.handleCognitiveState body srv w
      = (Server.json_success (Server.c_brandId body),
         Server.broadcastToBrand (Server.c_brandId body)
           (Server.cognitive_update (Server.c_brandId body) cs)
           (Server.store (Server.c_brandId body)
              (Server.set_cognitiveState cs s0) srv0),
         later 1 0 w0)
    ∧ stored_cognitive body srv w = Some cs.
Proof.
  unfold stored_cognitive, Server.handleCognitiveState, bind, ret.
  destruct (Server.getOrCreate (Server.c_brandId body) srv w)
    as [[s0 srv0] w0].
  rewrite new_Date_eq. eexists s0, srv0, w0, _.
  split; [reflexivity|]. split; [reflexivity|]. split; [reflexivity|].
  cbn [fst snd]. rewrite broadcastToBrand_brandSessions.
  unfold Server.store. cbn [Server.brandSessions Server.set_brandSessions].
  by rewrite lookup_insert_eq.
Qed.

Lemma cognitive_state_route_eq body w :
  truthy (Serverless.c_brandId body) = true →
  let fresh := (Serverless.createBrandSession (Serverless.c_brandId body) w).1 in
  Serverless.cognitive_state_route body w
  = (Serverless.status200
       (Serverless.cognitiveState (Serverless.mergeCognitiveState body fresh))
       (Serverless.set_lastUpdate (clock w (clock_reads w + 2))
          (Serverless.mergeCognitiveState body fresh)),
     later 3 0 w).
Proof.
  intros Hb. unfold Serverless.cognitive_state_route. rewrite Hb.
  unfold later.
  rewrite (Nat.add_comm _ 2), (Nat.add_comm _ 3), Nat.add_0_r. reflexivity.
Qed.

End Cognitive.

(** C2 (as the code has it).  On the serverless route an omitted
    [analytical], [intuitive] or [efficiency] keeps the value the session
    has, the session being the one the route has just created.  An omitted
    [context] is not kept: both the serverless route and the server's
    handler store the empty object for it. *)
Theorem omitted_cognitive_fields :
  (∀ body s,
     let merged :=
       Serverless.cognitiveState (Serverless.mergeCognitiveState body s) in
     (Serverless.c_analytical body = Js.Undefined →
      Serverless.analytical merged
      = Serverless.analytical (Serverless.cognitiveState s))
     ∧ (Serverless.c_intuitive body = Js.Undefined →
        Serverless.intuitive merged
        = Serverless.intuitive (Serverless.cognitiveState s))
     ∧ (Serverless.c_efficiency body = Js.Undefined →
        Serverless.efficiency merged
        = Serverless.efficiency (Serverless.cognitiveState s))
     ∧ (Serverless.c_context body = Js.Undefined →
        Serverless.context merged = Js.Obj []))
  ∧ (∀ body w,
       Js.truthy (Serverless.c_brandId body) = true →
       Stmt.answered_cognitive body w
       = Some (Serverless.cognitiveState
                 (Serverless.mergeCognitiveState body
                    (Serverless.createBrandSession
                       (Serverless.c_brandId body) w).1)))
  ∧ (∀ body srv w,
       Server.c_context body = Js.Undefined →
       Server.context <$> Stmt.stored_cognitive body srv w = Some (Js.Obj [])).
Proof.
  split; [|split].
  - intros body s. simpl. repeat split; by intros ->.
  - intros body w Hb. unfold Stmt.answered_cognitive.
    by rewrite cognitive_state_route_eq.
  - intros body srv w Hc.
    destruct (handleCognitiveState_stored body srv w)
      as (s0 & srv0 & w0 & cs & _ & -> & _ & ->).
    simpl. by rewrite Hc.
Qed.

Lemma omitted_cognitive_fields_witness :
  Stmt.answered_cognitive
    (Serverless.mkCognitiveBody (Js.Str "demo") Js.Undefined (Js.Num 0.85)
       Js.Undefined Js.Undefined) Stmt.world0
  = Some (Serverless.mkCognitiveState (Js.Num 0.5) (Js.Num 0.85) (Js.Num 0.7)
            (Js.Obj []))
  ∧ Server.context
      <$> Stmt.stored_cognitive
            (Server.mkCognitiveBody "demo" (Js.Num 0.8) (Js.Num 0.75)
               (Js.Num 0.88) Js.Undefined)
            Server.constructor Stmt.world0
    = Some (Js.Obj []).
Proof.
  destruct omitted_cognitive_fields as (Hmerge & Hroute & Hserver).
  split.
  - rewrite Hroute by reflexivity.
    set (body := Serverless.mkCognitiveBody _ _ _ _ _).
    set (fresh := (Serverless.createBrandSession _ _).1).
    destruct (Hmerge body fresh) as (Ha & _ & He & Hc).
    specialize (Ha eq_refl). specialize (He eq_refl). specialize (Hc eq_refl).
    reflexivity.
  - by apply Hserver.
Defined.

(** C2, as stated, fails on the server: the context stored by a first
    update is replaced by the empty object when a second update leaves
    the context out. *)
Lemma omitted_context_is_not_kept :
  let body1 :=
    Server.mkCognitiveBody "demo" (Js.Num 0.75) (Js.Num 0.70) (Js.Num 0.78)
      (Js.Obj [("phase", Js.Str "analysis")]) in
  let body2 :=
    Server.mkCognitiveBody "demo" (Js.Num 0.68) (Js.Num 0.85) (Js.Num 0.82)
      Js.Undefined in
  let first := Server.handleCognitiveState body1 Server.constructor Stmt.world0 in
  Server.context <$> Stmt.stored_cognitive body1 Server.constructor Stmt.world0
  = Some (Js.Obj [("phase", Js.Str "analysis")])
  ∧ Server.context <$> Stmt.stored_cognitive body2 first.1.2 first.2
    = Some (Js.Obj []).
Proof. split; vm_compute; reflexivity. Qed.

(** C9.  A field submitted as the number zero ([0] or [-0]) for
    [analytical], [intuitive] or [efficiency] is stored exactly as if the
    field had been left out, on the server (where the stored value is then
    [0.7], [0.7] or [0.75]) and on the serverless route (where it is the
    value of the session just created: [0.5], [0.5] or [0.7]); the stored
    value is never the submitted zero. *)
Theorem zero_takes_the_fallback (z : float) :
  PrimFloat.is_zero z = true →
  (∀ brand a i e c srv w,
     Stmt.stored_cognitive (Server.mkCognitiveBody brand (Js.Num z) i e c) srv w
     = Stmt.stored_cognitive (Server.mkCognitiveBody brand Js.Undefined i e c)
         srv w
     ∧ Server.analytical
         <$> Stmt.stored_cognitive
               (Server.mkCognitiveBody brand (Js.Num z) i e c) srv w
       = Some (Js.Num 0.7)
     ∧ Stmt.stored_cognitive (Server.mkCognitiveBody brand a (Js.Num z) e c) srv w
       = Stmt.stored_cognitive (Server.mkCognitiveBody brand a Js.Undefined e c)
           srv w
     ∧ Server.intuitive
         <$> Stmt.stored_cognitive
               (Server.mkCognitiveBody brand a (Js.Num z) e c) srv w
       = Some (Js.Num 0.7)
     ∧ Stmt.stored_cognitive (Server.mkCognitiveBody brand a i (Js.Num z) c) srv w
       = Stmt.stored_cognitive (Server.mkCognitiveBody brand a i Js.Undefined c)
           srv w
     ∧ Server.efficiency
         <$> Stmt.stored_cognitive
               (Server.mkCognitiveBody brand a i (Js.Num z) c) srv w
       = Some (Js.Num 0.75))
  ∧ (∀ brand a i e c w,
       Js.truthy brand = true →
       Stmt.answered_cognitive
         (Serverless.mkCognitiveBody brand (Js.Num z) i e c) w
       = Stmt.answered_cognitive
           (Serverless.mkCognitiveBody brand Js.Undefined i e c) w
       ∧ Serverless.analytical
           <$> Stmt.answered_cognitive
                 (Serverless.mkCognitiveBody brand (Js.Num z) i e c) w
         = Some (Js.Num 0.5)
       ∧ Stmt.answered_cognitive
           (Serverless.mkCognitiveBody brand a (Js.Num z) e c) w
         = Stmt.answered_cognitive
             (Serverless.mkCognitiveBody brand a Js.Undefined e c) w
       ∧ Serverless.intuitive
           <$> Stmt.answered_cognitive
                 (Serverless.mkCognitiveBody brand a (Js.Num z) e c) w
         = Some (Js.Num 0.5)
       ∧ Stmt.answered_cognitive
           (Serverless.mkCognitiveBody brand a i (Js.Num z) c) w
         = Stmt.answered_cognitive
             (Serverless.mkCognitiveBody brand a i Js.Undefined c) w
       ∧ Serverless.efficiency
           <$> Stmt.answered_cognitive
                 (Serverless.mkCognitiveBody brand a i (Js.Num z) c) w
         = Some (Js.Num 0.7))
  ∧ Js.Num 0.7 ≠ Js.Num z ∧ Js.Num 0.75 ≠ Js.Num z ∧ Js.Num 0.5 ≠ Js.Num z.
Proof.
  intros Hz. split; [|split].
  - intros brand a i e c srv w.
    repeat match goal with
           | |- context [Stmt.stored_cognitive ?b srv w] =>
               let H := fresh in
               destruct (handleCognitiveState_stored b srv w)
                 as (? & ? & ? & ? & H & -> & _ & ->);
               cbn [Server.c_brandId] in H
           end.
    repeat match goal with
           | H1 : Server.getOrCreate brand srv w = _,
             H2 : Server.getOrCreate brand srv w = _ |- _ =>
               rewrite H1 in H2; injection H2 as <- <- <-
           end.
    cbn [Server.c_analytical Server.c_intuitive Server.c_efficiency
         Server.c_context fmap option_fmap option_map Server.analytical
         Server.intuitive Server.efficiency].
    rewrite !(or_else_zero z) by done. by rewrite !or_else_Undefined.
  - intros brand a i e c w Hb. unfold Stmt.answered_cognitive.
    rewrite !cognitive_state_route_eq by done.
    cbn [fst Serverless.mergeCognitiveState Serverless.set_cognitiveState
         Serverless.cognitiveState Serverless.c_analytical
         Serverless.c_intuitive Serverless.c_efficiency Serverless.c_context
         Serverless.c_brandId Serverless.createBrandSession bind ret new_Date
         Serverless.analytical Serverless.intuitive Serverless.efficiency
         fmap option_fmap option_map].
    rewrite !(or_else_zero z) by done. by rewrite !or_else_Undefined.
  - repeat split; by apply zero_not.
Qed.

Lemma zero_takes_the_fallback_witness :
  Server.analytical
    <$> Stmt.stored_cognitive
          (Server.mkCognitiveBody "demo" (Js.Num 0) (Js.Num 0.85) (Js.Num 0.82)
             Js.Undefined)
          Server.constructor Stmt.world0
  = Some (Js.Num 0.7)
  ∧ Serverless.efficiency
      <$> Stmt.answered_cognitive
            (Serverless.mkCognitiveBody (Js.Str "demo") (Js.Num 0.9)
               (Js.Num 0.85) (Js.Num 0) Js.Undefined)
            Stmt.world0
    = Some (Js.Num 0.7)
  ∧ Js.Num 0.7 ≠ Js.Num 0.
Proof.
  destruct (zero_takes_the_fallback 0 eq_refl) as (Hserver & Hroute & Hne & _).
  split; [|split; [|exact Hne]].
  - apply (Hserver "demo" Js.Undefined (Js.Num 0.85) (Js.Num 0.82) Js.Undefined
             Server.constructor Stmt.world0).
  - apply (Hroute (Js.Str "demo") (Js.Num 0.9) (Js.Num 0.85) Js.Undefined
             Js.Undefined Stmt.world0 eq_refl).
Defined.


(* ===================================================================== *)
(** ** Dialogue *)
(* ===================================================================== *)

Section DialogueFacts.
Import Js Stmt.

Lemma appendDialogue_eq body s w :
  let entry :=
    Serverless.mkDialogueEntry (uuid w (uuids_drawn w))
      (Serverless.d_speaker body) (Serverless.d_message body)
      (Serverless.d_messageType body) (clock w (clock_reads w)) in
  Serverless.appendDialogue body s w
  = (entry,
     Serverless.set_lastUpdate (clock w (clock_reads w + 1))
       (Serverless.push entry s),
     later 2 1 w).
Proof.
  unfold Serverless.appendDialogue, Serverless.dialogueEntry, bind, ret.
  rewrite uuidv4_eq, new_Date_eq. cbn [later clock clock_reads uuid uuids_drawn].
  unfold new_Date, later. cbn [clock clock_reads uuid uuids_drawn].
  rewrite !Nat.add_0_r, (Nat.add_comm _ 1), (Nat.add_comm _ 2). reflexivity.
Qed.

Lemma handleRefinementDialogue_eq body srv w :
  Server.handleRefinementDialogue body srv w
  = (Server.json_success (Server.d_brandId body),
     Server.broadcastToBrand (Server.d_brandId body)
       (Server.dialogue_message (Server.d_brandId body)
          (Server.mkDialogue (Server.d_speaker body) (Server.d_message body)
             (or_else (Server.d_messageType body) (Str "question"))
             (clock w (clock_reads w))))
       srv,
     later 1 0 w).
Proof.
  unfold Server.handleRefinementDialogue, bind, ret. by rewrite new_Date_eq.
Qed.

Lemma handleRefinementDialogue_brandSessions body srv w :
  Server.brandSessions (Server.handleRefinementDialogue body srv w).1.2
  = Server.brandSessions srv.
Proof.
  rewrite handleRefinementDialogue_eq. cbn [fst snd].
  apply broadcastToBrand_brandSessions.
Qed.

End DialogueFacts.

(** C3 (as the code has it).  The serverless dialogue route pushes exactly
    one entry, with a newly drawn identifier and the date of the moment,
    at the end of the dialogue list of the session it works on, after the
    entries the list already holds; the route creates that session itself,
    so the list it leaves holds this one entry.  The server's handler keeps
    no dialogue log: it reads and changes no session, assigns no
    identifier, and only broadcasts the dialogue to the brand, dated, with
    the message type "question" when none was sent. *)
Theorem dialogue_is_pushed_or_broadcast :
  (∀ body s w,
     ∃ entry session w',
       Serverless.appendDialogue body s w = (entry, session, w')
       ∧ Serverless.dialogue session = Serverless.dialogue s ++ [entry]
       ∧ Serverless.id entry = uuid w (uuids_drawn w)
       ∧ Serverless.timestamp entry = clock w (clock_reads w)
       ∧ Serverless.speaker entry = Serverless.d_speaker body
       ∧ Serverless.message entry = Serverless.d_message body
       ∧ w' = Stmt.later 2 1 w)
  ∧ (∀ body w,
       Js.truthy (Serverless.d_brandId body) = true →
       ∃ entry session w',
         Serverless.dialogue_route body w
         = (Serverless.status200 entry session, w')
         ∧ Serverless.dialogue session = [entry]
         ∧ Serverless.id entry = uuid w (uuids_drawn w)
         ∧ Serverless.timestamp entry = clock w (clock_reads w + 2))
  ∧ (∀ body srv w,
       Server.brandSessions (Server.handleRefinementDialogue body srv w).1.2
       = Server.brandSessions srv
       ∧ ∃ messageType,
           Server.handleRefinementDialogue body srv w
           = (Server.json_success (Server.d_brandId body),
              Server.broadcastToBrand (Server.d_brandId body)
                (Server.dialogue_message (Server.d_brandId body)
                   (Server.mkDialogue (Server.d_speaker body)
                      (Server.d_message body) messageType
                      (clock w (clock_reads w))))
                srv,
              Stmt.later 1 0 w)
           ∧ (Server.d_messageType body = Js.Undefined →
              messageType = Js.Str "question")
           ∧ (Js.truthy (Server.d_messageType body) = true →
              messageType = Server.d_messageType body)).
Proof.
  split; [|split].
  - intros body s w. eexists _, _, _.
    split; [apply appendDialogue_eq|]. done.
  - intros body w Hb. unfold Serverless.dialogue_route. rewrite Hb.
    cbn [negb]. unfold bind at 1.
    destruct (Serverless.createBrandSession (Serverless.d_brandId body) w)
      as [fresh w1] eqn:E.
    unfold bind, ret. rewrite appendDialogue_eq.
    unfold Serverless.createBrandSession, bind, ret, new_Date in E.
    injection E as <- <-. eexists _, _, _. split; [reflexivity|].
    cbn. rewrite (Nat.add_comm _ 2). done.
  - intros body srv w. split.
    + apply handleRefinementDialogue_brandSessions.
    + eexists. split; [apply handleRefinementDialogue_eq|].
      split; [by intros ->|]. intros Ht. unfold Js.or_else. by rewrite Ht.
Qed.

Lemma dialogue_is_pushed_or_broadcast_witness :
  (∃ entry session w',
     Serverless.dialogue_route
       (Serverless.mkDialogueBody (Js.Str "demo") (Js.Str "AI")
          (Js.Str "What does premium mean?") (Js.Str "question"))
       Stmt.world0
     = (Serverless.status200 entry session, w')
     ∧ Serverless.dialogue session = [entry]
     ∧ Serverless.id entry = "uuid-0")
  ∧ Server.handleRefinementDialogue
      (Server.mkDialogueBody "demo" (Js.Str "AI") (Js.Str "Why?") Js.Undefined)
      Server.constructor Stmt.world0
    = (Server.json_success "demo", Server.constructor, Stmt.later 1 0 Stmt.world0).
Proof.
  destruct dialogue_is_pushed_or_broadcast as (_ & Hroute & Hserver).
  split.
  - destruct (Hroute (Serverless.mkDialogueBody (Js.Str "demo") (Js.Str "AI")
                        (Js.Str "What does premium mean?") (Js.Str "question"))
                Stmt.world0 eq_refl)
      as (entry & session & w' & E & Hd & Hid & _).
    exists entry, session, w'. split; [exact E|]. split; [exact Hd|exact Hid].
  - destruct (Hserver (Server.mkDialogueBody "demo" (Js.Str "AI")
                         (Js.Str "Why?") Js.Undefined)
                Server.constructor Stmt.world0)
      as (_ & messageType & E & Hdefault & _).
    rewrite E. rewrite (Hdefault eq_refl). reflexivity.
Defined.

(** C3, as stated, fails on the server: a dialogue call for a stored
    session leaves that session exactly as it was (nothing is appended to
    it), and a call for an unknown brand does not even create a session. *)
Lemma dialogue_is_not_logged :
  let body :=
    Server.mkDialogueBody "demo" (Js.Str "AI")
      (Js.Str "What does premium mean?") Js.Undefined in
  let srv := (Server.getBrandState "demo" Server.constructor Stmt.world0).1.2 in
  let after := (Server.handleRefinementDialogue body srv Stmt.world0).1.2 in
  Server.brandSessions after = Server.brandSessions srv
  ∧ Server.brandSessions
      (Server.handleRefinementDialogue body Server.constructor Stmt.world0).1.2
      !! "demo" = None.
Proof.
  split.
  - apply handleRefinementDialogue_brandSessions.
  - rewrite handleRefinementDialogue_brandSessions. reflexivity.
Qed.

(* ===================================================================== *)
(** ** Publishing to the subscribers of a session *)
(* ===================================================================== *)

Section Publish.
Import Js Server Stmt.

Lemma broadcastToBrand_failures_from brand m todo :
  ∀ before acc,
    clients acc = before ++ todo →
    NoDup (before ++ todo).*1 →
    failures (foldl (fun acc '(clientId, client) =>
                       if watches brand client && is_OPEN (ws client)
                       then sendToClient clientId m acc else acc) acc todo)
    = failures acc
      ++ (List.filter
            (fun kc : string * Client =>
               watches brand kc.2 && is_OPEN (ws kc.2) && failing (ws kc.2))
            todo).*1.
Proof.
  induction todo as [|[k c] todo IH]; intros before acc Hacc Hnd.
  - simpl. by rewrite app_nil_r.
  - cbn [foldl List.filter snd].
    assert (k ∉ before.*1) as Hk.
    { rewrite fmap_app, fmap_cons in Hnd.
      apply NoDup_app in Hnd as (_ & Hd & _).
      intros Hk. apply (Hd _ Hk). left. }
    assert (NoDup ((before ++ [(k, delivered brand m c)]) ++ todo).*1) as Hnd'.
    { rewrite <- app_assoc. simpl.
      replace (((before ++ (k, delivered brand m c) :: todo)).*1)
        with ((before ++ (k, c) :: todo).*1); [done|].
      by rewrite !fmap_app, !fmap_cons. }
    destruct (watches brand c && is_OPEN (ws c)) eqn:E; cbn [andb].
    + apply andb_true_iff in E as [Hwatch Ho].
      unfold sendToClient at 2. rewrite Hacc, (Map_get_middle _ _ _ _ Hk), Ho.
      destruct (failing (ws c)) eqn:Hf.
      * rewrite (IH (before ++ [(k, delivered brand m c)])); [|  |done].
        -- simpl. by rewrite <- app_assoc.
        -- unfold delivered. rewrite Hwatch, Ho, Hf. simpl.
           by rewrite Hacc, <- app_assoc.
      * rewrite (IH (before ++ [(k, delivered brand m c)])); [done| |done].
        unfold delivered. rewrite Hwatch, Ho, Hf. simpl.
        by rewrite (Map_set_middle _ _ _ _ _ Hk), <- app_assoc.
    + rewrite (IH (before ++ [(k, delivered brand m c)])); [done| |done].
      unfold delivered. rewrite E. simpl. by rewrite Hacc, <- app_assoc.
Qed.

(** The failures a broadcast reports. *)
Lemma broadcastToBrand_failures brand m srv :
  NoDup (clients srv).*1 →
  failures (broadcastToBrand brand m srv)
  = failures srv ++ undelivered brand srv.
Proof.
  intros Hnd.
  apply (broadcastToBrand_failures_from brand m (clients srv) [] srv); done.
Qed.

Lemma broadcastToBrand_keys brand m srv :
  NoDup (clients srv).*1 →
  (clients (broadcastToBrand brand m srv)).*1 = (clients srv).*1.
Proof.
  intros Hnd. rewrite broadcastToBrand_clients by done.
  rewrite <- list_fmap_compose. apply list_fmap_ext. by intros i [k c] _.
Qed.

Lemma sendToClient_clients k m srv :
  clients (sendToClient k m srv)
  = match Map_get k (clients srv) with
    | Some c =>
        if is_OPEN (ws c) && negb (failing (ws c))
        then Map_set k (accept m c) (clients srv) else clients srv
    | None => clients srv
    end.
Proof.
  unfold sendToClient. destruct (Map_get k (clients srv)) as [c|]; [|done].
  destruct (is_OPEN (ws c)); [|done]. by destruct (failing (ws c)).
Qed.

(** A client that joins a brand stays registered under its id, watches
    that brand from then on, and keeps its socket. *)
Lemma handleJoinBrand_client k brand srv w client :
  Map_get k (clients srv) = Some client →
  let joined := (handleJoinBrand k brand srv w).1 in
  (clients joined).*1 = (clients srv).*1
  ∧ ∃ c, Map_get k (clients joined) = Some c
         ∧ brandId c = Some brand
         ∧ readyState (ws c) = readyState (ws client)
         ∧ failing (ws c) = failing (ws client).
Proof.
  intros Hk. unfold handleJoinBrand. rewrite Hk. unfold bind, ret.
  set (srv0 := set_clients _ srv).
  destruct (getOrCreate_stored brand srv0 w)
    as (s & srv1 & w1 & E & _ & Hclients & _).
  rewrite E. cbn [fst].
  assert (Map_get k (clients srv1) = Some (set_brandId brand client)) as Hk1.
  { rewrite Hclients. apply Map_get_set_eq. }
  assert ((clients srv1).*1 = (clients srv).*1) as Hkeys.
  { rewrite Hclients. apply Map_set_keys. by rewrite Hk. }
  rewrite sendToClient_clients, Hk1.
  destruct (is_OPEN (ws (set_brandId brand client))
            && negb (failing (ws (set_brandId brand client)))).
  - split.
    + rewrite Map_set_keys; [done|]. by rewrite Hk1.
    + eexists. split; [apply Map_get_set_eq|]. done.
  - split; [done|]. eexists. split; [exact Hk1|]. done.
Qed.

End Publish.

(* ===================================================================== *)
(** ** The registry is a map *)
(* ===================================================================== *)

(** [clients] is a JavaScript [Map]: whatever reaches the server, no id is
    registered twice. *)
Section RegistryKeys.
Import Js Server Stmt.

Lemma Map_get_None {V} k (m : list (string * V)) :
  Map_get k m = None → k ∉ m.*1.
Proof.
  induction m as [|[k0 v0] m IH]; simpl; [intros _; apply not_elem_of_nil|].
  destruct (String.eqb k0 k) eqn:E; [done|].
  intros H. apply not_elem_of_cons. split; [|by apply IH].
  apply String.eqb_neq in E. congruence.
Qed.

Lemma Map_set_keys_new {V} k (v : V) m :
  Map_get k m = None → (Map_set k v m).*1 = m.*1 ++ [k].
Proof.
  induction m as [|[k0 v0] m IH]; simpl; [done|].
  destruct (String.eqb k0 k) eqn:E; [done|].
  intros H. simpl. f_equal. by apply IH.
Qed.

Lemma Map_set_NoDup {V} k (v : V) m :
  NoDup m.*1 → NoDup (Map_set k v m).*1.
Proof.
  intros Hnd. destruct (Map_get k m) as [v0|] eqn:E.
  - rewrite Map_set_keys; [done|by rewrite E].
  - rewrite Map_set_keys_new by done.
    apply NoDup_app. split; [done|]. split; [|apply NoDup_singleton].
    intros x Hx Hk. apply list_elem_of_singleton in Hk as ->.
    by apply (Map_get_None _ _ E).
Qed.

Lemma Map_delete_subseteq {V} k (m : list (string * V)) x :
  x ∈ (Map_delete k m).*1 → x ∈ m.*1.
Proof.
  induction m as [|[k0 v0] m IH]; simpl; [done|].
  destruct (String.eqb k0 k); simpl.
  - intros H. right. by apply IH.
  - intros [->|H]%elem_of_cons; [left|right; by apply IH].
Qed.

Lemma Map_delete_NoDup {V} k (m : list (string * V)) :
  NoDup m.*1 → NoDup (Map_delete k m).*1.
Proof.
  induction m as [|[k0 v0] m IH]; simpl; [done|].
  intros [Hk Hnd]%NoDup_cons. destruct (String.eqb k0 k); simpl.
  - by apply IH.
  - apply NoDup_cons. split; [|by apply IH].
    intros H. by apply Hk, (Map_delete_subseteq k).
Qed.

Lemma sendToClient_keys k m srv :
  (clients (sendToClient k m srv)).*1 = (clients srv).*1.
Proof.
  rewrite sendToClient_clients.
  destruct (Map_get k (clients srv)) as [c|] eqn:E; [|done].
  destruct (is_OPEN (ws c) && negb (failing (ws c))); [|done].
  apply Map_set_keys. by rewrite E.
Qed.

Lemma getOrCreate_clients brand srv w :
  clients (getOrCreate brand srv w).1.2 = clients srv.
Proof.
  destruct (getOrCreate_stored brand srv w)
    as (s & srv1 & w1 & -> & _ & H & _). exact H.
Qed.

Lemma step_keys e srv w :
  NoDup (clients srv).*1 → NoDup (clients (step e srv w).1).*1.
Proof.
  intros H. destruct e as [fails agent address|k|k state fails|k brand
                          |body|body|body|id].
  - cbn [step]. unfold on_connection, bind, ret.
    destruct (uuidv4 w) as [k w1]. destruct (new_Date w1) as [t w2].
    cbn [fst]. rewrite sendToClient_keys. by apply Map_set_NoDup.
  - by apply Map_delete_NoDup.
  - cbn [step]. destruct (Map_get k (clients srv)); [|done].
    by apply Map_set_NoDup.
  - cbn [step]. unfold handleJoinBrand.
    destruct (Map_get k (clients srv)) as [c|]; [|done].
    unfold bind, ret. set (srv0 := set_clients _ srv).
    pose proof (getOrCreate_clients brand srv0 w) as Hc.
    destruct (getOrCreate brand srv0 w) as [[s srv1] w1]. cbn [fst snd] in *.
    rewrite sendToClient_keys, Hc. by apply Map_set_NoDup.
  - cbn [step]. unfold bind, ret.
    destruct (handleWorkshopData_stored body srv w)
      as (s0 & srv0 & w0 & s1 & w1 & s2 & w2 & s3 & w3
          & E0 & _ & _ & _ & -> & _).
    pose proof (getOrCreate_clients (w_brandId body) srv w) as Hc.
    rewrite E0 in Hc. cbn [fst snd] in *.
    rewrite broadcastToBrand_keys; cbn [store set_brandSessions clients];
      by rewrite Hc.
  - cbn [step]. unfold bind, ret.
    destruct (handleCognitiveState_stored body srv w)
      as (s0 & srv0 & w0 & cs & E0 & _ & -> & _).
    pose proof (getOrCreate_clients (c_brandId body) srv w) as Hc.
    rewrite E0 in Hc. cbn [fst snd] in *.
    rewrite broadcastToBrand_keys; cbn [store set_brandSessions clients];
      by rewrite Hc.
  - cbn [step]. unfold bind, ret. rewrite handleRefinementDialogue_eq.
    cbn [fst snd]. by rewrite broadcastToBrand_keys.
  - cbn [step]. unfold getBrandState, bind, ret.
    pose proof (getOrCreate_clients id srv w) as Hc.
    destruct (getOrCreate id srv w) as [[s srv1] w1]. cbn [fst snd] in *.
    by rewrite Hc.
Qed.

Lemma registry_keys_distinct events w :
  NoDup (clients (run events constructor w).1).*1.
Proof.
  assert (∀ srv w0, NoDup (clients srv).*1 →
                    NoDup (clients (run events srv w0).1).*1) as Hrun.
  { induction events as [|e events IH]; intros srv w0 H; [done|].
    unfold run. simpl. unfold bind.
    pose proof (step_keys e srv w0 H) as H1.
    destruct (step e srv w0) as [srv1 w1]. by apply IH. }
  apply Hrun. constructor.
Qed.

End RegistryKeys.

(** C8.  Let [c1] be a registered connection whose socket is open and
    accepts frames, in a registry without repeated ids.  Once [c1] has joined "brandA", a broadcast of [m] to
    "brandA" adds [m] to the frames [c1] receives, and a broadcast of [m]
    to any other brand adds nothing.  In general a broadcast reaches
    exactly the registered connections that watch the published brand at
    that moment over an open socket that accepts the frame. *)
Theorem broadcast_reaches_the_subscribers
  (srv : Server.Server) (w : World) (c1 brandA brandB : string)
  (client : Server.Client) (m : Server.Message) :
  NoDup (Server.clients srv).*1 →
  Server.Map_get c1 (Server.clients srv) = Some client →
  Server.is_OPEN (Server.ws client) = true →
  Server.failing (Server.ws client) = false →
  brandA ≠ brandB →
  let joined := (Server.handleJoinBrand c1 brandA srv w).1 in
  Server.received c1 (Server.broadcastToBrand brandA m joined)
  = Server.received c1 joined ++ [m]
  ∧ Server.received c1 (Server.broadcastToBrand brandB m joined)
    = Server.received c1 joined
  ∧ (∀ k c brand,
       Server.Map_get k (Server.clients joined) = Some c →
       Server.received k (Server.broadcastToBrand brand m joined)
       = if Server.watches brand c && Server.is_OPEN (Server.ws c)
            && negb (Server.failing (Server.ws c))
         then Server.received k joined ++ [m]
         else Server.received k joined).
Proof.
  intros Hnd Hc1 Hopen Hok Hne joined.
  destruct (handleJoinBrand_client c1 brandA srv w client Hc1)
    as (Hkeys & c & Hc & Hbrand & Hstate & Hfail).
  fold joined in Hkeys, Hc.
  assert (NoDup (Server.clients joined).*1) as Hnd' by (by rewrite Hkeys).
  assert (∀ k c brand,
            Server.Map_get k (Server.clients joined) = Some c →
            Server.received k (Server.broadcastToBrand brand m joined)
            = if Server.watches brand c && Server.is_OPEN (Server.ws c)
                 && negb (Server.failing (Server.ws c))
              then Server.received k joined ++ [m]
              else Server.received k joined) as Hall.
  { intros k c0 brand Hk.
    rewrite (broadcastToBrand_received brand m joined k c0 Hnd' Hk).
    unfold Server.received. by rewrite Hk. }
  assert (Server.is_OPEN (Server.ws c) = true) as Hopen'.
  { unfold Server.is_OPEN in *. by rewrite Hstate. }
  split; [|split; [|exact Hall]].
  - rewrite (Hall c1 c brandA Hc). unfold Server.watches.
    by rewrite Hbrand, String.eqb_refl, Hopen', Hfail, Hok.
  - rewrite (Hall c1 c brandB Hc). unfold Server.watches. rewrite Hbrand.
    by apply String.eqb_neq in Hne as ->.
Qed.

(** C4 (as the code has it).  The registry has no repeated ids.  In a
    broadcast, a subscriber on whose socket
    [send] throws does not keep the frame from the other subscribers:
    every subscriber with an open, accepting socket receives it.  The
    failure is reported and nothing else happens to the failing
    connection: it stays in the registry as it was, still subscribed; a
    broadcast neither adds nor removes a connection. *)
Theorem failed_delivery_is_isolated
  (brand : string) (m : Server.Message) (srv : Server.Server) :
  NoDup (Server.clients srv).*1 →
  let after := Server.broadcastToBrand brand m srv in
  (∀ k c,
     Server.Map_get k (Server.clients srv) = Some c →
     Server.watches brand c = true →
     Server.is_OPEN (Server.ws c) = true →
     Server.failing (Server.ws c) = false →
     Server.received k after = Server.outbox (Server.ws c) ++ [m])
  ∧ (∀ k c,
       Server.Map_get k (Server.clients srv) = Some c →
       Server.watches brand c = true →
       Server.is_OPEN (Server.ws c) = true →
       Server.failing (Server.ws c) = true →
       Server.Map_get k (Server.clients after) = Some c
       ∧ k ∈ Server.failures after)
  ∧ (Server.clients after).*1 = (Server.clients srv).*1
  ∧ Server.brandId <$> (Server.clients after).*2
    = Server.brandId <$> (Server.clients srv).*2.
Proof.
  intros Hnd after. split; [|split; [|split]].
  - intros k c Hk Hwatch Hopen Hok. unfold after.
    rewrite (broadcastToBrand_received brand m srv k c Hnd Hk).
    by rewrite Hwatch, Hopen, Hok.
  - intros k c Hk Hwatch Hopen Hfail. unfold after. split.
    + rewrite broadcastToBrand_clients, Map_get_fmap, Hk by done. simpl.
      unfold Stmt.delivered. by rewrite Hwatch, Hopen, Hfail.
    + rewrite broadcastToBrand_failures by done.
      apply elem_of_app. right. unfold Stmt.undelivered.
      apply list_elem_of_fmap. exists (k, c). split; [done|].
      apply list_elem_of_In, filter_In. split.
      * apply list_elem_of_In. by apply Map_get_Some_elem_of.
      * simpl. by rewrite Hwatch, Hopen, Hfail.
  - by apply broadcastToBrand_keys.
  - unfold after. rewrite broadcastToBrand_clients by done.
    rewrite <- !list_fmap_compose. apply list_fmap_ext.
    intros i [k c] _. simpl. unfold Stmt.delivered. by case_match.
Qed.

Lemma two_subscribers_NoDup : NoDup (Server.clients Stmt.two_subscribers).*1.
Proof. apply (bool_decide_unpack _). by vm_compute. Qed.

Lemma broadcast_reaches_the_subscribers_witness :
  let m := Server.welcome "hello" in
  let joined :=
    (Server.handleJoinBrand "c3" "brandA" Stmt.two_subscribers Stmt.world0).1 in
  Server.received "c3" (Server.broadcastToBrand "brandA" m joined)
  = Server.received "c3" joined ++ [m]
  ∧ Server.received "c3" (Server.broadcastToBrand "brandB" m joined)
    = Server.received "c3" joined.
Proof.
  intros m joined.
  destruct (broadcast_reaches_the_subscribers Stmt.two_subscribers Stmt.world0
              "c3" "brandA" "brandB"
              (Server.mkClient "c3" (Server.mkSocket Server.OPEN false []) 1002
                 None Js.Undefined Js.Undefined)
              m two_subscribers_NoDup eq_refl eq_refl eq_refl
              ltac:(discriminate))
    as (HA & HB & _).
  split; [exact HA|exact HB].
Defined.

Lemma failed_delivery_is_isolated_witness :
  let m := Server.welcome "hello" in
  let after := Server.broadcastToBrand "brandA" m Stmt.two_subscribers in
  Server.received "c2" after = [m]
  ∧ "c1" ∈ Server.failures after
  ∧ (Server.clients after).*1 = ["c1"; "c2"; "c3"].
Proof.
  intros m after.
  destruct (failed_delivery_is_isolated "brandA" m Stmt.two_subscribers
              two_subscribers_NoDup)
    as (Hok & Hfail & Hkeys & _).
  split; [|split].
  - apply (Hok "c2" (Server.mkClient "c2" (Server.mkSocket Server.OPEN false [])
                       1001 (Some "brandA") Js.Undefined Js.Undefined));
      reflexivity.
  - apply (Hfail "c1" (Server.mkClient "c1" (Server.mkSocket Server.OPEN true [])
                         1000 (Some "brandA") Js.Undefined Js.Undefined));
      reflexivity.
  - exact Hkeys.
Defined.

(** C4, as stated, fails in its second half: after a broadcast during
    which [send] threw on the socket of "c1", "c1" is still registered and
    still subscribed to the brand (while "c2" did receive the frame). *)
Lemma failed_connection_stays_registered :
  let m := Server.welcome "hello" in
  let after := Server.broadcastToBrand "brandA" m Stmt.two_subscribers in
  Server.failures after = ["c1"]
  ∧ Server.brandId <$> Server.Map_get "c1" (Server.clients after)
    = Some (Some "brandA")
  ∧ Server.received "c2" after = [m].
Proof. repeat split. Qed.


(* ===================================================================== *)
(** * Further properties of the code *)
(* ===================================================================== *)

(* ===================================================================== *)
(** ** Joining a brand and client messages *)
(* ===================================================================== *)

Section Joining.
Import Js Server Stmt Gateway Obs.


Lemma handleJoinBrand_unknown k brand srv w :
  Map_get k (clients srv) = None → handleJoinBrand k brand srv w = (srv, w).
Proof. intros H. unfold handleJoinBrand. by rewrite H. Qed.

(** What a join does, step by step. *)
Lemma handleJoinBrand_eq k brand srv w client :
  Map_get k (clients srv) = Some client →
  ∃ s srv1 w1,
    handleJoinBrand k brand srv w
    = (sendToClient k (brand_state brand s) srv1, w1)
    ∧ clients srv1 = Map_set k (set_brandId brand client) (clients srv)
    ∧ brandSessions srv1 !! brand = Some s
    ∧ failures srv1 = failures srv
    ∧ (∀ other, other ≠ brand →
         brandSessions srv1 !! other = brandSessions srv !! other)
    ∧ (∀ old, brandSessions srv !! brand = Some old →
         s = old ∧ brandSessions srv1 = brandSessions srv ∧ w1 = w)
    ∧ (brandSessions srv !! brand = None →
         (s, srv1, w1)
         = createBrandSession brand
             (set_clients (Map_set k (set_brandId brand client) (clients srv))
                srv) w).
Proof.
  intros Hk. unfold handleJoinBrand. rewrite Hk. unfold bind, ret.
  set (srv0 := set_clients _ srv).
  destruct (getOrCreate_stored brand srv0 w)
    as (s & srv1 & w1 & E & Hs & Hclients & Hother & Hold).
  rewrite E. exists s, srv1, w1.
  split; [done|]. split; [done|]. split; [done|].
  assert (failures srv1 = failures srv) as Hf.
  { unfold getOrCreate in E. destruct (brandSessions srv0 !! brand).
    - by injection E as _ <- _.
    - destruct (createBrandSession_spec brand srv0 w) as (s' & w' & E' & _).
      rewrite E' in E. by injection E as _ <- _. }
  split; [done|]. split; [done|]. split.
  - intros old Hold'. destruct (Hold old Hold') as (-> & -> & ->). done.
  - intros Hnone. unfold getOrCreate in E.
    change (brandSessions srv0) with (brandSessions srv) in E.
    by rewrite Hnone in E.
Qed.



End Joining.



Section Connections.
Import Js Server Stmt Gateway Obs.

Lemma Map_get_delete_eq {V} k (m : list (string * V)) :
  Map_get k (Map_delete k m) = None.
Proof.
  induction m as [|[k0 v0] m IH]; simpl; [done|].
  destruct (String.eqb k0 k) eqn:E; [done|]. simpl. by rewrite E.
Qed.

Lemma Map_get_delete_ne {V} k k' (m : list (string * V)) :
  k ≠ k' → Map_get k' (Map_delete k m) = Map_get k' m.
Proof.
  intros Hne. induction m as [|[k0 v0] m IH]; simpl; [done|].
  destruct (String.eqb k0 k) eqn:E; simpl.
  - apply String.eqb_eq in E as ->.
    by apply String.eqb_neq in Hne as ->.
  - by rewrite IH.
Qed.

Lemma Map_delete_absent {V} k (m : list (string * V)) :
  Map_get k m = None → Map_delete k m = m.
Proof.
  induction m as [|[k0 v0] m IH]; simpl; [done|].
  destruct (String.eqb k0 k); [done|]. intros H. by rewrite IH.
Qed.

(** A loop that sends [m] to the entries on which [p] holds. *)
Lemma send_loop_clients (p : Client → bool) m todo :
  ∀ before acc,
    clients acc = before ++ todo →
    NoDup (before ++ todo).*1 →
    clients (foldl (fun acc '(clientId, client) =>
                      if p client then sendToClient clientId m acc else acc)
               acc todo)
    = before
      ++ (prod_map id (fun c => if p c && accepts c then accept m c else c)
            <$> todo).
Proof.
  induction todo as [|[k c] todo IH]; intros before acc Hacc Hnd.
  - simpl. by rewrite Hacc.
  - cbn [foldl fmap list_fmap].
    assert (k ∉ before.*1) as Hk.
    { rewrite fmap_app, fmap_cons in Hnd.
      apply NoDup_app in Hnd as (_ & Hd & _).
      intros Hk. apply (Hd _ Hk). left. }
    set (c' := if p c && accepts c then accept m c else c).
    replace (before ++ prod_map id _ (k, c) :: _)
      with ((before ++ [(k, c')])
              ++ (prod_map id (fun c => if p c && accepts c then accept m c
                                        else c) <$> todo))
      by (by rewrite <- app_assoc).
    apply IH.
    + unfold c'. destruct (p c); simpl.
      * rewrite sendToClient_clients, Hacc, (Map_get_middle _ _ _ _ Hk).
        unfold accepts. destruct (is_OPEN (ws c) && negb (failing (ws c))).
        -- by rewrite (Map_set_middle _ _ _ _ _ Hk), <- app_assoc.
        -- by rewrite <- app_assoc.
      * by rewrite Hacc, <- app_assoc.
    + rewrite <- app_assoc. simpl.
      replace (((before ++ (k, c') :: todo)).*1)
        with ((before ++ (k, c) :: todo).*1); [done|].
      by rewrite !fmap_app, !fmap_cons.
Qed.

Lemma broadcast_brandSessions m srv :
  brandSessions (broadcast m srv) = brandSessions srv.
Proof.
  unfold broadcast. generalize (clients srv) as todo.
  intros todo. revert srv. induction todo as [|[k c] todo IH]; intros srv.
  - done.
  - simpl. destruct (is_OPEN (ws c)); rewrite IH;
      [apply sendToClient_brandSessions|done].
Qed.

End Connections.

(** X2.  [handleJoinBrand] records the subscription of a registered
    connection and sends it the snapshot of the brand: the connection then
    watches the brand, and when its socket takes the frame the frame added
    to what it received is [brand_state] with the session exactly as the
    store holds it after the call.  A session already stored is sent as it
    is and the store is not changed; otherwise the session is created with
    the default attributes and no contradictions or gaps.  The
    subscription is recorded also when the socket cannot take the frame. *)
Theorem join_sends_the_stored_snapshot
  (k brand : string) (srv : Server.Server) (w : World)
  (client : Server.Client) :
  Server.Map_get k (Server.clients srv) = Some client →
  let joined := (Server.handleJoinBrand k brand srv w).1 in
  ∃ s c,
    Server.brandSessions joined !! brand = Some s
    ∧ Server.Map_get k (Server.clients joined) = Some c
    ∧ Server.brandId c = Some brand
    ∧ Server.outbox (Server.ws c)
      = (if Obs.accepts client
         then Server.outbox (Server.ws client) ++ [Server.brand_state brand s]
         else Server.outbox (Server.ws client))
    ∧ (∀ old, Server.brandSessions srv !! brand = Some old →
         s = old ∧ Server.brandSessions joined = Server.brandSessions srv)
    ∧ (Server.brandSessions srv !! brand = None →
         Server.session_id s = brand
         ∧ Server.name <$> Server.dimensions s = Stmt.default_names
         ∧ Server.contradictions s = [] ∧ Server.gaps s = []).
Proof.
  intros Hk joined.
  destruct (handleJoinBrand_eq k brand srv w client Hk)
    as (s & srv1 & w1 & E & Hc & Hs & _ & _ & Hold & Hnew).
  assert (joined = Server.sendToClient k (Server.brand_state brand s) srv1)
    as -> by (unfold joined; by rewrite E).
  assert (Server.Map_get k (Server.clients srv1)
          = Some (Server.set_brandId brand client)) as Hk1.
  { rewrite Hc. apply Map_get_set_eq. }
  exists s.
  exists (if Obs.accepts client
          then Server.accept (Server.brand_state brand s)
                 (Server.set_brandId brand client)
          else Server.set_brandId brand client).
  split; [by rewrite sendToClient_brandSessions|].
  split.
  { rewrite sendToClient_clients, Hk1. unfold Obs.accepts.
    cbn [Server.ws Server.set_brandId].
    destruct (Server.is_OPEN (Server.ws client)
              && negb (Server.failing (Server.ws client))); [|done].
    apply Map_get_set_eq. }
  split; [by destruct (Obs.accepts client)|].
  split; [by destruct (Obs.accepts client)|].
  split.
  - intros old Ho. destruct (Hold old Ho) as (-> & Hsame & _).
    by rewrite sendToClient_brandSessions.
  - intros Hnone. specialize (Hnew Hnone).
    destruct (createBrandSession_spec brand
                (Server.set_clients
                   (Server.Map_set k (Server.set_brandId brand client)
                      (Server.clients srv)) srv) w)
      as (s' & w' & E' & Hid & Hnames & _ & _ & Hcs & Hgs).
    rewrite E' in Hnew. by injection Hnew as -> _ _.
Qed.

Lemma join_sends_the_stored_snapshot_witness :
  let joined :=
    (Server.handleJoinBrand "c3" "brandB" Stmt.two_subscribers Stmt.world0).1 in
  ∃ s, Server.brandSessions joined !! "brandB" = Some s
       ∧ Server.received "c3" joined = [Server.brand_state "brandB" s]
       ∧ Server.session_id s = "brandB".
Proof.
  intros joined.
  destruct (join_sends_the_stored_snapshot "c3" "brandB" Stmt.two_subscribers
              Stmt.world0
              (Server.mkClient "c3" (Server.mkSocket Server.OPEN false []) 1002
                 None Js.Undefined Js.Undefined) eq_refl)
    as (s & c & Hs & Hc & _ & Hout & _ & Hnew).
  exists s. split; [exact Hs|]. split.
  - unfold Server.received. fold joined in Hc. rewrite Hc. exact Hout.
  - by destruct (Hnew eq_refl).
Defined.

(** X3.  A connection watches one brand at a time: once a connection that
    joined "A" joins another brand "B", a broadcast to "A" no longer adds
    anything to what it receives, and a broadcast to "B" reaches it when
    its socket takes the frame. *)
Theorem joining_another_brand_ends_the_subscription
  (srv : Server.Server) (w : World) (k A B : string)
  (client : Server.Client) (m : Server.Message) :
  NoDup (Server.clients srv).*1 →
  Server.Map_get k (Server.clients srv) = Some client →
  A ≠ B →
  let first := Server.handleJoinBrand k A srv w in
  let second := (Server.handleJoinBrand k B first.1 first.2).1 in
  Server.received k (Server.broadcastToBrand A m second)
  = Server.received k second
  ∧ (Obs.accepts client = true →
     Server.received k (Server.broadcastToBrand B m second)
     = Server.received k second ++ [m]).
Proof.
  intros Hnd Hk Hne first second.
  destruct (handleJoinBrand_client k A srv w client Hk)
    as (Hkeys1 & c1 & Hc1 & _ & Hstate1 & Hfail1).
  fold first in Hkeys1, Hc1.
  destruct (handleJoinBrand_client k B first.1 first.2 c1 Hc1)
    as (Hkeys2 & c2 & Hc2 & Hbrand2 & Hstate2 & Hfail2).
  fold second in Hkeys2, Hc2.
  assert (NoDup (Server.clients second).*1) as Hnd2
      by (by rewrite Hkeys2, Hkeys1).
  rewrite !(broadcastToBrand_received _ m second k c2 Hnd2 Hc2).
  unfold Server.received. rewrite Hc2. unfold Server.watches.
  rewrite Hbrand2, String.eqb_refl.
  apply not_eq_sym, String.eqb_neq in Hne as ->.
  split; [done|]. intros [Ho Hf]%andb_true_iff.
  apply negb_true_iff in Hf. unfold Server.is_OPEN in *.
  by rewrite Hstate2, Hstate1, Ho, Hfail2, Hfail1, Hf.
Qed.

Lemma joining_another_brand_ends_the_subscription_witness :
  let m := Server.welcome "news" in
  let first :=
    Server.handleJoinBrand "c2" "brandA" Stmt.two_subscribers Stmt.world0 in
  let second := (Server.handleJoinBrand "c2" "brandB" first.1 first.2).1 in
  Server.received "c2" (Server.broadcastToBrand "brandA" m second)
  = Server.received "c2" second
  ∧ Server.received "c2" (Server.broadcastToBrand "brandB" m second)
    = Server.received "c2" second ++ [m].
Proof.
  intros m first second.
  destruct (joining_another_brand_ends_the_subscription Stmt.two_subscribers
              Stmt.world0 "c2" "brandA" "brandB"
              (Server.mkClient "c2" (Server.mkSocket Server.OPEN false []) 1001
                 (Some "brandA") Js.Undefined Js.Undefined)
              m two_subscribers_NoDup eq_refl ltac:(discriminate))
    as [HA HB].
  split; [exact HA|exact (HB eq_refl)].
Defined.



(** X5.  Closing a connection removes it from the registry and from
    nothing else: the other connections and the sessions stay as they are,
    closing again (or closing a connection that is not registered) changes
    nothing, and a later broadcast adds nothing for the closed connection
    while every other connection receives what it would have received
    without the closing. *)
Theorem close_unsubscribes (k : string) (srv : Server.Server) :
  let closed := Server.on_close k srv in
  Server.Map_get k (Server.clients closed) = None
  ∧ (∀ k', k' ≠ k →
       Server.Map_get k' (Server.clients closed)
       = Server.Map_get k' (Server.clients srv))
  ∧ Server.brandSessions closed = Server.brandSessions srv
  ∧ Server.on_close k closed = closed
  ∧ (Server.Map_get k (Server.clients srv) = None → closed = srv)
  ∧ (NoDup (Server.clients srv).*1 →
     ∀ brand m,
       Server.received k (Server.broadcastToBrand brand m closed) = []
       ∧ ∀ k', k' ≠ k →
           Server.received k' (Server.broadcastToBrand brand m closed)
           = Server.received k' (Server.broadcastToBrand brand m srv)).
Proof.
  intros closed. unfold closed, Server.on_close.
  cbn [Server.clients Server.set_clients Server.brandSessions].
  split; [apply Map_get_delete_eq|].
  split; [intros k' Hne; by apply Map_get_delete_ne|].
  split; [done|]. split.
  { unfold Server.set_clients. cbn [Server.clients Server.brandSessions
                                    Server.failures].
    by rewrite (Map_delete_absent k (Server.Map_delete k _))
      by apply Map_get_delete_eq. }
  split.
  { intros H. rewrite Map_delete_absent by done. by destruct srv. }
  intros Hnd brand m.
  assert (NoDup (Server.clients
                   (Server.set_clients
                      (Server.Map_delete k (Server.clients srv)) srv)).*1)
    as Hnd' by (by apply Map_delete_NoDup).
  unfold Server.received.
  rewrite (broadcastToBrand_clients _ _ _ Hnd'),
    (broadcastToBrand_clients _ _ _ Hnd).
  cbn [Server.clients Server.set_clients].
  split; [by rewrite Map_get_fmap, Map_get_delete_eq|].
  intros k' Hne.
  by rewrite !Map_get_fmap, (Map_get_delete_ne k k' _ (not_eq_sym Hne)).
Qed.

Lemma close_unsubscribes_witness :
  let m := Server.welcome "news" in
  let closed := Server.on_close "c2" Stmt.two_subscribers in
  Server.received "c2" (Server.broadcastToBrand "brandA" m closed) = []
  ∧ Server.on_close "gone" Stmt.two_subscribers = Stmt.two_subscribers.
Proof.
  intros m closed.
  destruct (close_unsubscribes "c2" Stmt.two_subscribers)
    as (_ & _ & _ & _ & _ & Hlater).
  destruct (close_unsubscribes "gone" Stmt.two_subscribers)
    as (_ & _ & _ & _ & Habsent & _).
  split.
  - exact (proj1 (Hlater two_subscribers_NoDup "brandA" m)).
  - exact (Habsent eq_refl).
Defined.

(** X6.  [broadcast] sends a frame to every registered connection whose
    socket is open, whatever brand it watches or none: a connection
    receives the frame exactly when its socket is open and takes it.  The
    loop changes no session and registers or removes no connection. *)
Theorem broadcast_reaches_every_open_socket
  (m : Server.Message) (srv : Server.Server) :
  NoDup (Server.clients srv).*1 →
  (∀ k c,
     Server.Map_get k (Server.clients srv) = Some c →
     Server.received k (Server.broadcast m srv)
     = if Obs.accepts c then Server.outbox (Server.ws c) ++ [m]
       else Server.outbox (Server.ws c))
  ∧ (Server.clients (Server.broadcast m srv)).*1 = (Server.clients srv).*1
  ∧ Server.brandSessions (Server.broadcast m srv) = Server.brandSessions srv.
Proof.
  intros Hnd.
  assert (Server.clients (Server.broadcast m srv)
          = prod_map id
              (fun c => if Server.is_OPEN (Server.ws c) && Obs.accepts c
                        then Server.accept m c else c)
              <$> Server.clients srv) as Hclients.
  { apply (send_loop_clients (fun c => Server.is_OPEN (Server.ws c)) m
             (Server.clients srv) [] srv); done. }
  split; [|split].
  - intros k c Hk. unfold Server.received.
    rewrite Hclients, Map_get_fmap, Hk. simpl. unfold Obs.accepts.
    by destruct (Server.is_OPEN (Server.ws c)),
         (Server.failing (Server.ws c)).
  - rewrite Hclients, <- list_fmap_compose.
    apply list_fmap_ext. by intros i [k c] _.
  - apply broadcast_brandSessions.
Qed.

Lemma broadcast_reaches_every_open_socket_witness :
  let m := Server.welcome "news" in
  Server.received "c3" (Server.broadcast m Stmt.two_subscribers) = [m]
  ∧ Server.received "c1" (Server.broadcast m Stmt.two_subscribers) = [].
Proof.
  intros m.
  destruct (broadcast_reaches_every_open_socket m Stmt.two_subscribers
              two_subscribers_NoDup) as (Hall & _).
  split.
  - apply (Hall "c3" (Server.mkClient "c3" (Server.mkSocket Server.OPEN false [])
                        1002 None Js.Undefined Js.Undefined) eq_refl).
  - apply (Hall "c1" (Server.mkClient "c1" (Server.mkSocket Server.OPEN true [])
                        1000 (Some "brandA") Js.Undefined Js.Undefined) eq_refl).
Defined.

(* ===================================================================== *)
(** ** What the events do to the store *)
(* ===================================================================== *)

Section StoreFrame.
Import Js Server Stmt Gateway Obs.

Lemma same_identity_refl s : same_identity s s.
Proof. by repeat split. Qed.

Lemma same_identity_trans s1 s2 s3 :
  same_identity s1 s2 → same_identity s2 s3 → same_identity s1 s3.
Proof.
  intros (? & ? & ? & ? & ? & ?) (? & ? & ? & ? & ? & ?).
  repeat split; congruence.
Qed.

Lemma applySignal_static signal dims w :
  static <$> (applySignal signal dims w).1 = static <$> dims.
Proof.
  unfold applySignal.
  destruct (find signal dims) as [[i d]|] eqn:E; [|done].
  apply find_Some in E as (Hi & _ & _).
  unfold bind, ret. destruct (new_Date w) as [now w']. simpl.
  rewrite list_fmap_insert.
  apply list_insert_id. by rewrite list_lookup_fmap, Hi.
Qed.

Lemma processSignals_identity signals s w :
  same_identity s (processSignals signals s w).1.
Proof.
  unfold processSignals. destruct (non_empty signals);
    [|apply same_identity_refl].
  unfold bind, ret.
  pose proof (foldW_applySignal_invariant
                (fun dims => static <$> dims = static <$> dimensions s)
                (fun signal dims w0 H =>
                   eq_trans (applySignal_static signal dims w0) H)
                (items signals) (dimensions s) w eq_refl) as H.
  destruct (foldW applySignal (items signals) (dimensions s) w) as [dims w1].
  by repeat split.
Qed.

Lemma processContradictions_identity cs s w :
  same_identity s (processContradictions cs s w).1.
Proof.
  unfold processContradictions. destruct (non_empty cs);
    [|apply same_identity_refl].
  unfold bind, ret. destruct (mapW _ _ w). by repeat split.
Qed.

Lemma processGaps_identity gs s w :
  same_identity s (processGaps gs s w).1.
Proof.
  unfold processGaps. destruct (non_empty gs); [|apply same_identity_refl].
  unfold bind, ret. destruct (mapW _ _ w). by repeat split.
Qed.

(** The store after [getOrCreate]: as it was, or with the new session. *)
Lemma getOrCreate_store brand srv w :
  ∃ s0 srv0 w0,
    getOrCreate brand srv w = (s0, srv0, w0)
    ∧ brandSessions srv0 = <[brand := s0]> (brandSessions srv)
    ∧ (brandSessions srv !! brand = Some s0
       ∨ (brandSessions srv !! brand = None
          ∧ s0 = (createBrandSession brand srv w).1.1)).
Proof.
  unfold getOrCreate. destruct (brandSessions srv !! brand) as [s|] eqn:E.
  - exists s, srv, w. unfold ret. split; [done|]. split; [|by left].
    by rewrite insert_id.
  - destruct (createBrandSession_spec brand srv w) as (s & w' & E' & _).
    rewrite E'. eexists _, _, _. split; [done|]. split; [done|]. by right.
Qed.

(** Every event leaves the store as it was, or writes one session: that of
    the brand it names, which keeps its identity. *)
Lemma step_store e srv w :
  brandSessions (step e srv w).1 = brandSessions srv
  ∨ ∃ brand s0 s',
      brand_of e = Some brand
      ∧ (brandSessions srv !! brand = Some s0
         ∨ (brandSessions srv !! brand = None
            ∧ ∃ srv0 w0, s0 = (createBrandSession brand srv0 w0).1.1))
      ∧ same_identity s0 s'
      ∧ brandSessions (step e srv w).1 = <[brand := s']> (brandSessions srv).
Proof.
  destruct e as [fails agent address|k|k state fails|k brand
                |body|body|body|id].
  - left. cbn [step]. unfold on_connection, bind, ret.
    destruct (uuidv4 w) as [k w1]. destruct (new_Date w1) as [t w2].
    cbn [fst]. by rewrite sendToClient_brandSessions.
  - by left.
  - left. cbn [step]. by destruct (Map_get k (clients srv)).
  - cbn [step]. destruct (Map_get k (clients srv)) as [client|] eqn:Hk.
    + right. unfold handleJoinBrand. rewrite Hk. unfold bind, ret.
      set (srv1 := set_clients _ srv).
      destruct (getOrCreate_store brand srv1 w)
        as (s0 & srv0 & w0 & E & Hstore & Hcase).
      rewrite E. cbn [fst]. rewrite sendToClient_brandSessions.
      exists brand, s0, s0. split; [done|]. split.
      { destruct Hcase as [H|[H ->]]; [by left|right].
        split; [done|]. by eexists _, _. }
      split; [apply same_identity_refl|done].
    + left. by rewrite handleJoinBrand_unknown.
  - right. cbn [step]. unfold bind, ret.
    destruct (handleWorkshopData_stored body srv w)
      as (s0 & srv0 & w0 & s1 & w1 & s2 & w2 & s3 & w3
          & E0 & E1 & E2 & E3 & -> & _).
    destruct (getOrCreate_store (w_brandId body) srv w)
      as (s0' & srv0' & w0' & E0' & Hstore & Hcase).
    rewrite E0 in E0'. injection E0' as <- <- <-.
    exists (w_brandId body), s0, s3. split; [done|]. split.
    { destruct Hcase as [H|[H ->]]; [by left|right].
      split; [done|]. by eexists _, _. }
    split.
    { pose proof (processSignals_identity (w_signals body) s0 w0) as H1.
      pose proof (processContradictions_identity (w_contradictions body) s1 w1)
        as H2.
      pose proof (processGaps_identity (w_gaps body) s2 w2) as H3.
      rewrite E1 in H1. rewrite E2 in H2. rewrite E3 in H3.
      eapply same_identity_trans; [exact H1|].
      eapply same_identity_trans; [exact H2|exact H3]. }
    cbn [fst snd]. rewrite broadcastToBrand_brandSessions.
    unfold store. cbn [brandSessions set_brandSessions].
    by rewrite Hstore, insert_insert_eq.
  - right. cbn [step]. unfold bind, ret.
    destruct (handleCognitiveState_stored body srv w)
      as (s0 & srv0 & w0 & cs & E0 & _ & -> & _).
    destruct (getOrCreate_store (c_brandId body) srv w)
      as (s0' & srv0' & w0' & E0' & Hstore & Hcase).
    rewrite E0 in E0'. injection E0' as <- <- <-.
    exists (c_brandId body), s0, (set_cognitiveState cs s0).
    split; [done|]. split.
    { destruct Hcase as [H|[H ->]]; [by left|right].
      split; [done|]. by eexists _, _. }
    split; [by repeat split|].
    cbn [fst snd]. rewrite broadcastToBrand_brandSessions.
    unfold store. cbn [brandSessions set_brandSessions].
    by rewrite Hstore, insert_insert_eq.
  - left. cbn [step]. unfold bind, ret. rewrite handleRefinementDialogue_eq.
    cbn [fst snd]. apply broadcastToBrand_brandSessions.
  - right. cbn [step]. unfold getBrandState, bind, ret.
    destruct (getOrCreate_store id srv w)
      as (s0 & srv0 & w0 & E & Hstore & Hcase).
    rewrite E. cbn [fst]. exists id, s0, s0. split; [done|]. split.
    { destruct Hcase as [H|[H ->]]; [by left|right].
      split; [done|]. by eexists _, _. }
    split; [apply same_identity_refl|done].
Qed.

Lemma run_cons e events srv w :
  run (e :: events) srv w = run events (step e srv w).1 (step e srv w).2.
Proof. unfold run. simpl. unfold bind. by destruct (step e srv w). Qed.

(** What [createBrandSession] fixes for good. *)
Lemma createBrandSession_identity brand srv w :
  let s := (createBrandSession brand srv w).1.1 in
  session_id s = brand
  ∧ session_name s = String.append "Brand " (String.substring 0 8 brand)
  ∧ connections s = generateInitialConnections
  ∧ metrics s = mkMetrics 0.84 "moderate" 0.78
  ∧ static <$> dimensions s
    = static <$> (generateInitialDimensions world0).1.
Proof. by repeat split. Qed.

End StoreFrame.

(** X7.  A session is changed only by events that name its brand:
    through any sequence of events none of which names the brand, the
    entry of the store for that brand stays exactly as it was (present and
    unchanged, or absent). *)
Theorem events_change_only_their_brand
  (events : list Server.Event) (srv : Server.Server) (w : World)
  (other : string) :
  Forall (fun e => Obs.brand_of e ≠ Some other) events →
  Server.brandSessions (Server.run events srv w).1 !! other
  = Server.brandSessions srv !! other.
Proof.
  revert srv w. induction events as [|e events IH]; intros srv w Hall; [done|].
  apply Forall_cons in Hall as [He Hall].
  rewrite run_cons, IH by done.
  destruct (step_store e srv w) as [->|(brand & s0 & s' & Hb & _ & _ & ->)];
    [done|].
  apply lookup_insert_ne. congruence.
Qed.

Lemma events_change_only_their_brand_witness :
  let srv := (Server.getBrandState "demo" Server.constructor Stmt.world0).1.2 in
  Server.brandSessions
    (Server.run
       [ Server.post_workshop
           (Server.mkWorkshopBody "other"
              (Some [Server.mkSignal (Some "market_position") (Js.Num 0.9)])
              None None);
         Server.join_brand "c1" "other";
         Server.close "c1" ]
       srv Stmt.world0).1 !! "demo"
  = Server.brandSessions srv !! "demo".
Proof.
  intros srv. apply events_change_only_their_brand.
  repeat constructor; discriminate.
Defined.

(** X8.  No event removes a session or changes what identifies it: a
    session that is in the store stays in the store through any sequence
    of events, with its id, name and creation date, its connections and
    metrics, and the names, depths, colours, viscosities and refractions
    of its attributes as they were. *)
Theorem sessions_persist
  (events : list Server.Event) (srv : Server.Server) (w : World)
  (k : string) (s : Server.Session) :
  Server.brandSessions srv !! k = Some s →
  ∃ s', Server.brandSessions (Server.run events srv w).1 !! k = Some s'
        ∧ Obs.same_identity s s'.
Proof.
  revert srv w s. induction events as [|e events IH]; intros srv w s Hs.
  { exists s. split; [done|apply same_identity_refl]. }
  rewrite run_cons.
  assert (∃ s1, Server.brandSessions (Server.step e srv w).1 !! k = Some s1
                ∧ Obs.same_identity s s1) as (s1 & Hs1 & Hid1).
  { destruct (step_store e srv w)
      as [->|(brand & s0 & s' & _ & Hcase & Hid & ->)].
    - exists s. split; [done|apply same_identity_refl].
    - destruct (decide (brand = k)) as [->|Hne].
      + exists s'. split; [apply lookup_insert_eq|].
        destruct Hcase as [H|[H _]]; congruence.
      + exists s. split; [by rewrite lookup_insert_ne|].
        apply same_identity_refl. }
  destruct (IH _ (Server.step e srv w).2 s1 Hs1) as (s' & Hs' & Hid').
  exists s'. split; [done|]. by eapply same_identity_trans.
Qed.

Lemma sessions_persist_witness :
  let s :=
    Server.mkSession "demo" "Brand demo" 1000
      (Server.generateInitialDimensions Stmt.world0).1
      Server.generateInitialConnections [] []
      (Server.mkCognitiveState (Js.Num 0.7) (Js.Num 0.7) (Js.Num 0.75)
         Js.Undefined Js.Undefined)
      (Server.mkMetrics 0.84 "moderate" 0.78) in
  let events :=
    [ Server.post_workshop
        (Server.mkWorkshopBody "demo"
           (Some [Server.mkSignal (Some "market_position") (Js.Num 0.9)])
           (Some [Js.Obj [("conflictType", Js.Str "positioning")]]) None);
      Server.post_cognitive
        (Server.mkCognitiveBody "demo" (Js.Num 0.9) Js.Undefined Js.Undefined
           Js.Undefined) ] in
  ∃ s', Server.brandSessions
          (Server.run events (Server.store "demo" s Server.constructor)
             Stmt.world0).1 !! "demo" = Some s'
        ∧ Server.createdAt s' = 1000
        ∧ Server.connections s' = Server.generateInitialConnections.
Proof.
  intros s events.
  destruct (sessions_persist events (Server.store "demo" s Server.constructor)
              Stmt.world0 "demo" s (lookup_insert_eq _ _ _))
    as (s' & Hs' & _ & _ & Hc & Hconn & _).
  exists s'. split; [exact Hs'|]. split; [exact Hc|exact Hconn].
Defined.

(** X9.  In the store of a server, whatever has reached it since its
    construction, the session kept under a key has that key as its id and
    "Brand " followed by the first eight characters of the key as its
    name; it has the three initial connections and the initial metrics,
    and its attributes are the seven initial ones, in order, with their
    initial name, depth, colour, viscosity and refraction. *)
Theorem stored_sessions_are_keyed_by_their_id
  (events : list Server.Event) (w : World) (k : string)
  (s : Server.Session) :
  Server.brandSessions (Server.run events Server.constructor w).1 !! k
  = Some s →
  Server.session_id s = k
  ∧ Server.session_name s = String.append "Brand " (String.substring 0 8 k)
  ∧ Server.connections s = Server.generateInitialConnections
  ∧ Server.metrics s = Server.mkMetrics 0.84 "moderate" 0.78
  ∧ Obs.static <$> Server.dimensions s
    = Obs.static <$> (Server.generateInitialDimensions Stmt.world0).1.
Proof.
  set (Q := fun (k : string) (s : Server.Session) =>
              Server.session_id s = k
              ∧ Server.session_name s
                = String.append "Brand " (String.substring 0 8 k)
              ∧ Server.connections s = Server.generateInitialConnections
              ∧ Server.metrics s = Server.mkMetrics 0.84 "moderate" 0.78
              ∧ Obs.static <$> Server.dimensions s
                = Obs.static <$> (Server.generateInitialDimensions Stmt.world0).1).
  assert (∀ k s s', Q k s → Obs.same_identity s s' → Q k s') as Hkeep.
  { intros k0 s0 s' (? & ? & ? & ? & ?) (? & ? & ? & ? & ? & ?).
    repeat split; congruence. }
  assert (∀ srv w0,
            map_Forall Q (Server.brandSessions srv) →
            map_Forall Q (Server.brandSessions (Server.run events srv w0).1))
    as Hrun.
  { induction events as [|e events IH]; intros srv w0 Hinv; [done|].
    rewrite run_cons. apply IH.
    destruct (step_store e srv w0)
      as [->|(brand & s0 & s' & _ & Hcase & Hid & ->)]; [done|].
    apply map_Forall_insert_2; [|done].
    apply (Hkeep brand s0); [|done].
    destruct Hcase as [H|[_ (srv0 & w1 & ->)]].
    - by apply (Hinv brand).
    - apply createBrandSession_identity. }
  intros Hs. apply (Hrun Server.constructor w (map_Forall_empty _) k s Hs).
Qed.

Lemma stored_sessions_are_keyed_by_their_id_witness :
  ∃ s, Server.brandSessions
         (Server.run [Server.get_state "demo-brand-x1"] Server.constructor
            Stmt.world0).1 !! "demo-brand-x1" = Some s
       ∧ Server.session_name s = "Brand demo-bra".
Proof.
  assert (is_Some (Server.brandSessions
                     (Server.run [Server.get_state "demo-brand-x1"]
                        Server.constructor Stmt.world0).1 !! "demo-brand-x1"))
    as [s Hs] by (vm_compute; eauto).
  exists s. split; [exact Hs|].
  by destruct (stored_sessions_are_keyed_by_their_id _ _ _ _ Hs) as (_ & -> & _).
Defined.

(* ===================================================================== *)
(** ** A batch of signals, attribute by attribute *)
(* ===================================================================== *)

Section Batch.
Import Js Server Stmt Gateway Obs.

Lemma matchesSignal_name signal d1 d2 :
  name d1 = name d2 → matchesSignal signal d1 = matchesSignal signal d2.
Proof. intros H. unfold matchesSignal. by rewrite H. Qed.

Lemma find_from_names signal dims1 :
  ∀ dims2 k,
    name <$> dims1 = name <$> dims2 →
    fst <$> find_from k signal dims1 = fst <$> find_from k signal dims2.
Proof.
  induction dims1 as [|d1 dims1 IH]; intros [|d2 dims2] k H; try done.
  injection H as Hn H. simpl.
  rewrite (matchesSignal_name signal d1 d2 Hn).
  destruct (matchesSignal signal d2); [done|]. by apply IH.
Qed.

(** Which attribute a signal updates depends on the names only. *)
Lemma target_names signal dims1 dims2 :
  name <$> dims1 = name <$> dims2 → target dims1 signal = target dims2 signal.
Proof. intros H. by apply find_from_names. Qed.

Lemma hits_names dims1 dims2 i signals :
  name <$> dims1 = name <$> dims2 → hits dims1 i signals = hits dims2 i signals.
Proof.
  intros H. unfold hits. apply List.filter_ext. intros signal.
  by rewrite (target_names signal dims1 dims2 H).
Qed.

Lemma matched_names dims1 dims2 signals :
  name <$> dims1 = name <$> dims2 → matched dims1 signals = matched dims2 signals.
Proof.
  intros H. unfold matched. apply List.filter_ext. intros signal.
  by rewrite (target_names signal dims1 dims2 H).
Qed.

Lemma last_cons_default {A} (x y : A) (l : list A) :
  default y (last (x :: l)) = default x (last l).
Proof.
  destruct l as [|a l]; [done|].
  change (last (x :: a :: l)) with (last (a :: l)).
  destruct (last (a :: l)) eqn:E; [done|]. by apply last_None in E.
Qed.

Lemma applySignal_eq signal dims w :
  applySignal signal dims w
  = match find signal dims with
    | Some (j, dj) =>
        (<[j:=touch signal (clock w (clock_reads w)) dj]> dims, later 1 0 w)
    | None => (dims, w)
    end.
Proof.
  unfold applySignal. destruct (find signal dims) as [[j dj]|]; [|done].
  unfold bind, ret. by rewrite new_Date_eq.
Qed.

Lemma foldW_applySignal_attribute signals :
  ∀ dims w i d,
    dims !! i = Some d →
    ∃ d',
      (foldW applySignal signals dims w).1 !! i = Some d'
      ∧ static d' = static d
      ∧ coherence d'
        = Nat.iter (length (hits dims i signals)) clamp (coherence d)
      ∧ signalStrength d'
        = default (signalStrength d) (last (confidence <$> hits dims i signals))
      ∧ (hits dims i signals = [] → d' = d).
Proof.
  induction signals as [|signal signals IH]; intros dims w i d Hi.
  { exists d. by repeat split. }
  cbn [foldW]. unfold bind.
  pose proof (applySignal_names signal dims w) as Hnames.
  unfold hits. cbn [List.filter]. fold (hits dims i signals).
  change (target dims signal) with (fst <$> find signal dims).
  rewrite applySignal_eq in *.
  destruct (find signal dims) as [[j dj]|] eqn:E.
  - apply find_Some in E as (Hj & _ & _).
    cbn [fst snd] in *. cbn [fmap option_fmap option_map fst].
    rewrite <- (hits_names _ _ i signals Hnames).
    destruct (decide (j = i)) as [->|Hne].
    + rewrite bool_decide_eq_true_2 by done.
      assert (dj = d) as -> by congruence.
      set (now := clock w (clock_reads w)) in *.
      destruct (IH (<[i:=touch signal now d]> dims) (later 1 0 w) i
                  (touch signal now d))
        as (d' & Hd' & Hst & Hco & Hss & _).
      { apply list_lookup_insert_eq. by apply lookup_lt_Some in Hi. }
      exists d'. split; [done|]. split; [done|]. split.
      { rewrite Hco. cbn [length]. by rewrite Nat.iter_succ_r. }
      split; [|done].
      rewrite Hss. cbn [fmap list_fmap]. by rewrite last_cons_default.
    + rewrite bool_decide_eq_false_2 by congruence.
      apply IH. by rewrite list_lookup_insert_ne.
  - cbn [fst snd fmap option_fmap option_map] in *.
    rewrite bool_decide_eq_false_2 by done. by apply IH.
Qed.

Lemma foldW_applySignal_reads signals :
  ∀ dims w,
    (foldW applySignal signals dims w).2
    = later (length (matched dims signals)) 0 w.
Proof.
  induction signals as [|signal signals IH]; intros dims w.
  { simpl. unfold ret. by rewrite later_0. }
  cbn [foldW]. unfold bind.
  pose proof (applySignal_names signal dims w) as Hnames.
  unfold matched. cbn [List.filter]. fold (matched dims signals).
  change (target dims signal) with (fst <$> find signal dims).
  rewrite applySignal_eq in *.
  destruct (find signal dims) as [[j dj]|] eqn:E.
  - cbn [fst snd] in *. cbn [fmap option_fmap option_map].
    rewrite bool_decide_eq_true_2 by (by eexists).
    rewrite IH, (matched_names _ _ signals Hnames), later_later. done.
  - cbn [fst snd fmap option_fmap option_map] in *.
    rewrite bool_decide_eq_false_2 by (by intros [? ?]). apply IH.
Qed.

Lemma foldW_applySignal_length signals :
  ∀ dims w, length (foldW applySignal signals dims w).1 = length dims.
Proof.
  intros dims w.
  pose proof (foldW_applySignal_invariant
                (fun l => name <$> l = name <$> dims)
                (fun signal l w0 H => eq_trans (applySignal_names signal l w0) H)
                signals dims w eq_refl) as H.
  apply (f_equal length) in H. by rewrite !length_fmap in H.
Qed.

End Batch.

(** X10.  A batch of signals acts on each attribute separately.  Which
    attribute a signal updates is decided by the attribute names alone, so
    it does not depend on the signals applied before it.  After the batch,
    an attribute that was updated by [n] signals of the batch has had its
    coherence stepped [n] times by [min(c + 0.05, 1.0)] and carries the
    confidence of the last of them as signal strength; an attribute that
    no signal of the batch updates is exactly as it was.  The batch keeps
    the number and the static part of the attributes and every other field
    of the session, and reads the clock once per signal that updates an
    attribute: signals that match nothing are dropped without a trace. *)
Theorem signals_act_attribute_by_attribute
  (signals : option (list Server.Signal)) (s : Server.Session) (w : World) :
  let after := (Server.processSignals signals s w).1 in
  let batch := Server.items signals in
  (∀ i d,
     Server.dimensions s !! i = Some d →
     ∃ d',
       Server.dimensions after !! i = Some d'
       ∧ Obs.static d' = Obs.static d
       ∧ Server.coherence d'
         = Nat.iter (length (Obs.hits (Server.dimensions s) i batch))
             Obs.clamp (Server.coherence d)
       ∧ Server.signalStrength d'
         = default (Server.signalStrength d)
             (last (Server.confidence
                      <$> Obs.hits (Server.dimensions s) i batch))
       ∧ (Obs.hits (Server.dimensions s) i batch = [] → d' = d))
  ∧ length (Server.dimensions after) = length (Server.dimensions s)
  ∧ after = Server.set_dimensions (Server.dimensions after) s
  ∧ (Server.processSignals signals s w).2
    = Stmt.later (length (Obs.matched (Server.dimensions s) batch)) 0 w.
Proof.
  intros after batch. subst after batch. unfold Server.processSignals.
  destruct signals as [[|signal signals]|]; cbn [Server.non_empty Server.items].
  - unfold ret. cbn [fst snd]. split; [|split; [|split]].
    + intros i d Hi. exists d. by repeat split.
    + done.
    + by destruct s.
    + by rewrite later_0.
  - unfold bind, ret.
    pose proof (foldW_applySignal_attribute (signal :: signals)
                  (Server.dimensions s) w) as Hattr.
    pose proof (foldW_applySignal_reads (signal :: signals)
                  (Server.dimensions s) w) as Hreads.
    pose proof (foldW_applySignal_length (signal :: signals)
                  (Server.dimensions s) w) as Hlen.
    destruct (foldW Server.applySignal (signal :: signals)
                (Server.dimensions s) w) as [dims w1].
    cbn [fst snd] in *. by repeat split.
  - unfold ret. cbn [fst snd]. split; [|split; [|split]].
    + intros i d Hi. exists d. by repeat split.
    + done.
    + by destruct s.
    + by rewrite later_0.
Qed.

Lemma signals_act_attribute_by_attribute_witness :
  let dims := (Server.generateInitialDimensions Stmt.world0).1 in
  let s :=
    Server.mkSession "demo" "Brand demo" 1000 dims
      Server.generateInitialConnections [] []
      (Server.mkCognitiveState (Js.Num 0.7) (Js.Num 0.7) (Js.Num 0.75)
         Js.Undefined Js.Undefined)
      (Server.mkMetrics 0.84 "moderate" 0.78) in
  let batch :=
    [ Server.mkSignal (Some "brand_narrative") (Js.Num 0.9);
      Server.mkSignal (Some "pricing") (Js.Num 0.3);
      Server.mkSignal (Some "NARRATIVE") (Js.Num 0.6) ] in
  let after := (Server.processSignals (Some batch) s Stmt.world0).1 in
  (∃ d', Server.dimensions after !! 2 = Some d'
         ∧ Server.coherence d' = Obs.clamp (Obs.clamp 0.75)
         ∧ Server.signalStrength d' = Js.Num 0.6)
  ∧ Server.dimensions after !! 0 = dims !! 0.
Proof.
  intros dims s batch after.
  destruct (signals_act_attribute_by_attribute (Some batch) s Stmt.world0)
    as (Hattr & _).
  split.
  - destruct (Hattr 2 (Server.mkDimension "brand_narrative" 0.82 0.75 0xFF9800
                         0.9 1.54 (Js.Num 0.82) 1002) eq_refl)
      as (d' & Hd' & _ & Hco & Hss & _).
    exists d'. split; [exact Hd'|]. split; [exact Hco|exact Hss].
  - destruct (Hattr 0 (Server.mkDimension "market_position" 0.85 0.92 0x2196F3
                         0.8 1.52 (Js.Num 0.85) 1000) eq_refl)
      as (d' & Hd' & _ & _ & _ & Hsame).
    fold after in Hd'. rewrite Hd'. by rewrite (Hsame eq_refl).
Defined.

(* ===================================================================== *)
(** ** What the update frames carry *)
(* ===================================================================== *)

Section Frames.
Import Js Server Stmt.

Lemma getOrCreate_clients_eq brand srv w s0 srv0 w0 :
  getOrCreate brand srv w = (s0, srv0, w0) → clients srv0 = clients srv.
Proof.
  intros E.
  destruct (getOrCreate_stored brand srv w) as (s & srv1 & w1 & E' & _ & H & _).
  congruence.
Qed.


End Frames.



(** X12.  A cognitive-state update replaces the whole cognitive state of
    the session: each of [analytical], [intuitive], [efficiency] and
    [context] is stored as sent when the sent value is truthy, whatever
    its type or range, and is otherwise set to [0.7], [0.7], [0.75] or the
    empty object, whatever the session held before; [lastUpdate] is a date
    read at the update.  The rest of the session is untouched, and the
    [cognitive_update] frame that the subscribers with an open, accepting
    socket receive carries exactly the state that is stored.  The registry
    has no repeated ids. *)
Theorem cognitive_update_replaces_the_state
  (body : Server.CognitiveBody) (srv : Server.Server) (w : World) :
  NoDup (Server.clients srv).*1 →
  let brand := Server.c_brandId body in
  let before := (Server.getOrCreate brand srv w).1.1 in
  let after := (Server.handleCognitiveState body srv w).1.2 in
  ∃ stored t,
    Server.brandSessions after !! brand = Some stored
    ∧ Server.analytical (Server.cognitiveState stored)
      = (if Js.truthy (Server.c_analytical body)
         then Server.c_analytical body else Js.Num 0.7)
    ∧ Server.intuitive (Server.cognitiveState stored)
      = (if Js.truthy (Server.c_intuitive body)
         then Server.c_intuitive body else Js.Num 0.7)
    ∧ Server.efficiency (Server.cognitiveState stored)
      = (if Js.truthy (Server.c_efficiency body)
         then Server.c_efficiency body else Js.Num 0.75)
    ∧ Server.context (Server.cognitiveState stored)
      = (if Js.truthy (Server.c_context body)
         then Server.c_context body else Js.Obj [])
    ∧ Server.lastUpdate (Server.cognitiveState stored) = Js.Date t
    ∧ stored = Server.set_cognitiveState (Server.cognitiveState stored) before
    ∧ (∀ k c,
         Server.Map_get k (Server.clients srv) = Some c →
         Server.received k after
         = if Server.watches brand c && Server.is_OPEN (Server.ws c)
              && negb (Server.failing (Server.ws c))
           then Server.outbox (Server.ws c)
                ++ [Server.cognitive_update brand
                      (Server.cognitiveState stored)]
           else Server.outbox (Server.ws c)).
Proof.
  intros Hnd brand before after. subst brand before after.
  destruct (handleCognitiveState_stored body srv w)
    as (s0 & srv0 & w0 & cs & E0 & Hcs & Heq & _).
  pose proof (getOrCreate_clients_eq _ _ _ _ _ _ E0) as Hcl.
  rewrite Heq, E0. cbn [fst snd].
  exists (Server.set_cognitiveState cs s0), (clock w0 (clock_reads w0)).
  split.
  { rewrite broadcastToBrand_brandSessions. unfold Server.store.
    cbn [Server.brandSessions Server.set_brandSessions].
    by rewrite lookup_insert_eq. }
  subst cs.
  split; [done|]. split; [done|]. split; [done|]. split; [done|].
  split; [done|]. split; [done|].
  assert (Server.clients
            (Server.store (Server.c_brandId body)
               (Server.set_cognitiveState
                  (Server.mkCognitiveState
                     (Js.or_else (Server.c_analytical body) (Js.Num 0.7))
                     (Js.or_else (Server.c_intuitive body) (Js.Num 0.7))
                     (Js.or_else (Server.c_efficiency body) (Js.Num 0.75))
                     (Js.Date (clock w0 (clock_reads w0)))
                     (Js.or_else (Server.c_context body) (Js.Obj [])))
                  s0) srv0)
          = Server.clients srv) as Hcl' by exact Hcl.
  intros k c Hk. apply broadcastToBrand_received; by rewrite Hcl'.
Qed.

Lemma cognitive_update_replaces_the_state_witness :
  let first := Server.mkCognitiveBody "brandA" (Js.Num 5) (Js.Str "high")
                 (Js.Num 0.2) (Js.Obj [("phase", Js.Str "explore")]) in
  let second := Server.mkCognitiveBody "brandA" Js.Undefined (Js.Num 0)
                  (Js.Num 0.4) Js.Undefined in
  let r1 := Server.handleCognitiveState first Stmt.two_subscribers Stmt.world0 in
  (∃ stored,
     Server.brandSessions r1.1.2 !! "brandA" = Some stored
     ∧ Server.analytical (Server.cognitiveState stored) = Js.Num 5
     ∧ Server.intuitive (Server.cognitiveState stored) = Js.Str "high")
  ∧ (∃ stored,
       Server.brandSessions (Server.handleCognitiveState second r1.1.2 r1.2).1.2
         !! "brandA" = Some stored
       ∧ Server.analytical (Server.cognitiveState stored) = Js.Num 0.7
       ∧ Server.intuitive (Server.cognitiveState stored) = Js.Num 0.7
       ∧ Server.efficiency (Server.cognitiveState stored) = Js.Num 0.4
       ∧ Server.context (Server.cognitiveState stored) = Js.Obj []).
Proof.
  intros first second r1. split.
  - destruct (cognitive_update_replaces_the_state first
                Stmt.two_subscribers Stmt.world0)
      as (stored & t & Hst & Ha & Hi & _).
    { exact two_subscribers_NoDup. }
    exists stored. split; [exact Hst|]. split; [exact Ha|exact Hi].
  - destruct (cognitive_update_replaces_the_state second r1.1.2 r1.2)
      as (stored & t & Hst & Ha & Hi & He & Hc & _).
    { apply (bool_decide_unpack _). by vm_compute. }
    exists stored. split; [exact Hst|].
    split; [exact Ha|]. split; [exact Hi|]. split; [exact He|exact Hc].
Defined.

(* ===================================================================== *)
(** ** The request handler of the serverless endpoint *)
(* ===================================================================== *)

Section Routing.
Import Js Stmt Gateway Router Shape.

Lemma replace_eq pattern s :
  replace pattern s
  = if String.prefix pattern s then skip (String.length pattern) s
    else match s with
         | EmptyString => EmptyString
         | String c t => String c (replace pattern t)
         end.
Proof. by destruct s. Qed.

Lemma prefix_append p s : String.prefix p (p +:+ s) = true.
Proof.
  induction p as [|a p IH]; simpl; [by destruct s|].
  by destruct (ascii_dec a a).
Qed.

Lemma skip_append p s : skip (String.length p) (p +:+ s) = s.
Proof. induction p as [|a p IH]; simpl; done. Qed.

(** A pattern at the start of the text is the occurrence that is cut. *)
Lemma replace_prefix p s : replace p (p +:+ s) = s.
Proof. rewrite replace_eq, prefix_append. apply skip_append. Qed.

(** A pattern that does not occur leaves the text as it is. *)
Lemma replace_absent p s : includes s p = false → replace p s = s.
Proof.
  induction s as [|c t IH]; cbn [includes];
    intros [H1 H2]%orb_false_iff; rewrite replace_eq, H1; [done|].
  by rewrite IH.
Qed.

Lemma part_is_Some part text : part_is part text = true ↔ part = Some text.
Proof.
  destruct part as [p|]; simpl; [|done].
  rewrite String.eqb_eq. split; congruence.
Qed.

Lemma pathParts_nonempty url i part :
  pathParts url !! i = Some part → part ≠ "".
Proof.
  intros H%list_elem_of_lookup_2%list_elem_of_In. unfold pathParts in H.
  apply List.filter_In in H as [_ H]. by intros ->.
Qed.

Lemma createBrandSession_world brand w :
  (Serverless.createBrandSession brand w).2 = later 2 0 w.
Proof.
  unfold Serverless.createBrandSession, bind, ret, new_Date, later. simpl.
  f_equal; lia.
Qed.

Lemma createBrandSession_session brand w :
  (Serverless.createBrandSession brand w).1
  = Serverless.mkSession brand (clock w (clock_reads w))
      (clock w (clock_reads w + 1))
      [ Serverless.mkDimension "market_position" 0.5 0.7 [];
        Serverless.mkDimension "value_proposition" 0.6 0.8 [];
        Serverless.mkDimension "emotional_landscape" 0.4 0.6 [];
        Serverless.mkDimension "brand_narrative" 0.7 0.9 [];
        Serverless.mkDimension "target_audience" 0.3 0.5 [];
        Serverless.mkDimension "competitive_differentiation" 0.5 0.6 [] ]
      [] []
      (Serverless.mkCognitiveState (Num 0.5) (Num 0.5) (Num 0.7) Undefined)
      [].
Proof.
  unfold Serverless.createBrandSession, bind, ret. by rewrite !new_Date_eq.
Qed.

(** *** Which route answers *)

Lemma handler_brand req w :
  gets_brand_state req →
  handler req w = brand_route (pathParts (url req)) w.
Proof.
  intros (Hm & H0 & H2). unfold handler, routes. by rewrite Hm, H0, H2.
Qed.

Lemma handler_workshop req w :
  posts_to req "workshop" "process" →
  handler req w = workshop_route (body req) w.
Proof.
  intros (Hm & H0 & H1). unfold handler, routes. by rewrite Hm, H0, H1.
Qed.

Lemma handler_cognitive req w :
  posts_to req "ai" "cognitive-state" →
  handler req w = cognitive_route (body req) w.
Proof.
  intros (Hm & H0 & H1). unfold handler, routes. by rewrite Hm, H0, H1.
Qed.

Lemma handler_dialogue req w :
  posts_to req "refinement" "dialogue" →
  handler req w = dialogue_route (body req) w.
Proof.
  intros (Hm & H0 & H1). unfold handler, routes. by rewrite Hm, H0, H1.
Qed.

Lemma nested_if {A} (a b : bool) (x : A) :
  (if a then if b then Some x else None else None)
  = if a && b then Some x else None.
Proof. by destruct a, b. Qed.

Lemma block_taken req first second :
  part_is (pathParts (url req) !! 0) first
  && (String.eqb (method req) "POST"
      && part_is (pathParts (url req) !! 1) second) = true
  ↔ posts_to req first second.
Proof.
  unfold posts_to.
  rewrite !andb_true_iff, !part_is_Some, String.eqb_eq. tauto.
Qed.

Lemma brand_block_taken req :
  part_is (pathParts (url req) !! 0) "brand"
  && (String.eqb (method req) "GET"
      && part_is (pathParts (url req) !! 2) "state") = true
  ↔ gets_brand_state req.
Proof.
  unfold gets_brand_state.
  rewrite !andb_true_iff, !part_is_Some, String.eqb_eq. tauto.
Qed.

(** *** What the routes answer *)

Lemma brand_route_eq parts w p1 :
  parts !! 1 = Some p1 → p1 ≠ "" →
  brand_route parts w
  = (brand_state (Str p1) (Serverless.createBrandSession (Str p1) w).1,
     later 2 0 w).
Proof.
  intros H1 Hne. unfold brand_route. rewrite H1. cbn [from_option].
  assert (or_else (Str p1) (Str "demo-brand") = Str p1) as ->.
  { unfold or_else, truthy. by apply String.eqb_neq in Hne as ->. }
  unfold bind, ret.
  pose proof (createBrandSession_world (Str p1) w) as Hw.
  destruct (Serverless.createBrandSession (Str p1) w) as [s w1].
  cbn [fst snd] in *. by subst.
Qed.

Lemma brand_route_status parts w : status (brand_route parts w).1 = 200.
Proof.
  unfold brand_route, bind, ret.
  by destruct (Serverless.createBrandSession _ w).
Qed.

Lemma workshop_route_status body w :
  status (workshop_route body w).1 ≠ 404.
Proof.
  unfold workshop_route, bind, ret.
  destruct (nullish body); [done|].
  destruct (negb _); [done|].
  destruct (Serverless.createBrandSession _ w) as [s w1].
  destruct (processSignals _ _); [|done].
  destruct (iterate _); [|done]. destruct (iterate _); [|done].
  by destruct (new_Date w1).
Qed.

Lemma cognitive_route_eq body w :
  nullish body = false →
  cognitive_route body w
  = if truthy (field "brandId" body)
    then (cognitive_updated (field "brandId" body)
            (Serverless.cognitiveState
               (Serverless.mergeCognitiveState
                  (Serverless.mkCognitiveBody (field "brandId" body)
                     (field "analytical" body) (field "intuitive" body)
                     (field "efficiency" body) (field "context" body))
                  (Serverless.createBrandSession (field "brandId" body) w).1)),
          later 3 0 w)
    else (brand_required, w).
Proof.
  intros Hb. unfold cognitive_route. rewrite Hb. unfold bind at 1.
  destruct (truthy (field "brandId" body)) eqn:E.
  - by rewrite cognitive_state_route_eq.
  - unfold Serverless.cognitive_state_route. cbn [Serverless.c_brandId].
    by rewrite E.
Qed.

Lemma dialogue_route_cases body w :
  nullish body = false →
  if truthy (field "brandId" body)
  then ∃ entry w', dialogue_route body w
                   = (dialogue_added (field "brandId" body) entry, w')
  else dialogue_route body w = (brand_required, w).
Proof.
  intros Hb. unfold dialogue_route. rewrite Hb. unfold bind at 1.
  unfold Serverless.dialogue_route. cbn [Serverless.d_brandId].
  destruct (truthy (field "brandId" body)) eqn:E; cbn [negb]; [|done].
  unfold bind, ret.
  destruct (Serverless.createBrandSession _ w) as [s w1].
  destruct (Serverless.appendDialogue _ s w1) as [[entry s'] w2].
  by eexists _, _.
Qed.

(** *** The signals of the workshop route *)

Lemma matches_malformed signal d :
  malformed signal = true → matches signal d = thrown.
Proof.
  unfold malformed, matches. destruct (nullish signal); [done|]. simpl.
  by destruct (field "category" signal).
Qed.

Lemma matches_readable signal d :
  malformed signal = false → ∃ b, matches signal d = returned b.
Proof.
  unfold malformed, matches. destruct (nullish signal); [done|]. simpl.
  destruct (field "category" signal); try done; by eexists.
Qed.

Lemma find_from_readable signal dims :
  malformed signal = false →
  ∀ i, ∃ r, find_from i signal dims = returned r.
Proof.
  intros H. induction dims as [|d dims IH]; intros i; simpl.
  - by eexists.
  - destruct (matches_readable signal d H) as [[|] ->]; [by eexists|].
    apply IH.
Qed.

Lemma touch_sound signal d : sound d → sound (touch signal d).
Proof.
  intros [Hc Hs]. split.
  - unfold touch. cbn [coherence].
    apply Math_min_le_1, add_0_05_not_nan, (leb_not_nan _ 1), Hc.
  - unfold touch. cbn [signalStrength]. unfold or_else.
    by destruct (truthy (field "confidence" signal)) eqn:E.
Qed.

Lemma alter_touch_names signal (i : nat) (dims : list Dimension) :
  name <$> alter (touch signal) i dims = name <$> dims.
Proof.
  revert i. induction dims as [|d dims IH]; intros [|i]; try done.
  change (name <$> alter (touch signal) (S i) (d :: dims))
    with (name d :: (name <$> alter (touch signal) i dims)).
  by rewrite IH.
Qed.

Lemma applySignal_readable signal dims :
  malformed signal = false →
  ∃ dims', applySignal signal dims = returned dims'
           ∧ name <$> dims' = name <$> dims
           ∧ (Forall sound dims → Forall sound dims').
Proof.
  intros H. unfold applySignal, find.
  destruct (find_from_readable signal dims H 0) as [[i|] ->].
  - eexists. split; [done|]. split; [apply alter_touch_names|].
    intros Hs. apply Forall_alter; [done|].
    intros d _ Hd. by apply touch_sound.
  - by eexists.
Qed.

Lemma applySignal_malformed signal dims :
  dims ≠ [] → malformed signal = true → applySignal signal dims = thrown.
Proof.
  intros Hne H. destruct dims as [|d dims]; [done|].
  unfold applySignal, find. simpl. by rewrite (matches_malformed signal d H).
Qed.

Lemma forEach_readable signals :
  ∀ dims,
    forallb (fun signal => negb (malformed signal)) signals = true →
    ∃ dims', forEach signals dims = returned dims'
             ∧ name <$> dims' = name <$> dims
             ∧ (Forall sound dims → Forall sound dims').
Proof.
  induction signals as [|signal signals IH]; intros dims H; simpl in *.
  - by eexists.
  - apply andb_true_iff in H as [H1%negb_true_iff H2].
    destruct (applySignal_readable signal dims H1) as (d1 & -> & Hn1 & Hs1).
    destruct (IH d1 H2) as (d2 & -> & Hn2 & Hs2).
    exists d2. split; [done|]. split; [congruence|]. auto.
Qed.

Lemma forEach_malformed signals :
  ∀ dims,
    dims ≠ [] →
    forallb (fun signal => negb (malformed signal)) signals = false →
    forEach signals dims = thrown.
Proof.
  induction signals as [|signal signals IH]; intros dims Hne H; simpl in *.
  - done.
  - destruct (malformed signal) eqn:E.
    + by rewrite applySignal_malformed.
    + destruct (applySignal_readable signal dims E) as (d1 & -> & Hn1 & _).
      simpl in H. apply IH; [|done].
      intros ->. destruct dims; [done|discriminate Hn1].
Qed.

Lemma fresh_dimensions brand w :
  let dims :=
    dimensions (of_session (Serverless.createBrandSession brand w).1) in
  name <$> dims = fresh_names ∧ Forall sound dims.
Proof.
  split; [done|]. rewrite createBrandSession_session.
  cbn [of_session dimensions Serverless.dimensions fmap list_fmap of_dimension
       Serverless.name Serverless.signalStrength Serverless.coherence
       Serverless.connections].
  repeat constructor.
Qed.

Lemma workshop_route_readable body w :
  nullish body = false →
  truthy (field "brandId" body) = true →
  well_formed body = true →
  ∃ st,
    workshop_route body w
    = (workshop_processed (field "brandId" body) st, later 3 0 w)
    ∧ brandId st = field "brandId" body
    ∧ name <$> dimensions st = fresh_names
    ∧ Forall sound (dimensions st)
    ∧ iterate (or_empty (field "contradictions" body))
      = returned (contradictions st)
    ∧ iterate (or_empty (field "gaps" body)) = returned (gaps st)
    ∧ cognitiveState st
      = Serverless.mkCognitiveState (Num 0.5) (Num 0.5) (Num 0.7) Undefined
    ∧ dialogue st = []
    ∧ created st = clock w (clock_reads w)
    ∧ lastUpdate st = clock w (clock_reads w + 2).
Proof.
  intros Hb Hbrand Hwf. unfold well_formed, iterable in Hwf.
  apply andb_true_iff in Hwf as [[Hs Hc]%andb_true_iff Hg].
  unfold workshop_route. rewrite Hb, Hbrand. cbn [negb]. unfold bind at 1.
  pose proof (createBrandSession_world (field "brandId" body) w) as Hw.
  destruct (fresh_dimensions (field "brandId" body) w) as [Hnames Hsound].
  pose proof (createBrandSession_session (field "brandId" body) w) as Hsess.
  destruct (Serverless.createBrandSession (field "brandId" body) w)
    as [s w1].
  cbn [fst snd] in *. subst w1.
  unfold processSignals.
  destruct (or_empty (field "signals" body)) as [| | | | | |l|]; try done.
  destruct (forEach_readable l (dimensions (of_session s)) Hs)
    as (dims & -> & Hn & Hsd).
  destruct (iterate (or_empty (field "contradictions" body))) as [cs|];
    [|done].
  destruct (iterate (or_empty (field "gaps" body))) as [gs|]; [|done].
  unfold bind, ret. rewrite new_Date_eq, later_later.
  eexists. split; [reflexivity|].
  cbn [brandId dimensions contradictions gaps cognitiveState dialogue
       created lastUpdate].
  subst s. cbn.
  split; [done|]. split; [by rewrite Hn|]. split; [by apply Hsd|]. done.
Qed.

Lemma workshop_route_unreadable body w :
  nullish body = false →
  truthy (field "brandId" body) = true →
  well_formed body = false →
  workshop_route body w = (internal_error, later 2 0 w).
Proof.
  intros Hb Hbrand Hwf. unfold well_formed, iterable in Hwf.
  unfold workshop_route. rewrite Hb, Hbrand. cbn [negb]. unfold bind at 1.
  pose proof (createBrandSession_world (field "brandId" body) w) as Hw.
  destruct (fresh_dimensions (field "brandId" body) w) as [Hnames _].
  destruct (Serverless.createBrandSession (field "brandId" body) w)
    as [s w1].
  cbn [fst snd] in *. subst w1.
  assert (dimensions (of_session s) ≠ []) as Hne.
  { intros E. by rewrite E in Hnames. }
  unfold processSignals.
  destruct (or_empty (field "signals" body)) as [| | | | | |l|]; try done.
  destruct (forallb (fun signal => negb (malformed signal)) l) eqn:Hs.
  - destruct (forEach_readable l (dimensions (of_session s)) Hs)
      as (dims & -> & _).
    destruct (iterate (or_empty (field "contradictions" body))) as [cs|];
      [|done].
    by destruct (iterate (or_empty (field "gaps" body))) as [gs|].
  - by rewrite forEach_malformed.
Qed.

Lemma workshop_route_nullish body w :
  nullish body = true → workshop_route body w = (internal_error, w).
Proof. intros Hb. unfold workshop_route. by rewrite Hb. Qed.

Lemma workshop_route_no_brand body w :
  nullish body = false → truthy (field "brandId" body) = false →
  workshop_route body w = (brand_required, w).
Proof. intros Hb Hbrand. unfold workshop_route. by rewrite Hb, Hbrand. Qed.

Lemma cognitive_route_nullish body w :
  nullish body = true → cognitive_route body w = (internal_error, w).
Proof. intros Hb. unfold cognitive_route. by rewrite Hb. Qed.

Lemma dialogue_route_nullish body w :
  nullish body = true → dialogue_route body w = (internal_error, w).
Proof. intros Hb. unfold dialogue_route. by rewrite Hb. Qed.

Lemma cognitive_route_status body w :
  status (cognitive_route body w).1 ≠ 404.
Proof.
  destruct (nullish body) eqn:Hb.
  - by rewrite cognitive_route_nullish.
  - rewrite cognitive_route_eq by done. by destruct (truthy _).
Qed.

Lemma dialogue_route_status body w :
  status (dialogue_route body w).1 ≠ 404.
Proof.
  destruct (nullish body) eqn:Hb.
  - by rewrite dialogue_route_nullish.
  - pose proof (dialogue_route_cases body w Hb) as H.
    destruct (truthy _); [|by rewrite H].
    destruct H as (entry & w' & ->). done.
Qed.

(** The handler answers a preflight, or the first of its four blocks
    whose condition holds answers, or the request is not found. *)
Lemma handler_cases req w :
  (method req = "OPTIONS" ∧ handler req w = (preflight, w))
  ∨ (method req ≠ "OPTIONS"
     ∧ ((gets_brand_state req
         ∧ handler req w = brand_route (pathParts (url req)) w)
        ∨ (posts_to req "workshop" "process"
           ∧ handler req w = workshop_route (body req) w)
        ∨ (posts_to req "ai" "cognitive-state"
           ∧ handler req w = cognitive_route (body req) w)
        ∨ (posts_to req "refinement" "dialogue"
           ∧ handler req w = dialogue_route (body req) w)
        ∨ (¬ gets_brand_state req
           ∧ ¬ posts_to req "workshop" "process"
           ∧ ¬ posts_to req "ai" "cognitive-state"
           ∧ ¬ posts_to req "refinement" "dialogue"
           ∧ handler req w = (not_found, w)))).
Proof.
  unfold handler, routes.
  destruct (String.eqb (method req) "OPTIONS") eqn:Eo.
  { left. by apply String.eqb_eq in Eo. }
  right. apply String.eqb_neq in Eo. split; [done|].
  rewrite !nested_if.
  destruct (part_is (pathParts (url req) !! 0) "brand" && _) eqn:E1.
  { left. by apply brand_block_taken in E1. }
  destruct (part_is (pathParts (url req) !! 0) "workshop" && _) eqn:E2.
  { right; left. by apply block_taken in E2. }
  destruct (part_is (pathParts (url req) !! 0) "ai" && _) eqn:E3.
  { right; right; left. by apply block_taken in E3. }
  destruct (part_is (pathParts (url req) !! 0) "refinement" && _) eqn:E4.
  { right; right; right; left. by apply block_taken in E4. }
  right; right; right; right.
  split; [|split; [|split; [|split]]]; try done.
  - intros H%brand_block_taken. congruence.
  - intros H%block_taken. congruence.
  - intros H%block_taken. congruence.
  - intros H%block_taken. congruence.
Qed.

End Routing.

(** X13.  The handler serves the same routes under [/api/websocket-server/]
    and under [/api/]: for a path [rest] in which no further [/api/]
    occurs and which does not itself start a second
    [/api/websocket-server], the two URLs have the same path parts and a
    request is answered alike on both. *)
Theorem both_prefixes_reach_the_same_route
  (m rest : string) (b : Js.value) (w : World) :
  Js.includes ("/" +:+ rest) "/api/" = false →
  Js.includes ("/api/" +:+ rest) "/api/websocket-server" = false →
  Router.pathParts ("/api/websocket-server/" +:+ rest)
  = Router.pathParts ("/api/" +:+ rest)
  ∧ Router.handler (Router.mkRequest m ("/api/websocket-server/" +:+ rest) b) w
    = Router.handler (Router.mkRequest m ("/api/" +:+ rest) b) w.
Proof.
  intros H1 H2.
  assert (Router.pathParts ("/api/websocket-server/" +:+ rest)
          = Router.pathParts ("/api/" +:+ rest)) as Hparts.
  { unfold Router.pathParts, Router.urlPath.
    change ("/api/websocket-server/" +:+ rest)
      with ("/api/websocket-server" +:+ ("/" +:+ rest)).
    rewrite replace_prefix, (replace_absent "/api/" _ H1).
    rewrite (replace_absent "/api/websocket-server" _ H2).
    rewrite (replace_prefix "/api/" rest). reflexivity. }
  split; [exact Hparts|].
  unfold Router.handler. cbn [Router.url Router.method].
  rewrite Hparts. reflexivity.
Qed.

Lemma both_prefixes_reach_the_same_route_witness :
  Router.pathParts "/api/websocket-server/brand/acme/state"
  = ["brand"; "acme"; "state"]
  ∧ Router.handler
      (Router.mkRequest "GET" "/api/websocket-server/brand/acme/state"
         Js.Undefined) Stmt.world0
    = Router.handler
        (Router.mkRequest "GET" "/api/brand/acme/state" Js.Undefined)
        Stmt.world0.
Proof.
  exact (both_prefixes_reach_the_same_route "GET" "brand/acme/state"
           Js.Undefined Stmt.world0 eq_refl eq_refl).
Defined.

(** X14.  A GET whose path has "brand" as first and "state" as third part
    is answered with the state of a session created for the second part
    of the path, which is never empty: empty parts are filtered out of
    the path before the route is chosen, so the fallback brand
    'demo-brand' is never used. *)
Theorem brand_state_names_the_path_segment
  (req : Router.Request) (w : World) :
  Shape.gets_brand_state req →
  ∃ segment,
    Router.pathParts (Router.url req) !! 1 = Some segment
    ∧ segment ≠ ""
    ∧ Router.handler req w
      = (Router.brand_state (Js.Str segment)
           (Serverless.createBrandSession (Js.Str segment) w).1,
         Stmt.later 2 0 w).
Proof.
  intros Hget. rewrite (handler_brand req w Hget).
  destruct Hget as (_ & _ & H2).
  destruct (Router.pathParts (Router.url req) !! 1) as [segment|] eqn:H1.
  - pose proof (pathParts_nonempty _ _ _ H1) as Hne.
    exists segment. split; [done|]. split; [done|].
    by apply brand_route_eq.
  - apply lookup_ge_None in H1. apply lookup_lt_Some in H2. lia.
Qed.

Lemma brand_state_names_the_path_segment_witness :
  ∃ segment,
    Router.pathParts "/api/brand/acme/state" !! 1 = Some segment
    ∧ segment ≠ ""
    ∧ Router.handler
        (Router.mkRequest "GET" "/api/brand/acme/state" Js.Undefined)
        Stmt.world0
      = (Router.brand_state (Js.Str segment)
           (Serverless.createBrandSession (Js.Str segment) Stmt.world0).1,
         Stmt.later 2 0 Stmt.world0).
Proof.
  apply (brand_state_names_the_path_segment
           (Router.mkRequest "GET" "/api/brand/acme/state" Js.Undefined)
           Stmt.world0).
  repeat split.
Defined.

(** X15.  The three POST routes check the body in the same order.  A
    request without a body ([undefined] or [null]) is answered 500, not
    400, and reads no clock; a body whose [brandId] is missing or falsy is
    answered 400 'Brand ID is required'.  With a truthy [brandId] the
    cognitive-state route and the dialogue route always answer 200,
    whatever the other fields are. *)
Theorem post_routes_check_the_body (req : Router.Request) (w : World) :
  Shape.posts_to req "workshop" "process"
  ∨ Shape.posts_to req "ai" "cognitive-state"
  ∨ Shape.posts_to req "refinement" "dialogue" →
  (Router.nullish (Router.body req) = true →
   Router.handler req w = (Router.internal_error, w))
  ∧ (Router.nullish (Router.body req) = false →
     Js.truthy (Router.field "brandId" (Router.body req)) = false →
     Router.handler req w = (Router.brand_required, w))
  ∧ (Router.nullish (Router.body req) = false →
     Js.truthy (Router.field "brandId" (Router.body req)) = true →
     Shape.posts_to req "ai" "cognitive-state"
     ∨ Shape.posts_to req "refinement" "dialogue" →
     Router.status (Router.handler req w).1 = 200).
Proof.
  intros Hroute. split; [|split].
  - intros Hb. destruct Hroute as [H|[H|H]].
    + rewrite (handler_workshop req w H). by apply workshop_route_nullish.
    + rewrite (handler_cognitive req w H). by apply cognitive_route_nullish.
    + rewrite (handler_dialogue req w H). by apply dialogue_route_nullish.
  - intros Hb Hbrand. destruct Hroute as [H|[H|H]].
    + rewrite (handler_workshop req w H). by apply workshop_route_no_brand.
    + rewrite (handler_cognitive req w H), cognitive_route_eq by done.
      by rewrite Hbrand.
    + rewrite (handler_dialogue req w H).
      pose proof (dialogue_route_cases (Router.body req) w Hb) as Hd.
      by rewrite Hbrand in Hd.
  - intros Hb Hbrand [H|H].
    + rewrite (handler_cognitive req w H), cognitive_route_eq by done.
      by rewrite Hbrand.
    + rewrite (handler_dialogue req w H).
      pose proof (dialogue_route_cases (Router.body req) w Hb) as Hd.
      rewrite Hbrand in Hd. destruct Hd as (entry & w' & ->). done.
Qed.

Lemma post_routes_check_the_body_witness :
  Router.handler
    (Router.mkRequest "POST" "/api/workshop/process" Js.Undefined) Stmt.world0
  = (Router.internal_error, Stmt.world0)
  ∧ Router.handler
      (Router.mkRequest "POST" "/api/workshop/process"
         (Js.Obj [("signals", Js.Arr [])])) Stmt.world0
    = (Router.brand_required, Stmt.world0)
  ∧ Router.status
      (Router.handler
         (Router.mkRequest "POST" "/api/ai/cognitive-state"
            (Js.Obj [("brandId", Js.Str "acme"); ("analytical", Js.Str "high")]))
         Stmt.world0).1 = 200.
Proof.
  split; [|split].
  - apply (post_routes_check_the_body
             (Router.mkRequest "POST" "/api/workshop/process" Js.Undefined)
             Stmt.world0); [left; repeat split|reflexivity].
  - apply (post_routes_check_the_body
             (Router.mkRequest "POST" "/api/workshop/process"
                (Js.Obj [("signals", Js.Arr [])])) Stmt.world0);
      [left; repeat split|reflexivity|reflexivity].
  - apply (post_routes_check_the_body
             (Router.mkRequest "POST" "/api/ai/cognitive-state"
                (Js.Obj [("brandId", Js.Str "acme");
                         ("analytical", Js.Str "high")])) Stmt.world0);
      [right; left; repeat split|reflexivity|reflexivity|left; repeat split].
Defined.

(** X16.  The workshop route of the endpoint answers a readable body that
    names a brand with 200 and a session made for this request alone: the
    six dimensions of a new session under their names, each with a
    coherence of at most one and a truthy signal strength whatever the
    signals were, the default cognitive state and an empty dialogue.  The
    contradictions and gaps of the answer are the submitted entries
    themselves, in order, with no identifier and no date added.  The route
    reads the clock three times. *)
Theorem workshop_route_answers_a_new_session
  (req : Router.Request) (w : World) :
  Shape.posts_to req "workshop" "process" →
  Router.nullish (Router.body req) = false →
  Js.truthy (Router.field "brandId" (Router.body req)) = true →
  Shape.well_formed (Router.body req) = true →
  ∃ st,
    Router.handler req w
    = (Router.workshop_processed (Router.field "brandId" (Router.body req)) st,
       Stmt.later 3 0 w)
    ∧ Router.brandId st = Router.field "brandId" (Router.body req)
    ∧ Router.name <$> Router.dimensions st = Shape.fresh_names
    ∧ Forall Shape.sound (Router.dimensions st)
    ∧ Router.iterate
        (Router.or_empty (Router.field "contradictions" (Router.body req)))
      = Gateway.returned (Router.contradictions st)
    ∧ Router.iterate (Router.or_empty (Router.field "gaps" (Router.body req)))
      = Gateway.returned (Router.gaps st)
    ∧ Router.cognitiveState st
      = Serverless.mkCognitiveState (Js.Num 0.5) (Js.Num 0.5) (Js.Num 0.7)
          Js.Undefined
    ∧ Router.dialogue st = []
    ∧ Router.created st = clock w (clock_reads w)
    ∧ Router.lastUpdate st = clock w (clock_reads w + 2).
Proof.
  intros Hroute Hb Hbrand Hwf. rewrite (handler_workshop req w Hroute).
  by apply workshop_route_readable.
Qed.

Lemma workshop_route_answers_a_new_session_witness :
  let contradiction := Js.Obj [("between", Js.Str "price and promise")] in
  let body :=
    Js.Obj [ ("brandId", Js.Str "acme");
             ("signals",
              Js.Arr [ Js.Obj [("category", Js.Str "MARKET");
                               ("confidence", Js.Num 2)];
                       Js.Str "noise" ]);
             ("contradictions", Js.Arr [contradiction]) ] in
  ∃ st,
    (Router.handler (Router.mkRequest "POST" "/api/workshop/process" body)
       Stmt.world0).1
    = Router.workshop_processed (Js.Str "acme") st
    ∧ Router.contradictions st = [contradiction]
    ∧ Router.gaps st = []
    ∧ Forall Shape.sound (Router.dimensions st).
Proof.
  intros contradiction body.
  destruct (workshop_route_answers_a_new_session
              (Router.mkRequest "POST" "/api/workshop/process" body)
              Stmt.world0)
    as (st & Heq & _ & _ & Hsound & Hc & Hg & _).
  { repeat split. }
  { reflexivity. }
  { reflexivity. }
  { reflexivity. }
  exists st. rewrite Heq. split; [reflexivity|].
  injection Hc as Hc. injection Hg as Hg.
  split; [by rewrite <- Hc|]. split; [by rewrite <- Hg|exact Hsound].
Defined.

(** X17.  One unreadable list fails the whole workshop request: when the
    body names a brand but [signals] is not an array, or holds a signal
    that is [undefined] or [null] or whose [category] is neither a text
    nor left out, or when [contradictions] or [gaps] is not an array or a
    text, the answer is 500 'Internal server error', not 400, and nothing
    of the readable signals is answered.  By then the session has been
    created: the clock has been read twice. *)
Theorem unreadable_workshop_data_fails_the_request
  (req : Router.Request) (w : World) :
  Shape.posts_to req "workshop" "process" →
  Router.nullish (Router.body req) = false →
  Js.truthy (Router.field "brandId" (Router.body req)) = true →
  Shape.well_formed (Router.body req) = false →
  Router.handler req w = (Router.internal_error, Stmt.later 2 0 w).
Proof.
  intros Hroute Hb Hbrand Hwf. rewrite (handler_workshop req w Hroute).
  by apply workshop_route_unreadable.
Qed.

Lemma unreadable_workshop_data_fails_the_request_witness :
  let body :=
    Js.Obj [ ("brandId", Js.Str "acme");
             ("signals",
              Js.Arr [ Js.Obj [("category", Js.Str "market")];
                       Js.Obj [("category", Js.Num 3)] ]) ] in
  Router.status
    (Router.handler (Router.mkRequest "POST" "/api/workshop/process" body)
       Stmt.world0).1 = 500.
Proof.
  intros body.
  rewrite (unreadable_workshop_data_fails_the_request
             (Router.mkRequest "POST" "/api/workshop/process" body)
             Stmt.world0); [reflexivity|repeat split|reflexivity..].
Defined.

(** X18.  The handler answers 404 'Endpoint not found' exactly when the
    request is not a preflight and is none of: a GET of the brand state, a
    POST to workshop/process, to ai/cognitive-state or to
    refinement/dialogue.  In particular a known path under another method
    is answered 404, and no route answers 404 itself. *)
Theorem unmatched_requests_are_not_found (req : Router.Request) (w : World) :
  Router.status (Router.handler req w).1 = 404
  ↔ Router.method req ≠ "OPTIONS"
    ∧ ¬ Shape.gets_brand_state req
    ∧ ¬ Shape.posts_to req "workshop" "process"
    ∧ ¬ Shape.posts_to req "ai" "cognitive-state"
    ∧ ¬ Shape.posts_to req "refinement" "dialogue".
Proof.
  destruct (handler_cases req w)
    as [[Hm ->]|[Hm [[H ->]|[[H ->]|[[H ->]|[[H ->]|(H1 & H2 & H3 & H4 & ->)]]]]]].
  - split; [done|]. by intros [? _].
  - rewrite brand_route_status. split; [done|]. by intros (_ & ? & _).
  - split; [by intros ?%workshop_route_status|]. by intros (_ & _ & ? & _).
  - split; [by intros ?%cognitive_route_status|].
    by intros (_ & _ & _ & ? & _).
  - split; [by intros ?%dialogue_route_status|].
    by intros (_ & _ & _ & _ & ?).
  - done.
Qed.

Lemma unmatched_requests_are_not_found_witness :
  Router.status
    (Router.handler
       (Router.mkRequest "POST" "/api/brand/acme/state" Js.Undefined)
       Stmt.world0).1 = 404
  ∧ Router.status
      (Router.handler
         (Router.mkRequest "GET" "/api/brand//state" Js.Undefined)
         Stmt.world0).1 = 404.
Proof.
  split.
  - apply (unmatched_requests_are_not_found
             (Router.mkRequest "POST" "/api/brand/acme/state" Js.Undefined)
             Stmt.world0).
    split; [done|]. split; [by intros (? & _)|].
    split; [by intros (_ & ? & _)|].
    split; by intros (_ & ? & _).
  - apply (unmatched_requests_are_not_found
             (Router.mkRequest "GET" "/api/brand//state" Js.Undefined)
             Stmt.world0).
    split; [done|]. split; [by intros (_ & _ & ?)|].
    split; [by intros (? & _)|].
    split; by intros (? & _).
Defined.
